(** * Consulting AI: opportunities, phases and artifacts

    A shallow embedding of the parts of the repository that carry the
    engagement data model:

    - the React components that validate and shape user input
      ([CreateOpportunityModal], [AddArtifactModal], [OpportunityDrawer],
      [OpportunityPanel]), the lists ([OpportunityList],
      [ConversationSidebar]), the handlers of [Home] and the two hooks of
      hooks/useOpportunity.ts;
    - the multi-user Supabase schema (tables, constraints, referential
      actions, the [increment_artifacts_count] function and the row-level
      security policies), with what PostgreSQL does to a statement in the
      order it does it: reading the values, the defaults, the policy, the
      constraints;
    - the single-user schema's [active_opportunity] table, where it differs;
    - the two schema scripts as sequences of statements run against a
      catalog.

    The Python backend that sits between the two is not part of the sources;
    where a statement needs it, the operation is written down from the
    specification and marked as such. *)

From Stdlib Require Import List String Ascii Bool NArith ZArith Lia.
Import ListNotations.

Set Implicit Arguments.

(* ================================================================== *)
(** * Text *)
(* ================================================================== *)

(** A JavaScript string is a sequence of UTF-16 code units, any sequence:
    U+0000 and surrogates that pair with nothing are allowed in it.  A TEXT
    column holds fewer values than that; [storable], with the database,
    says which. *)
Definition text : Type := list N.

(** ASCII literals of the sources, as code units. *)
Definition js (s : string) : text :=
  map N_of_ascii (list_ascii_of_string s).

Fixpoint text_eqb (s t : text) : bool :=
  match s, t with
  | [], [] => true
  | c :: s', d :: t' => N.eqb c d && text_eqb s' t'
  | _, _ => false
  end.

(** Truthiness of a JavaScript string: only the empty string is falsy. *)
Definition truthy (s : text) : bool :=
  match s with [] => false | _ :: _ => true end.

(** ECMAScript WhiteSpace and LineTerminator code points, the ones
    [String.prototype.trim] strips.  All of them lie in the basic plane,
    so the test is on single code units. *)
Definition isWhiteSpace (c : N) : bool :=
  (N.eqb c 9 || N.eqb c 10 || N.eqb c 11 || N.eqb c 12 || N.eqb c 13
   || N.eqb c 32 || N.eqb c 160 || N.eqb c 5760
   || (N.leb 8192 c && N.leb c 8202)
   || N.eqb c 8232 || N.eqb c 8233 || N.eqb c 8239 || N.eqb c 8287
   || N.eqb c 12288 || N.eqb c 65279)%bool.

Fixpoint trimStart (s : text) : text :=
  match s with
  | [] => []
  | c :: s' => if isWhiteSpace c then trimStart s' else s
  end.

Definition trimEnd (s : text) : text := rev (trimStart (rev s)).

Definition trim (s : text) : text := trimEnd (trimStart s).

(** [s.split(sep)] for a one-unit separator: never empty, the empty string
    splits into one empty piece. *)
Fixpoint split (sep : N) (s : text) : list text :=
  match s with
  | [] => [[]]
  | c :: s' =>
      if N.eqb c sep then [] :: split sep s'
      else match split sep s' with
           | [] => [[c]]
           | w :: ws => (c :: w) :: ws
           end
  end.


Definition comma : N := 44.

(** [s.includes(p)]: [p] occurs in [s] at some position. *)
Fixpoint startsWith (s p : text) : bool :=
  match p, s with
  | [], _ => true
  | _ :: _, [] => false
  | d :: p', c :: s' => N.eqb c d && startsWith s' p'
  end.

Fixpoint includes (s p : text) : bool :=
  startsWith s p
  || match s with
     | [] => false
     | _ :: s' => includes s' p
     end.

(* ================================================================== *)
(** * Front end *)
(* ================================================================== *)

(** ** OpportunityPanel.tsx *)
Module OpportunityPanel.

Definition PHASE_ORDER : list text :=
  [js "pre_assessment"; js "discovery"; js "solution_design"; js "implementation"].

End OpportunityPanel.

(** ** CreateOpportunityModal.tsx *)
Module CreateOpportunityModal.

Record OpportunityFormData : Type := mkForm {
  name : text;
  clientName : text;
  description : text;
  stakeholders : text
}.

(** [Partial<OpportunityFormData>]: an object holding some of the keys,
    in insertion order. *)
Definition Errors : Type := list (string * text).

Definition emptyForm : OpportunityFormData :=
  {| name := []; clientName := []; description := []; stakeholders := [] |}.

Record State : Type := mkState {
  formData : OpportunityFormData;
  errors : Errors
}.

(** The error object [validate] builds. *)
Definition newErrors (fd : OpportunityFormData) : Errors :=
  (if negb (truthy (trim (name fd)))
   then [("name"%string, js "Opportunity name is required")] else [])
  ++ (if negb (truthy (trim (clientName fd)))
      then [("clientName"%string, js "Client name is required")] else [])
  ++ (if negb (truthy (trim (description fd)))
      then [("description"%string, js "Description is required")] else []).

(** [validate]: stores the errors, answers whether there are none. *)
Definition validate (st : State) : State * bool :=
  let e := newErrors (formData st) in
  ({| formData := formData st; errors := e |},
   Nat.eqb (List.length (map fst e)) 0).

(** [handleSubmit]: the new component state and the argument handed to
    [onSubmit], if it is called. *)
Definition handleSubmit (st : State) : State * option OpportunityFormData :=
  let (st', ok) := validate st in
  if ok
  then ({| formData := emptyForm; errors := [] |}, Some (formData st))
  else (st', None).

End CreateOpportunityModal.

(** ** AddArtifactModal.tsx *)
Module AddArtifactModal.

Inductive Mode : Type := type_mode | file_mode.

Record File : Type := mkFile { file_name : text }.

Record ArtifactFormData : Type := mkArtifactForm {
  type : text;
  title : text;
  content : text;
  file : option File;
  tags : list text
}.

Definition ARTIFACT_TYPES : list text :=
  [js "meeting_note"; js "pain_point"; js "process_map"; js "requirement";
   js "risk"; js "deliverable"; js "stakeholder_note"; js "other"].

Record State : Type := mkState {
  mode : Mode;
  selectedType : text;
  st_title : text;
  st_content : text;
  st_file : option File;
  st_tags : text
}.

(** [tags.split(",").map(t => t.trim()).filter(Boolean)] *)
Definition parseTags (s : text) : list text :=
  filter truthy (map trim (split comma s)).

Definition is_type (m : Mode) : bool :=
  match m with type_mode => true | file_mode => false end.

Definition present {A : Type} (x : option A) : bool :=
  match x with Some _ => true | None => false end.

(** [handleSubmit]: the argument handed to [onSubmit], or [None] when the
    handler alerts and returns. *)
Definition handleSubmit (st : State) : option ArtifactFormData :=
  if is_type (mode st)
     && (negb (truthy (selectedType st)) || negb (truthy (st_title st))
         || negb (truthy (st_content st)))
  then None
  else if negb (is_type (mode st))
          && (negb (truthy (selectedType st)) || negb (truthy (st_title st))
              || negb (present (st_file st)))
  then None
  else Some {|
    type := selectedType st;
    title := st_title st;
    content := (if is_type (mode st) then st_content st
                else js "File: " ++ match st_file st with
                                    | Some f => file_name f
                                    | None => js "undefined"
                                    end);
    file := st_file st;
    tags := parseTags (st_tags st)
  |}.

Definition dot : N := 46.
Definition slash : N := 47.

(** The class [[^/.]] of the pattern below. *)
Definition extension_unit (c : N) : bool :=
  negb (N.eqb c slash) && negb (N.eqb c dot).

(** [name.replace(/\.[^/.]+$/, empty)], with the empty string as the
    replacement: the match starts at the first dot that is followed, up to
    the end of the name, by one or more units other than dot and slash; it
    is removed. *)
Fixpoint stripExtension (name : text) : text :=
  match name with
  | [] => []
  | c :: rest =>
      if N.eqb c dot && truthy rest && forallb extension_unit rest
      then []
      else c :: stripExtension rest
  end.

(** [handleFileChange]: [selectedFile] is [e.target.files?.[0]]. *)
Definition handleFileChange (selectedFile : option File) (st : State) : State :=
  match selectedFile with
  | Some f =>
      {| mode := mode st;
         selectedType := selectedType st;
         st_title := (if negb (truthy (st_title st))
                      then stripExtension (file_name f)
                      else st_title st);
         st_content := st_content st;
         st_file := Some f;
         st_tags := st_tags st |}
  | None => st
  end.

End AddArtifactModal.

(** ** OpportunityDrawer.tsx *)
Module OpportunityDrawer.

Record Phase : Type := mkPhase {
  id : text;
  label : text;
  emoji : text;
  color : text
}.

(** The emoji are astral code points, two code units each. *)
Definition PHASES : list Phase :=
  [ {| id := js "pre_assessment"; label := js "Pre-Assessment";
       emoji := [55356; 57263]%N; color := js "blue" |};
    {| id := js "discovery"; label := js "Discovery";
       emoji := [55357; 56589]%N; color := js "purple" |};
    {| id := js "solution_design"; label := js "Solution Design";
       emoji := [55356; 57256]%N; color := js "green" |};
    {| id := js "implementation"; label := js "Implementation";
       emoji := [55357; 56960]%N; color := js "orange" |} ].

(** The drawer's view of the opportunity and its own selection. *)
Record State : Type := mkState {
  currentPhase : text;
  selectedPhase : text
}.

Definition handlePhaseClick (phaseId : text) (st : State) : State :=
  {| currentPhase := currentPhase st; selectedPhase := phaseId |}.

(** [handleMoveToPhase]: the argument handed to [onPhaseChange], if it is
    called. *)
Definition handleMoveToPhase (st : State) : option text :=
  if negb (text_eqb (selectedPhase st) (currentPhase st))
  then Some (selectedPhase st)
  else None.

(** The drawer as it is mounted: [useState(opportunity.currentPhase)]. *)
Definition mounted (currentPhase : text) : State :=
  {| currentPhase := currentPhase; selectedPhase := currentPhase |}.

(** The flags the phase list computes for each entry of [PHASES]. *)
Definition isActive (phase : Phase) (st : State) : bool :=
  text_eqb (id phase) (currentPhase st).

Definition isSelected (phase : Phase) (st : State) : bool :=
  text_eqb (id phase) (selectedPhase st).

(** Whether the entry renders the button wired to [handleMoveToPhase]:
    [isSelected && ... !isActive && ...]. *)
Definition showsMoveButton (st : State) (phase : Phase) : bool :=
  isSelected phase st && negb (isActive phase st).

End OpportunityDrawer.

(** ** lib/api.ts *)
Module api.

(** A plain object with string values: its own properties in insertion
    order, each key once. *)
Definition object : Type := list (string * text).

Definition get (key : string) (o : object) : option text :=
  match find (fun kv => String.eqb (fst kv) key) o with
  | Some kv => Some (snd kv)
  | None => None
  end.

(** Defining a property: a key that is there keeps its place and takes the
    new value, a new key goes last. *)
Fixpoint define (key : string) (value : text) (o : object) : object :=
  match o with
  | [] => [(key, value)]
  | (k, v) :: o' =>
      if String.eqb k key then (k, value) :: o'
      else (k, v) :: define key value o'
  end.

(** [{...a, ...b}] *)
Definition spread (a b : object) : object :=
  fold_left (fun o kv => define (fst kv) (snd kv) o) (a ++ b) [].

(** [session] is [None] for null; the token may be missing or empty. *)
Record Session : Type := mkSession {
  access_token : option text
}.

(** [RequestInit]: its [headers], when they are given as a plain object,
    and its other members. *)
Record RequestInit (A : Type) : Type := mkInit {
  headers : option object;
  others : A
}.

(** [getAuthHeaders]: the headers, or the message of the error thrown. *)
Definition getAuthHeaders (session : option Session) : object + text :=
  match session with
  | Some {| access_token := Some token |} =>
      if truthy token
      then inl [("Authorization"%string, js "Bearer " ++ token);
                ("Content-Type"%string, js "application/json")]
      else inr (js "No active session")
  | _ => inr (js "No active session")
  end.

(** [authFetch]: the arguments [fetch] is called with, or the message of
    the error thrown before any call. *)
Definition authFetch {A : Type} (session : option Session) (url : text)
  (options : RequestInit A) : (text * RequestInit A) + text :=
  match getAuthHeaders session with
  | inl auth =>
      inl (url,
           {| headers := Some (spread auth match headers options with
                                           | Some h => h
                                           | None => []
                                           end);
              others := others options |})
  | inr message => inr message
  end.

End api.

(** ** ConversationSidebar.tsx *)
Module ConversationSidebar.

(** A [Date]: its time value in milliseconds, or [None] for an invalid
    date, whose getters and comparisons answer NaN and false. *)
Definition Date : Type := option Z.

Record Conversation : Type := mkConversation {
  id : text;
  title : text;
  timestamp : Date;
  opportunityId : text;
  opportunityName : text;
  messageCount : Z
}.

(** [date1 > date2] and [date1 <= date2] on time values. *)
Definition after (date1 date2 : Date) : bool :=
  match date1, date2 with
  | Some a, Some b => Z.ltb b a
  | _, _ => false
  end.

Definition not_after (date1 date2 : Date) : bool :=
  match date1, date2 with
  | Some a, Some b => Z.leb a b
  | _, _ => false
  end.

Inductive group : Type := today | yesterday | lastWeek | older.

Section Calendar.

(** The local calendar day of a time value, as a day number: year, month
    and day of the month, which [isSameDay] compares, determine it and are
    determined by it. *)
Variable localDay : Z -> Z.

(** The time value of a copy of the date after
    [setDate(getDate() - days)]. *)
Variable daysBack : Z -> Z -> Z.

Definition isSameDay (date1 date2 : Date) : bool :=
  match date1, date2 with
  | Some a, Some b => Z.eqb (localDay a) (localDay b)
  | _, _ => false
  end.

(** The filter of each entry of [groupedConversations], for the time
    [now] of [new Date()]. *)
Definition in_group (now : Z) (g : group) (c : Conversation) : bool :=
  let date := timestamp c in
  match g with
  | today => isSameDay date (Some now)
  | yesterday => isSameDay date (Some (daysBack 1 now))
  | lastWeek =>
      after date (Some (daysBack 7 now))
      && negb (isSameDay date (Some now))
      && negb (isSameDay date (Some (daysBack 1 now)))
  | older => not_after date (Some (daysBack 7 now))
  end.

Definition groupedConversations (now : Z) (g : group)
  (filteredConversations : list Conversation) : list Conversation :=
  filter (in_group now g) filteredConversations.

End Calendar.

(** A calendar to try things on: days of 86400000 milliseconds, as in a
    zone without offset changes. *)
Definition utcDay (t : Z) : Z := (t / 86400000)%Z.

Definition utcDaysBack (days t : Z) : Z := (t - days * 86400000)%Z.

End ConversationSidebar.

(** ** Home.tsx *)

(** [s.replace(a, b)] for one-unit strings [a] and [b]: the first
    occurrence only. *)
Fixpoint replace1 (a b : N) (s : text) : text :=
  match s with
  | [] => []
  | c :: s' => if N.eqb c a then b :: s' else c :: replace1 a b s'
  end.

Definition underscore : N := 95.
Definition space : N := 32.
Definition quote : N := 34.

Module Home.

Inductive ToastType : Type := success | error | info.

Record Toast : Type := mkToast {
  message : text;
  type : ToastType
}.

(** The component's own state; the two hooks keep theirs. *)
Record State : Type := mkState {
  isCreateModalOpen : bool;
  showOpportunitySelector : bool;
  chatKey : N;
  isDrawerOpen : bool;
  toast : option Toast;
  isTransitioning : bool;
  isCreating : bool;
  isInitialLoad : bool
}.

(** The body [handleArtifactAdd] posts. *)
Record ArtifactBody : Type := mkArtifactBody {
  body_type : text;
  body_title : text;
  body_content : text;
  body_phase : text;
  body_tags : list text
}.

Inductive request : Type :=
| POST_opportunities (data : CreateOpportunityModal.OpportunityFormData)
| POST_activate (oppId : text)
| DELETE_opportunity (oppId : text)
| POST_phase (oppId phase : text)
| POST_artifacts (oppId : text) (body : ArtifactBody).

(** What a handler asks of the outside, in order: requests, and the
    [refresh] functions of the two hooks (which never reject). *)
Inductive call : Type :=
| fetch (r : request)
| refresh
| refreshOpps.

(** What [fetch] came back with: a rejected promise, or a response with
    its [ok] flag and what [response.json()] resolves to, [None] when it
    rejects. *)
Inductive fetched (A : Type) : Type :=
| rejected
| response (ok : bool) (json : option A).
Arguments rejected {A}.
Arguments response {A} ok json.

(** The body of the answer to a creation, as far as the handler reads it:
    [result.opportunity.id] throws when there is no [opportunity]. *)
Inductive created : Type :=
| no_opportunity
| opportunity_id (id : text).

(** The initial values of the [useState] calls. *)
Definition mounted : State :=
  {| isCreateModalOpen := false; showOpportunitySelector := true;
     chatKey := 0; isDrawerOpen := false; toast := None;
     isTransitioning := false; isCreating := false; isInitialLoad := true |}.

Definition set_toast (t : Toast) (st : State) : State :=
  {| isCreateModalOpen := isCreateModalOpen st;
     showOpportunitySelector := showOpportunitySelector st;
     chatKey := chatKey st; isDrawerOpen := isDrawerOpen st;
     toast := Some t; isTransitioning := isTransitioning st;
     isCreating := isCreating st; isInitialLoad := isInitialLoad st |}.

Definition set_flags (transitioning creating : bool) (st : State) : State :=
  {| isCreateModalOpen := isCreateModalOpen st;
     showOpportunitySelector := showOpportunitySelector st;
     chatKey := chatKey st; isDrawerOpen := isDrawerOpen st;
     toast := toast st; isTransitioning := transitioning;
     isCreating := creating; isInitialLoad := isInitialLoad st |}.

(** [setChatKey(prev => prev + 1); setShowOpportunitySelector(false)] *)
Definition enter_chat (st : State) : State :=
  {| isCreateModalOpen := isCreateModalOpen st;
     showOpportunitySelector := false;
     chatKey := (chatKey st + 1)%N; isDrawerOpen := isDrawerOpen st;
     toast := toast st; isTransitioning := isTransitioning st;
     isCreating := isCreating st; isInitialLoad := isInitialLoad st |}.

Definition close_modal (st : State) : State :=
  {| isCreateModalOpen := false;
     showOpportunitySelector := showOpportunitySelector st;
     chatKey := chatKey st; isDrawerOpen := isDrawerOpen st;
     toast := toast st; isTransitioning := isTransitioning st;
     isCreating := isCreating st; isInitialLoad := isInitialLoad st |}.

Definition close_drawer (st : State) : State :=
  {| isCreateModalOpen := isCreateModalOpen st;
     showOpportunitySelector := showOpportunitySelector st;
     chatKey := chatKey st; isDrawerOpen := false;
     toast := toast st; isTransitioning := isTransitioning st;
     isCreating := isCreating st; isInitialLoad := isInitialLoad st |}.

Definition handleSelectOpportunity (oppId : text) (answer : fetched unit)
  (st : State) : State * list call :=
  let st1 := set_flags true false st in
  match answer with
  | response true _ =>
      (set_flags false (isCreating st1) (enter_chat st1),
       [fetch (POST_activate oppId); refresh; refreshOpps])
  | _ => (set_flags false (isCreating st1) st1, [fetch (POST_activate oppId)])
  end.

(** The [catch] block of [handleCreateOpportunity]. *)
Definition create_failed (st : State) : State :=
  set_flags false false
    (set_toast {| message := js "Failed to create opportunity"; type := error |} st).

Definition handleCreateOpportunity
  (data : CreateOpportunityModal.OpportunityFormData)
  (answer : fetched created) (activation : fetched unit) (st : State)
  : State * list call :=
  let st1 := set_flags (isTransitioning st) true (close_modal st) in
  let posted := [fetch (POST_opportunities data)] in
  match answer with
  | rejected => (create_failed st1, posted)
  | response false _ => (st1, posted)
  | response true None => (create_failed st1, posted)
  | response true (Some result) =>
      let st2 := set_flags true false st1 in
      match result with
      | no_opportunity => (create_failed st2, posted)
      | opportunity_id id =>
          let asked := posted ++ [fetch (POST_activate id)] in
          match activation with
          | rejected => (create_failed st2, asked)
          | response true _ =>
              (set_flags false (isCreating st2) (enter_chat st2),
               asked ++ [refresh; refreshOpps])
          | response false _ => (set_flags false (isCreating st2) st2, asked)
          end
      end
  end.

Definition handleChangeOpportunity (st : State) : State :=
  {| isCreateModalOpen := isCreateModalOpen st;
     showOpportunitySelector := true;
     chatKey := chatKey st; isDrawerOpen := isDrawerOpen st;
     toast := toast st; isTransitioning := false;
     isCreating := false; isInitialLoad := isInitialLoad st |}.

Definition handleDeleteOpportunity (oppId : text) (answer : fetched unit)
  (st : State) : State * list call :=
  match answer with
  | response true _ =>
      (set_toast {| message := js "Opportunity deleted successfully";
                    type := success |} st,
       [fetch (DELETE_opportunity oppId); refreshOpps; refresh])
  | _ =>
      (set_toast {| message := js "Failed to delete opportunity"; type := error |} st,
       [fetch (DELETE_opportunity oppId)])
  end.

(** [opportunity] is the id of the hook's opportunity, if there is one. *)
Definition handlePhaseChange (opportunity : option text) (phase : text)
  (answer : fetched unit) (st : State) : State * list call :=
  match opportunity with
  | None => (st, [])
  | Some oppId =>
      match answer with
      | response true _ =>
          (close_drawer
             (set_toast {| message := js "Moved to "
                                      ++ replace1 underscore space phase
                                      ++ js " phase";
                           type := success |} st),
           [fetch (POST_phase oppId phase); refresh; refreshOpps])
      | response false _ =>
          (set_toast {| message := js "Failed to change phase"; type := error |} st,
           [fetch (POST_phase oppId phase)])
      | rejected =>
          (set_toast {| message := js "Error changing phase"; type := error |} st,
           [fetch (POST_phase oppId phase)])
      end
  end.

Definition handleArtifactAdd (opportunity : option text)
  (artifact : AddArtifactModal.ArtifactFormData) (phase : text)
  (answer : fetched unit) (st : State) : State * list call :=
  match opportunity with
  | None => (st, [])
  | Some oppId =>
      let posted :=
        [fetch (POST_artifacts oppId
                  {| body_type := AddArtifactModal.type artifact;
                     body_title := AddArtifactModal.title artifact;
                     body_content := AddArtifactModal.content artifact;
                     body_phase := phase;
                     body_tags := AddArtifactModal.tags artifact |})] in
      match answer with
      | response true (Some _) =>
          (set_toast {| message := js "Artifact " ++ quote
                                   :: AddArtifactModal.title artifact
                                   ++ quote :: js " added successfully";
                        type := success |} st,
           posted ++ [refresh; refreshOpps])
      | response false _ =>
          (set_toast {| message := js "Failed to add artifact"; type := error |} st,
           posted)
      | _ =>
          (set_toast {| message := js "Error adding artifact"; type := error |} st,
           posted)
      end
  end.

(** The overlay over the selector screen:
    [showOpportunitySelector] and [(isTransitioning || isCreating)]. *)
Definition overlay (st : State) : bool :=
  showOpportunitySelector st && (isTransitioning st || isCreating st).

(** What can happen to the component. *)
Inductive event : Type :=
| select (oppId : text) (answer : fetched unit)
| create (data : CreateOpportunityModal.OpportunityFormData)
         (answer : fetched created) (activation : fetched unit)
| change
| delete (oppId : text) (answer : fetched unit)
| phase_change (opportunity : option text) (phase : text) (answer : fetched unit)
| artifact_add (opportunity : option text)
               (artifact : AddArtifactModal.ArtifactFormData) (phase : text)
               (answer : fetched unit).

Definition handle (e : event) (st : State) : State :=
  match e with
  | select i a => fst (handleSelectOpportunity i a st)
  | create d a b => fst (handleCreateOpportunity d a b st)
  | change => handleChangeOpportunity st
  | delete i a => fst (handleDeleteOpportunity i a st)
  | phase_change o p a => fst (handlePhaseChange o p a st)
  | artifact_add o x p a => fst (handleArtifactAdd o x p a st)
  end.

End Home.

(* ================================================================== *)
(** * The database: supabase_schema.sql (multi-user) *)
(* ================================================================== *)

Definition uuid : Type := N.
Definition timestamptz : Type := Z.

(** ** Values, NULL and three-valued logic *)

(** What an INSERT says about one column: nothing (the column default
    applies), an explicit NULL, or a value. *)
Inductive cell (A : Type) : Type :=
| DEFAULT
| NULL
| VALUE (a : A).
Arguments DEFAULT {A}.
Arguments NULL {A}.
Arguments VALUE {A} a.

Definition resolve {A : Type} (dflt : option A) (c : cell A) : option A :=
  match c with
  | DEFAULT => dflt
  | NULL => None
  | VALUE a => Some a
  end.

(** [x = y] in SQL: unknown as soon as one side is NULL. *)
Definition sql_eq {A : Type} (eqb : A -> A -> bool) (x y : option A) : option bool :=
  match x, y with
  | Some a, Some b => Some (eqb a b)
  | _, _ => None
  end.

Definition sql_and (x y : option bool) : option bool :=
  match x, y with
  | Some false, _ | _, Some false => Some false
  | Some true, Some true => Some true
  | _, _ => None
  end.

(** WHERE, USING and WITH CHECK keep a row only when the condition is true. *)
Definition is_true (x : option bool) : bool :=
  match x with Some true => true | _ => false end.

(** ** Errors *)

Inductive sqlstate : Type :=
| not_null_violation (column : string)
| unique_violation (constraint : string)
| foreign_key_violation (constraint : string)
| numeric_value_out_of_range
| character_not_in_repertoire
| insufficient_privilege (table : string).

Inductive outcome (A : Type) : Type :=
| Ok (a : A)
| Error (e : sqlstate).
Arguments Ok {A} a.
Arguments Error {A} e.

Definition bind {A B : Type} (x : outcome A) (k : A -> outcome B) : outcome B :=
  match x with
  | Ok a => k a
  | Error e => Error e
  end.

Notation "x <- c ;; k" := (bind c (fun x => k))
  (at level 61, c at next level, right associativity).

Definition not_null {A : Type} (column : string) (x : option A) : outcome A :=
  match x with
  | Some a => Ok a
  | None => Error (not_null_violation column)
  end.

Definition check (ok : bool) (e : sqlstate) : outcome unit :=
  if ok then Ok tt else Error e.

(** ** What the column types hold *)

Definition high_surrogate (c : N) : bool := N.leb 55296 c && N.leb c 56319.
Definition low_surrogate (c : N) : bool := N.leb 56320 c && N.leb c 57343.

(** TEXT holds the characters of the server encoding, UTF-8, except
    U+0000.  A JavaScript string is such a value when it is well-formed
    UTF-16: code units below 2^16, every high surrogate followed by a low
    one, no low surrogate on its own, and no unit 0. *)
Fixpoint storable (s : text) : bool :=
  match s with
  | [] => true
  | c :: s' =>
      if high_surrogate c
      then match s' with
           | d :: s'' => low_surrogate d && storable s''
           | [] => false
           end
      else negb (N.eqb c 0) && negb (low_surrogate c) && N.leb c 65535
           && storable s'
  end.

(** INTEGER is a signed 32-bit type; a value or a result outside it
    raises. *)
Definition int4_min : Z := -2147483648.
Definition int4_max : Z := 2147483647.

(** Reading the values a statement carries, which happens before the
    statement runs: what is no text is refused with 22021, what is no
    INTEGER with 22003. *)
Definition text_in (s : text) : outcome unit :=
  check (storable s) character_not_in_repertoire.

Definition text_cell_in (c : cell text) : outcome unit :=
  match c with
  | VALUE s => text_in s
  | _ => Ok tt
  end.

Definition text_array_cell_in (c : cell (list text)) : outcome unit :=
  match c with
  | VALUE l => check (forallb storable l) character_not_in_repertoire
  | _ => Ok tt
  end.

Definition int4_cell_in (c : cell Z) : outcome unit :=
  match c with
  | VALUE z => check (Z.leb int4_min z && Z.leb z int4_max)
                     numeric_value_out_of_range
  | _ => Ok tt
  end.

(** A parameter that may be NULL. *)
Definition text_parameter_in (o : option text) : outcome unit :=
  match o with
  | Some s => text_in s
  | None => Ok tt
  end.

(** ** Rows *)

(** Columns declared NOT NULL (or PRIMARY KEY) hold a value; the others
    hold an option. *)
Record opportunity : Type := mkOpportunity {
  o_id : text;
  o_user_id : uuid;
  o_name : text;
  o_client_name : text;
  o_description : option text;
  o_current_phase : text;
  o_status : text;
  o_created_at : option timestamptz;
  o_context_summary : option text;
  o_stakeholders : option (list text);
  o_key_insights : option (list text)
}.

Record phase_progress_row : Type := mkPhaseProgress {
  pp_id : Z;
  pp_opportunity_id : option text;
  pp_phase : text;
  pp_status : text;
  pp_start_date : option timestamptz;
  pp_end_date : option timestamptz;
  pp_key_activities : option (list text);
  pp_artifacts_count : option Z;
  pp_completion_percentage : option Z
}.

Record artifact : Type := mkArtifact {
  a_id : text;
  a_opportunity_id : option text;
  a_title : text;
  a_content : text;
  a_artifact_type : text;
  a_phase : text;
  a_created_by : option text;
  a_created_at : option timestamptz;
  a_tags : option (list text)
}.

Record active_opportunity_row : Type := mkActive {
  ao_id : Z;
  ao_user_id : uuid;
  ao_opportunity_id : option text;
  ao_updated_at : option timestamptz
}.

(** The tables the engagement model lives in, the users of [auth.users]
    they reference, and the two SERIAL sequences.  The tasks and chat
    tables hold no engagement data and are left out. *)
Record database : Type := mkDatabase {
  auth_users : list uuid;
  opportunities : list opportunity;
  phase_progress : list phase_progress_row;
  phase_progress_id_seq : Z;
  artifacts : list artifact;
  active_opportunity : list active_opportunity_row;
  active_opportunity_id_seq : Z
}.

Definition empty_database : database :=
  {| auth_users := []; opportunities := []; phase_progress := [];
     phase_progress_id_seq := 1; artifacts := []; active_opportunity := [];
     active_opportunity_id_seq := 1 |}.

Definition with_opportunities (db : database) (l : list opportunity) : database :=
  {| auth_users := auth_users db; opportunities := l;
     phase_progress := phase_progress db;
     phase_progress_id_seq := phase_progress_id_seq db;
     artifacts := artifacts db; active_opportunity := active_opportunity db;
     active_opportunity_id_seq := active_opportunity_id_seq db |}.

Definition with_phase_progress (db : database) (l : list phase_progress_row)
  (seq : Z) : database :=
  {| auth_users := auth_users db; opportunities := opportunities db;
     phase_progress := l; phase_progress_id_seq := seq;
     artifacts := artifacts db; active_opportunity := active_opportunity db;
     active_opportunity_id_seq := active_opportunity_id_seq db |}.

Definition with_artifacts (db : database) (l : list artifact) : database :=
  {| auth_users := auth_users db; opportunities := opportunities db;
     phase_progress := phase_progress db;
     phase_progress_id_seq := phase_progress_id_seq db;
     artifacts := l; active_opportunity := active_opportunity db;
     active_opportunity_id_seq := active_opportunity_id_seq db |}.

Definition with_active_opportunity (db : database)
  (l : list active_opportunity_row) (seq : Z) : database :=
  {| auth_users := auth_users db; opportunities := opportunities db;
     phase_progress := phase_progress db;
     phase_progress_id_seq := phase_progress_id_seq db;
     artifacts := artifacts db; active_opportunity := l;
     active_opportunity_id_seq := seq |}.

(** ** Roles and row-level security *)

(** Who runs a statement: the service role, which bypasses row-level
    security, or an API role (anon or authenticated) for which
    [auth.uid()] is NULL or the user of the token. *)
Inductive role : Type :=
| service_role
| api_role (auth_uid : option uuid).

(** [auth.uid() = user_id] *)
Definition uid_is (auth_uid : option uuid) (user_id : uuid) : bool :=
  is_true (sql_eq N.eqb auth_uid (Some user_id)).

(** [EXISTS (SELECT 1 FROM opportunities
             WHERE opportunities.id = ref AND opportunities.user_id = auth.uid())] *)
Definition owns_opportunity (auth_uid : option uuid) (db : database)
  (ref : option text) : bool :=
  existsb (fun o => is_true (sql_and (sql_eq text_eqb (Some (o_id o)) ref)
                                     (sql_eq N.eqb (Some (o_user_id o)) auth_uid)))
          (opportunities db).

(** The policies of one table share one expression: the SELECT, UPDATE and
    DELETE policies have it as USING, the INSERT policy as WITH CHECK, and a
    FOR ALL policy uses its USING expression for both. *)
Definition policy_opportunities (who : role) (r : opportunity) : bool :=
  match who with
  | service_role => true
  | api_role uid => uid_is uid (o_user_id r)
  end.

Definition policy_artifacts (who : role) (db : database) (r : artifact) : bool :=
  match who with
  | service_role => true
  | api_role uid => owns_opportunity uid db (a_opportunity_id r)
  end.

Definition policy_phase_progress (who : role) (db : database)
  (r : phase_progress_row) : bool :=
  match who with
  | service_role => true
  | api_role uid => owns_opportunity uid db (pp_opportunity_id r)
  end.

Definition policy_active_opportunity (who : role) (r : active_opportunity_row) : bool :=
  match who with
  | service_role => true
  | api_role uid => uid_is uid (ao_user_id r)
  end.

(** ** SELECT *)

Definition select_opportunities (who : role) (db : database) : list opportunity :=
  filter (policy_opportunities who) (opportunities db).

Definition select_artifacts (who : role) (db : database) : list artifact :=
  filter (policy_artifacts who db) (artifacts db).

Definition select_phase_progress (who : role) (db : database)
  : list phase_progress_row :=
  filter (policy_phase_progress who db) (phase_progress db).

Definition select_active_opportunity (who : role) (db : database)
  : list active_opportunity_row :=
  filter (policy_active_opportunity who) (active_opportunity db).

(** [SELECT * FROM artifacts WHERE id = $1] *)
Definition select_artifact_by_id (who : role) (id : text) (db : database)
  : option artifact :=
  find (fun r => text_eqb (a_id r) id) (select_artifacts who db).

(** ** opportunities *)

Definition pre_assessment : text := js "pre_assessment".
Definition active : text := js "active".
Definition not_started : text := js "not_started".
Definition in_progress : text := js "in_progress".
Definition completed : text := js "completed".

Record opportunities_values : Type := mkOpportunitiesValues {
  ov_id : cell text;
  ov_user_id : cell uuid;
  ov_name : cell text;
  ov_client_name : cell text;
  ov_description : cell text;
  ov_current_phase : cell text;
  ov_status : cell text;
  ov_created_at : cell timestamptz;
  ov_context_summary : cell text;
  ov_stakeholders : cell (list text);
  ov_key_insights : cell (list text)
}.

(** The row an INSERT builds: column defaults, then the NOT NULL
    constraints in column order.  Every column of the table is listed in
    [opportunities_values]; the ones declared NOT NULL are the ones read
    through [not_null]. *)
Definition opportunities_row (now : timestamptz) (v : opportunities_values)
  : outcome opportunity :=
  id <- not_null "id" (resolve None (ov_id v)) ;;
  user_id <- not_null "user_id" (resolve None (ov_user_id v)) ;;
  name <- not_null "name" (resolve None (ov_name v)) ;;
  client_name <- not_null "client_name" (resolve None (ov_client_name v)) ;;
  current_phase <- not_null "current_phase"
                     (resolve (Some pre_assessment) (ov_current_phase v)) ;;
  status <- not_null "status" (resolve (Some active) (ov_status v)) ;;
  Ok {| o_id := id;
        o_user_id := user_id;
        o_name := name;
        o_client_name := client_name;
        o_description := resolve None (ov_description v);
        o_current_phase := current_phase;
        o_status := status;
        o_created_at := resolve (Some now) (ov_created_at v);
        o_context_summary := resolve (Some []) (ov_context_summary v);
        o_stakeholders := resolve (Some []) (ov_stakeholders v);
        o_key_insights := resolve (Some []) (ov_key_insights v) |}.

Definition has_opportunity (id : text) (db : database) : bool :=
  existsb (fun r => text_eqb (o_id r) id) (opportunities db).

(** The values of the statement, read in column order. *)
Definition opportunities_input (v : opportunities_values) : outcome unit :=
  _ <- text_cell_in (ov_id v) ;;
  _ <- text_cell_in (ov_name v) ;;
  _ <- text_cell_in (ov_client_name v) ;;
  _ <- text_cell_in (ov_description v) ;;
  _ <- text_cell_in (ov_current_phase v) ;;
  _ <- text_cell_in (ov_status v) ;;
  _ <- text_cell_in (ov_context_summary v) ;;
  _ <- text_array_cell_in (ov_stakeholders v) ;;
  text_array_cell_in (ov_key_insights v).

(** WITH CHECK [(auth.uid() = user_id)] on the row as the statement
    proposes it, where [user_id] may still be NULL. *)
Definition with_check_opportunities (who : role) (user_id : option uuid) : bool :=
  match who with
  | service_role => true
  | api_role uid => is_true (sql_eq N.eqb uid user_id)
  end.

(** [INSERT INTO opportunities], in the order PostgreSQL checks: the values
    are read, the policy's WITH CHECK is evaluated on the proposed row, then
    come the NOT NULL constraints, the primary key and the reference to
    [auth.users]. *)
Definition insert_opportunities (who : role) (now : timestamptz)
  (v : opportunities_values) (db : database) : outcome database :=
  _ <- opportunities_input v ;;
  _ <- check (with_check_opportunities who (resolve None (ov_user_id v)))
             (insufficient_privilege "opportunities") ;;
  r <- opportunities_row now v ;;
  _ <- check (negb (has_opportunity (o_id r) db))
             (unique_violation "opportunities_pkey") ;;
  _ <- check (existsb (N.eqb (o_user_id r)) (auth_users db))
             (foreign_key_violation "opportunities_user_id_fkey") ;;
  Ok (with_opportunities db (opportunities db ++ [r])).

Definition set_current_phase (phase : text) (r : opportunity) : opportunity :=
  {| o_id := o_id r; o_user_id := o_user_id r; o_name := o_name r;
     o_client_name := o_client_name r; o_description := o_description r;
     o_current_phase := phase; o_status := o_status r;
     o_created_at := o_created_at r; o_context_summary := o_context_summary r;
     o_stakeholders := o_stakeholders r; o_key_insights := o_key_insights r |}.

(** [UPDATE opportunities SET current_phase = $2 WHERE id = $1], for
    parameters that have been read (see [execute]).  The column has no CHECK
    constraint; the new row keeps [user_id], so it passes the policy its old
    version passed. *)
Definition update_opportunities_phase (who : role) (id : text) (phase : text)
  (db : database) : database :=
  with_opportunities db
    (map (fun r => if policy_opportunities who r && text_eqb (o_id r) id
                   then set_current_phase phase r else r)
         (opportunities db)).

(** A nullable reference points into a list of deleted keys. *)
Definition references (gone : list text) (ref : option text) : bool :=
  match ref with
  | Some i => existsb (text_eqb i) gone
  | None => false
  end.

Definition clear_opportunity_id (r : active_opportunity_row) : active_opportunity_row :=
  {| ao_id := ao_id r; ao_user_id := ao_user_id r; ao_opportunity_id := None;
     ao_updated_at := ao_updated_at r |}.

(** [DELETE FROM opportunities WHERE id = $1], with the referential actions
    of the three tables that reference it: ON DELETE CASCADE for
    [phase_progress] and [artifacts], ON DELETE SET NULL for
    [active_opportunity].  Referential actions are not subject to the
    policies. *)
Definition delete_opportunities (who : role) (id : text) (db : database) : database :=
  let hit r := policy_opportunities who r && text_eqb (o_id r) id in
  let gone := map o_id (filter hit (opportunities db)) in
  {| auth_users := auth_users db;
     opportunities := filter (fun r => negb (hit r)) (opportunities db);
     phase_progress :=
       filter (fun r => negb (references gone (pp_opportunity_id r)))
              (phase_progress db);
     phase_progress_id_seq := phase_progress_id_seq db;
     artifacts :=
       filter (fun r => negb (references gone (a_opportunity_id r)))
              (artifacts db);
     active_opportunity :=
       map (fun r => if references gone (ao_opportunity_id r)
                     then clear_opportunity_id r else r)
           (active_opportunity db);
     active_opportunity_id_seq := active_opportunity_id_seq db |}.

(** A foreign key to [opportunities(id)]: NULL references nothing. *)
Definition opportunity_fkey (ref : option text) (db : database) : bool :=
  match ref with
  | Some i => has_opportunity i db
  | None => true
  end.

(** ** phase_progress *)

Record phase_progress_values : Type := mkPhaseProgressValues {
  ppv_id : cell Z;
  ppv_opportunity_id : cell text;
  ppv_phase : cell text;
  ppv_status : cell text;
  ppv_start_date : cell timestamptz;
  ppv_end_date : cell timestamptz;
  ppv_key_activities : cell (list text);
  ppv_artifacts_count : cell Z;
  ppv_completion_percentage : cell Z
}.

(** A SERIAL column: its default draws the next value of the sequence.
    The sequence is a counter without an end here; the one PostgreSQL
    creates for the column stops at 2^31 - 1. *)
Definition serial (seq : Z) (c : cell Z) : option Z * Z :=
  match c with
  | DEFAULT => (Some seq, (seq + 1)%Z)
  | NULL => (None, seq)
  | VALUE z => (Some z, seq)
  end.

Definition phase_progress_row_of (seq : Z) (v : phase_progress_values)
  : outcome phase_progress_row :=
  id <- not_null "id" (fst (serial seq (ppv_id v))) ;;
  phase <- not_null "phase" (resolve None (ppv_phase v)) ;;
  status <- not_null "status" (resolve (Some not_started) (ppv_status v)) ;;
  Ok {| pp_id := id;
        pp_opportunity_id := resolve None (ppv_opportunity_id v);
        pp_phase := phase;
        pp_status := status;
        pp_start_date := resolve None (ppv_start_date v);
        pp_end_date := resolve None (ppv_end_date v);
        pp_key_activities := resolve (Some []) (ppv_key_activities v);
        pp_artifacts_count := resolve (Some 0%Z) (ppv_artifacts_count v);
        pp_completion_percentage := resolve (Some 0%Z) (ppv_completion_percentage v) |}.

(** [opportunity_id = $1 AND phase = $2] *)
Definition phase_progress_key (opp_id phase_name : option text)
  (r : phase_progress_row) : bool :=
  is_true (sql_and (sql_eq text_eqb (pp_opportunity_id r) opp_id)
                   (sql_eq text_eqb (Some (pp_phase r)) phase_name)).

Definition phase_progress_input (v : phase_progress_values) : outcome unit :=
  _ <- int4_cell_in (ppv_id v) ;;
  _ <- text_cell_in (ppv_opportunity_id v) ;;
  _ <- text_cell_in (ppv_phase v) ;;
  _ <- text_cell_in (ppv_status v) ;;
  _ <- text_array_cell_in (ppv_key_activities v) ;;
  _ <- int4_cell_in (ppv_artifacts_count v) ;;
  int4_cell_in (ppv_completion_percentage v).

(** WITH CHECK on the proposed row: the policy reads [opportunity_id]
    only. *)
Definition with_check_phase_progress (who : role) (db : database)
  (opportunity_id : option text) : bool :=
  match who with
  | service_role => true
  | api_role uid => owns_opportunity uid db opportunity_id
  end.

(** [INSERT INTO phase_progress]: the values are read, the defaults are
    computed (which draws from the sequence), then WITH CHECK, the NOT NULL
    constraints, the primary key, UNIQUE(opportunity_id, phase) (which NULL
    never violates) and the reference to the opportunity.  The result is the
    database of an accepted statement; what a refused one leaves behind is
    [refused]. *)
Definition insert_phase_progress (who : role) (v : phase_progress_values)
  (db : database) : outcome database :=
  _ <- phase_progress_input v ;;
  _ <- check (with_check_phase_progress who db (resolve None (ppv_opportunity_id v)))
             (insufficient_privilege "phase_progress") ;;
  r <- phase_progress_row_of (phase_progress_id_seq db) v ;;
  _ <- check (negb (existsb (fun x => Z.eqb (pp_id x) (pp_id r)) (phase_progress db)))
             (unique_violation "phase_progress_pkey") ;;
  _ <- check (negb (existsb (phase_progress_key (pp_opportunity_id r)
                                                (Some (pp_phase r)))
                            (phase_progress db)))
             (unique_violation "phase_progress_opportunity_id_phase_key") ;;
  _ <- check (opportunity_fkey (pp_opportunity_id r) db)
             (foreign_key_violation "phase_progress_opportunity_id_fkey") ;;
  Ok (with_phase_progress db (phase_progress db ++ [r])
        (snd (serial (phase_progress_id_seq db) (ppv_id v)))).

Definition set_progress (status : text) (start_date : option (option timestamptz))
  (r : phase_progress_row) : phase_progress_row :=
  {| pp_id := pp_id r; pp_opportunity_id := pp_opportunity_id r;
     pp_phase := pp_phase r; pp_status := status;
     pp_start_date := match start_date with
                      | Some d => d
                      | None => pp_start_date r
                      end;
     pp_end_date := pp_end_date r;
     pp_key_activities := pp_key_activities r;
     pp_artifacts_count := pp_artifacts_count r;
     pp_completion_percentage := pp_completion_percentage r |}.

(** [UPDATE phase_progress SET status = $4 (, start_date = $5)
     WHERE opportunity_id = $1 AND phase = $2 AND status = $3];
    [start_date] is [None] when the statement does not assign it. *)
Definition update_phase_progress (who : role) (opp_id phase_name was : text)
  (status : text) (start_date : option (option timestamptz)) (db : database)
  : database :=
  with_phase_progress db
    (map (fun r => if policy_phase_progress who db r
                      && phase_progress_key (Some opp_id) (Some phase_name) r
                      && text_eqb (pp_status r) was
                   then set_progress status start_date r else r)
         (phase_progress db))
    (phase_progress_id_seq db).

Definition set_artifacts_count (n : option Z) (r : phase_progress_row)
  : phase_progress_row :=
  {| pp_id := pp_id r; pp_opportunity_id := pp_opportunity_id r;
     pp_phase := pp_phase r; pp_status := pp_status r;
     pp_start_date := pp_start_date r; pp_end_date := pp_end_date r;
     pp_key_activities := pp_key_activities r;
     pp_artifacts_count := n;
     pp_completion_percentage := pp_completion_percentage r |}.

(** [artifacts_count + 1]: NULL stays NULL. *)
Definition plus_one (n : option Z) : option Z :=
  match n with
  | Some z => Some (z + 1)%Z
  | None => None
  end.

Definition overflows (n : option Z) : bool :=
  match n with
  | Some z => Z.ltb int4_max (z + 1)
  | None => false
  end.

(** [increment_artifacts_count(opp_id, phase_name)]: one UPDATE of
    [phase_progress]; the function runs with the caller's rights. *)
Definition increment_artifacts_count (who : role) (opp_id phase_name : option text)
  (db : database) : outcome database :=
  let hit r := policy_phase_progress who db r
               && phase_progress_key opp_id phase_name r in
  _ <- check (negb (existsb (fun r => hit r && overflows (pp_artifacts_count r))
                            (phase_progress db)))
             numeric_value_out_of_range ;;
  Ok (with_phase_progress db
        (map (fun r => if hit r
                       then set_artifacts_count (plus_one (pp_artifacts_count r)) r
                       else r)
             (phase_progress db))
        (phase_progress_id_seq db)).

(** The function called [k] times in a row. *)
Fixpoint increments (k : nat) (who : role) (opp_id phase_name : option text)
  (db : database) : outcome database :=
  match k with
  | O => Ok db
  | S k' =>
      db' <- increment_artifacts_count who opp_id phase_name db ;;
      increments k' who opp_id phase_name db'
  end.

(** [artifacts_count + k]: NULL stays NULL. *)
Definition plus (k : Z) (n : option Z) : option Z :=
  match n with
  | Some z => Some (z + k)%Z
  | None => None
  end.

(** ** artifacts *)

Record artifacts_values : Type := mkArtifactsValues {
  av_id : cell text;
  av_opportunity_id : cell text;
  av_title : cell text;
  av_content : cell text;
  av_artifact_type : cell text;
  av_phase : cell text;
  av_created_by : cell text;
  av_created_at : cell timestamptz;
  av_tags : cell (list text)
}.

Definition artifacts_row (now : timestamptz) (v : artifacts_values)
  : outcome artifact :=
  id <- not_null "id" (resolve None (av_id v)) ;;
  title <- not_null "title" (resolve None (av_title v)) ;;
  content <- not_null "content" (resolve None (av_content v)) ;;
  artifact_type <- not_null "artifact_type" (resolve None (av_artifact_type v)) ;;
  phase <- not_null "phase" (resolve None (av_phase v)) ;;
  Ok {| a_id := id;
        a_opportunity_id := resolve None (av_opportunity_id v);
        a_title := title;
        a_content := content;
        a_artifact_type := artifact_type;
        a_phase := phase;
        a_created_by := resolve None (av_created_by v);
        a_created_at := resolve (Some now) (av_created_at v);
        a_tags := resolve (Some []) (av_tags v) |}.

Definition has_artifact (id : text) (db : database) : bool :=
  existsb (fun r => text_eqb (a_id r) id) (artifacts db).

Definition artifacts_input (v : artifacts_values) : outcome unit :=
  _ <- text_cell_in (av_id v) ;;
  _ <- text_cell_in (av_opportunity_id v) ;;
  _ <- text_cell_in (av_title v) ;;
  _ <- text_cell_in (av_content v) ;;
  _ <- text_cell_in (av_artifact_type v) ;;
  _ <- text_cell_in (av_phase v) ;;
  _ <- text_cell_in (av_created_by v) ;;
  text_array_cell_in (av_tags v).

Definition with_check_artifacts (who : role) (db : database)
  (opportunity_id : option text) : bool :=
  match who with
  | service_role => true
  | api_role uid => owns_opportunity uid db opportunity_id
  end.

(** [INSERT INTO artifacts]: the values are read, then WITH CHECK, the NOT
    NULL constraints, the primary key and the reference to the
    opportunity. *)
Definition insert_artifacts (who : role) (now : timestamptz)
  (v : artifacts_values) (db : database) : outcome database :=
  _ <- artifacts_input v ;;
  _ <- check (with_check_artifacts who db (resolve None (av_opportunity_id v)))
             (insufficient_privilege "artifacts") ;;
  r <- artifacts_row now v ;;
  _ <- check (negb (has_artifact (a_id r) db)) (unique_violation "artifacts_pkey") ;;
  _ <- check (opportunity_fkey (a_opportunity_id r) db)
             (foreign_key_violation "artifacts_opportunity_id_fkey") ;;
  Ok (with_artifacts db (artifacts db ++ [r])).

(** [DELETE FROM artifacts WHERE id = $1] *)
Definition delete_artifacts (who : role) (id : text) (db : database) : database :=
  with_artifacts db
    (filter (fun r => negb (policy_artifacts who db r && text_eqb (a_id r) id))
            (artifacts db)).

(** ** active_opportunity *)

Record active_opportunity_values : Type := mkActiveValues {
  aov_id : cell Z;
  aov_user_id : cell uuid;
  aov_opportunity_id : cell text;
  aov_updated_at : cell timestamptz
}.

Definition active_opportunity_row_of (seq : Z) (now : timestamptz)
  (v : active_opportunity_values) : outcome active_opportunity_row :=
  id <- not_null "id" (fst (serial seq (aov_id v))) ;;
  user_id <- not_null "user_id" (resolve None (aov_user_id v)) ;;
  Ok {| ao_id := id;
        ao_user_id := user_id;
        ao_opportunity_id := resolve None (aov_opportunity_id v);
        ao_updated_at := resolve (Some now) (aov_updated_at v) |}.

Definition has_pointer (user_id : uuid) (db : database) : bool :=
  existsb (fun r => N.eqb (ao_user_id r) user_id) (active_opportunity db).

Definition active_opportunity_input (v : active_opportunity_values)
  : outcome unit :=
  _ <- int4_cell_in (aov_id v) ;;
  text_cell_in (aov_opportunity_id v).

Definition with_check_active_opportunity (who : role) (user_id : option uuid)
  : bool :=
  match who with
  | service_role => true
  | api_role uid => is_true (sql_eq N.eqb uid user_id)
  end.

(** [INSERT INTO active_opportunity]: the values are read, the defaults are
    computed (which draws from the sequence), then WITH CHECK, the NOT NULL
    constraints, the primary key, UNIQUE(user_id) and the two references.
    What a refused statement leaves behind is [refused]. *)
Definition insert_active_opportunity (who : role) (now : timestamptz)
  (v : active_opportunity_values) (db : database) : outcome database :=
  _ <- active_opportunity_input v ;;
  _ <- check (with_check_active_opportunity who (resolve None (aov_user_id v)))
             (insufficient_privilege "active_opportunity") ;;
  r <- active_opportunity_row_of (active_opportunity_id_seq db) now v ;;
  _ <- check (negb (existsb (fun x => Z.eqb (ao_id x) (ao_id r)) (active_opportunity db)))
             (unique_violation "active_opportunity_pkey") ;;
  _ <- check (negb (has_pointer (ao_user_id r) db))
             (unique_violation "active_opportunity_user_id_key") ;;
  _ <- check (existsb (N.eqb (ao_user_id r)) (auth_users db))
             (foreign_key_violation "active_opportunity_user_id_fkey") ;;
  _ <- check (opportunity_fkey (ao_opportunity_id r) db)
             (foreign_key_violation "active_opportunity_opportunity_id_fkey") ;;
  Ok (with_active_opportunity db (active_opportunity db ++ [r])
        (snd (serial (active_opportunity_id_seq db) (aov_id v)))).

Definition set_pointer (opp_id : option text) (now : timestamptz)
  (r : active_opportunity_row) : active_opportunity_row :=
  {| ao_id := ao_id r; ao_user_id := ao_user_id r; ao_opportunity_id := opp_id;
     ao_updated_at := Some now |}.

(** [UPDATE active_opportunity SET opportunity_id = $2, updated_at = NOW()
     WHERE user_id = $1]: the reference is checked for the rows it changes. *)
Definition update_active_opportunity (who : role) (now : timestamptz)
  (user_id : uuid) (opp_id : option text) (db : database) : outcome database :=
  let hit r := policy_active_opportunity who r && N.eqb (ao_user_id r) user_id in
  _ <- check (negb (existsb hit (active_opportunity db))
              || opportunity_fkey opp_id db)
             (foreign_key_violation "active_opportunity_opportunity_id_fkey") ;;
  Ok (with_active_opportunity db
        (map (fun r => if hit r then set_pointer opp_id now r else r)
             (active_opportunity db))
        (active_opportunity_id_seq db)).

(** [DELETE FROM active_opportunity WHERE user_id = $1] *)
Definition delete_active_opportunity (who : role) (user_id : uuid)
  (db : database) : database :=
  with_active_opportunity db
    (filter (fun r => negb (policy_active_opportunity who r
                            && N.eqb (ao_user_id r) user_id))
            (active_opportunity db))
    (active_opportunity_id_seq db).

(** [SELECT opportunity_id FROM active_opportunity WHERE user_id = $1]:
    the pointer of a user; no row and a NULL pointer both read as none. *)
Definition active_pointer (who : role) (user_id : uuid) (db : database)
  : option text :=
  match find (fun r => N.eqb (ao_user_id r) user_id)
             (select_active_opportunity who db) with
  | Some r => ao_opportunity_id r
  | None => None
  end.

(** ** What the API roles can send *)

Inductive query : Type :=
| SELECT_opportunities
| SELECT_phase_progress
| SELECT_artifacts
| SELECT_active_opportunity.

Inductive answer : Type :=
| rows_opportunities (l : list opportunity)
| rows_phase_progress (l : list phase_progress_row)
| rows_artifacts (l : list artifact)
| rows_active_opportunity (l : list active_opportunity_row).

Definition run_query (who : role) (q : query) (db : database) : answer :=
  match q with
  | SELECT_opportunities => rows_opportunities (select_opportunities who db)
  | SELECT_phase_progress => rows_phase_progress (select_phase_progress who db)
  | SELECT_artifacts => rows_artifacts (select_artifacts who db)
  | SELECT_active_opportunity =>
      rows_active_opportunity (select_active_opportunity who db)
  end.

Inductive statement : Type :=
| INSERT_opportunities (v : opportunities_values)
| UPDATE_opportunities_phase (id phase : text)
| DELETE_opportunities (id : text)
| INSERT_phase_progress (v : phase_progress_values)
| UPDATE_phase_progress (opp_id phase_name was status : text)
                        (start_date : option (option timestamptz))
| CALL_increment_artifacts_count (opp_id phase_name : option text)
| INSERT_artifacts (v : artifacts_values)
| DELETE_artifacts (id : text)
| INSERT_active_opportunity (v : active_opportunity_values)
| UPDATE_active_opportunity (user_id : uuid) (opp_id : option text)
| DELETE_active_opportunity (user_id : uuid).

(** The values and parameters of a statement, read before it runs. *)
Definition input (s : statement) : outcome unit :=
  match s with
  | INSERT_opportunities v => opportunities_input v
  | UPDATE_opportunities_phase id phase => _ <- text_in id ;; text_in phase
  | DELETE_opportunities id => text_in id
  | INSERT_phase_progress v => phase_progress_input v
  | UPDATE_phase_progress o p was st _ =>
      _ <- text_in o ;; _ <- text_in p ;; _ <- text_in was ;; text_in st
  | CALL_increment_artifacts_count o p =>
      _ <- text_parameter_in o ;; text_parameter_in p
  | INSERT_artifacts v => artifacts_input v
  | DELETE_artifacts id => text_in id
  | INSERT_active_opportunity v => active_opportunity_input v
  | UPDATE_active_opportunity _ o => text_parameter_in o
  | DELETE_active_opportunity _ => Ok tt
  end.

(** A statement, accepted with the database it produces, or refused.  The
    INSERT functions read their values themselves; the functions of the
    other statements take parameters that have been read, which is done
    here. *)
Definition execute (who : role) (now : timestamptz) (s : statement)
  (db : database) : outcome database :=
  match s with
  | INSERT_opportunities v => insert_opportunities who now v db
  | UPDATE_opportunities_phase id phase =>
      _ <- input s ;; Ok (update_opportunities_phase who id phase db)
  | DELETE_opportunities id =>
      _ <- input s ;; Ok (delete_opportunities who id db)
  | INSERT_phase_progress v => insert_phase_progress who v db
  | UPDATE_phase_progress o p was st sd =>
      _ <- input s ;; Ok (update_phase_progress who o p was st sd db)
  | CALL_increment_artifacts_count o p =>
      _ <- input s ;; increment_artifacts_count who o p db
  | INSERT_artifacts v => insert_artifacts who now v db
  | DELETE_artifacts id => _ <- input s ;; Ok (delete_artifacts who id db)
  | INSERT_active_opportunity v => insert_active_opportunity who now v db
  | UPDATE_active_opportunity u o =>
      _ <- input s ;; update_active_opportunity who now u o db
  | DELETE_active_opportunity u => Ok (delete_active_opportunity who u db)
  end.

(** What a refused statement leaves behind.  The statement is rolled back,
    a value drawn from a sequence is not given back: once the values of an
    INSERT have been read, the default of a SERIAL column that the statement
    does not set has been computed, whatever refuses the row afterwards. *)
Definition refused (s : statement) (db : database) : database :=
  match input s, s with
  | Ok _, INSERT_phase_progress v =>
      with_phase_progress db (phase_progress db)
        (snd (serial (phase_progress_id_seq db) (ppv_id v)))
  | Ok _, INSERT_active_opportunity v =>
      with_active_opportunity db (active_opportunity db)
        (snd (serial (active_opportunity_id_seq db) (aov_id v)))
  | _, _ => db
  end.

(** A statement sent to the database: the database afterwards and the
    error, if it was refused. *)
Definition perform (who : role) (now : timestamptz) (s : statement)
  (db : database) : database * option sqlstate :=
  match execute who now s db with
  | Ok db' => (db', None)
  | Error e => (refused s db, Some e)
  end.

(** ** Integrity of a database *)

(** The integrity the service works under.  Keys are unique and references
    resolve, which the schema declares, and the keys of the two SERIAL
    columns lie below their sequences, which it does not: that is true of a
    database in which no INSERT has named such a key itself, as none of the
    service does.  What the schema declares on its own is
    [declared_constraints]. *)
Record constraints_hold (db : database) : Prop := mkConstraints {
  opportunities_pkey : NoDup (map o_id (opportunities db));
  artifacts_pkey : NoDup (map a_id (artifacts db));
  active_opportunity_user_id_key : NoDup (map ao_user_id (active_opportunity db));
  phase_progress_opportunity_id_fkey :
    forall r, In r (phase_progress db) ->
              opportunity_fkey (pp_opportunity_id r) db = true;
  artifacts_opportunity_id_fkey :
    forall r, In r (artifacts db) ->
              opportunity_fkey (a_opportunity_id r) db = true;
  opportunities_user_id_fkey :
    forall r, In r (opportunities db) ->
              existsb (N.eqb (o_user_id r)) (auth_users db) = true;
  phase_progress_pkey_below_seq :
    forall r, In r (phase_progress db) -> (pp_id r < phase_progress_id_seq db)%Z;
  active_opportunity_pkey_below_seq :
    forall r, In r (active_opportunity db) ->
              (ao_id r < active_opportunity_id_seq db)%Z
}.

(** UNIQUE(opportunity_id, phase): no two rows agree on both columns; a
    row whose [opportunity_id] is NULL agrees with none. *)
Fixpoint distinct_progress_keys (l : list phase_progress_row) : bool :=
  match l with
  | [] => true
  | r :: l' =>
      negb (existsb (phase_progress_key (pp_opportunity_id r) (Some (pp_phase r))) l')
      && distinct_progress_keys l'
  end.

(** Every PRIMARY KEY, UNIQUE and REFERENCES clause of the four tables. *)
Record declared_constraints (db : database) : Prop := mkDeclared {
  declared_opportunities_pkey : NoDup (map o_id (opportunities db));
  declared_opportunities_user_id_fkey :
    forall r, In r (opportunities db) ->
              existsb (N.eqb (o_user_id r)) (auth_users db) = true;
  declared_phase_progress_pkey : NoDup (map pp_id (phase_progress db));
  declared_phase_progress_opportunity_id_phase_key :
    distinct_progress_keys (phase_progress db) = true;
  declared_phase_progress_opportunity_id_fkey :
    forall r, In r (phase_progress db) ->
              opportunity_fkey (pp_opportunity_id r) db = true;
  declared_artifacts_pkey : NoDup (map a_id (artifacts db));
  declared_artifacts_opportunity_id_fkey :
    forall r, In r (artifacts db) ->
              opportunity_fkey (a_opportunity_id r) db = true;
  declared_active_opportunity_pkey : NoDup (map ao_id (active_opportunity db));
  declared_active_opportunity_user_id_key :
    NoDup (map ao_user_id (active_opportunity db));
  declared_active_opportunity_user_id_fkey :
    forall r, In r (active_opportunity db) ->
              existsb (N.eqb (ao_user_id r)) (auth_users db) = true;
  declared_active_opportunity_opportunity_id_fkey :
    forall r, In r (active_opportunity db) ->
              opportunity_fkey (ao_opportunity_id r) db = true
}.

(** The statements that add a row. *)
Definition is_insert (s : statement) : bool :=
  match s with
  | INSERT_opportunities _ | INSERT_phase_progress _ | INSERT_artifacts _
  | INSERT_active_opportunity _ => true
  | _ => false
  end.

(** The statement leaves the keys of the SERIAL columns to their
    sequences. *)
Definition keys_from_sequences (s : statement) : bool :=
  match s with
  | INSERT_phase_progress v =>
      match ppv_id v with DEFAULT => true | _ => false end
  | INSERT_active_opportunity v =>
      match aov_id v with DEFAULT => true | _ => false end
  | _ => true
  end.

(** What a query returned, as a number of rows. *)
Definition row_count (a : answer) : nat :=
  match a with
  | rows_opportunities l => List.length l
  | rows_phase_progress l => List.length l
  | rows_artifacts l => List.length l
  | rows_active_opportunity l => List.length l
  end.

(* ================================================================== *)
(** * The single-user schema *)
(* ================================================================== *)

(** The earlier script declares the same tables without [user_id] columns
    and without policies.  Its [active_opportunity] table is a table for all
    users, meant to hold one row, which the script inserts itself. *)
Module SingleUser.

Record active_opportunity_row : Type := mkActive {
  id : Z;
  opportunity_id : option text;
  updated_at : option timestamptz
}.

Record active_opportunity_table : Type := mkTable {
  rows : list active_opportunity_row;
  id_seq : Z
}.

Definition created_table : active_opportunity_table :=
  {| rows := []; id_seq := 1 |}.

(** [INSERT INTO active_opportunity (opportunity_id) VALUES (NULL)
     ON CONFLICT DO NOTHING]: the only unique index is the primary key,
    whose value the statement draws from the sequence. *)
Definition seed (now : timestamptz) (t : active_opportunity_table)
  : active_opportunity_table :=
  if existsb (fun r => Z.eqb (id r) (id_seq t)) (rows t)
  then {| rows := rows t; id_seq := id_seq t + 1 |}
  else {| rows := rows t
                  ++ [{| id := id_seq t; opportunity_id := None;
                         updated_at := Some now |}];
          id_seq := id_seq t + 1 |}.

(** The script run once for each of the times [nows], on a database where
    the table does not exist yet: CREATE TABLE IF NOT EXISTS creates it on
    the first run and does nothing afterwards, the INSERT runs every time. *)
Definition runs (nows : list timestamptz) : active_opportunity_table :=
  fold_left (fun t now => seed now t) nows created_table.

End SingleUser.

(* ================================================================== *)
(** * The scripts as scripts *)
(* ================================================================== *)

(** The schema scripts are sequences of statements, run in order against
    the catalog of a project; the first error stops the run.  The catalog
    records the tables with their columns, which is what the statements of
    the scripts look up. *)
Module Script.

(** A table or a query names tables and, in each, columns. *)
Definition names : Type := list (string * list string).

Inductive ddl : Type :=
| CREATE_EXTENSION_IF_NOT_EXISTS (name : string)
| CREATE_TABLE_IF_NOT_EXISTS (name : string) (columns : list string)
                             (foreign : names)
| INSERT_INTO (table : string) (columns : list string)
| CREATE_INDEX_IF_NOT_EXISTS (name table : string) (columns : list string)
| ENABLE_ROW_LEVEL_SECURITY (table : string)
| CREATE_POLICY (name table : string) (reads : names)
| CREATE_OR_REPLACE_FUNCTION (name : string)
| COMMENT_ON_TABLE (table : string).

Record catalog : Type := mkCatalog {
  extensions : list string;
  tables : names;
  indexes : list string;
  row_security : list string;
  policies : list (string * string);
  functions : list string;
  commented : list string
}.

Inductive ddl_error : Type :=
| undefined_table (name : string)
| undefined_column (name : string)
| duplicate_object (name : string).

Definition has (x : string) (l : list string) : bool :=
  existsb (String.eqb x) l.

Definition has_policy (name table : string) (l : list (string * string)) : bool :=
  existsb (fun p => String.eqb (fst p) name && String.eqb (snd p) table) l.

Definition add (x : string) (l : list string) : list string :=
  if has x l then l else l ++ [x].

(** The columns of a table of the catalog. *)
Definition columns_of (t : string) (c : catalog) : option (list string) :=
  option_map snd (find (fun x => String.eqb (fst x) t) (tables c)).

(** The first of the names that the catalog lacks: a table (42P01), or a
    column of a table it has (42703). *)
Fixpoint lacking (l : names) (c : catalog) : option ddl_error :=
  match l with
  | [] => None
  | (t, cols) :: rest =>
      match columns_of t c with
      | None => Some (undefined_table t)
      | Some have =>
          match find (fun x => negb (has x have)) cols with
          | Some x => Some (undefined_column x)
          | None => lacking rest c
          end
      end
  end.

(** One statement.  IF NOT EXISTS turns an existing table into a notice,
    whatever its columns are; an index is looked up by name only after its
    table and columns have been; a table or column that is named but
    missing is an error in every statement, and CREATE POLICY has no IF NOT
    EXISTS form.  An INSERT leaves the catalog as it is. *)
Definition run1 (s : ddl) (c : catalog) : catalog + ddl_error :=
  match s with
  | CREATE_EXTENSION_IF_NOT_EXISTS e =>
      inl {| extensions := add e (extensions c); tables := tables c;
             indexes := indexes c; row_security := row_security c;
             policies := policies c; functions := functions c;
             commented := commented c |}
  | CREATE_TABLE_IF_NOT_EXISTS t cols refs =>
      match columns_of t c with
      | Some _ => inl c
      | None =>
          match lacking refs c with
          | Some e => inr e
          | None =>
              inl {| extensions := extensions c;
                     tables := tables c ++ [(t, cols)];
                     indexes := indexes c; row_security := row_security c;
                     policies := policies c; functions := functions c;
                     commented := commented c |}
          end
      end
  | INSERT_INTO t cols =>
      match lacking [(t, cols)] c with
      | Some e => inr e
      | None => inl c
      end
  | CREATE_INDEX_IF_NOT_EXISTS i t cols =>
      match lacking [(t, cols)] c with
      | Some e => inr e
      | None =>
          inl {| extensions := extensions c; tables := tables c;
                 indexes := add i (indexes c); row_security := row_security c;
                 policies := policies c; functions := functions c;
                 commented := commented c |}
      end
  | ENABLE_ROW_LEVEL_SECURITY t =>
      match lacking [(t, [])] c with
      | Some e => inr e
      | None =>
          inl {| extensions := extensions c; tables := tables c;
                 indexes := indexes c; row_security := add t (row_security c);
                 policies := policies c; functions := functions c;
                 commented := commented c |}
      end
  | CREATE_POLICY p t reads =>
      match lacking ((t, []) :: reads) c with
      | Some e => inr e
      | None =>
          if has_policy p t (policies c) then inr (duplicate_object p)
          else inl {| extensions := extensions c; tables := tables c;
                      indexes := indexes c; row_security := row_security c;
                      policies := policies c ++ [(p, t)];
                      functions := functions c; commented := commented c |}
      end
  | CREATE_OR_REPLACE_FUNCTION f =>
      inl {| extensions := extensions c; tables := tables c;
             indexes := indexes c; row_security := row_security c;
             policies := policies c; functions := add f (functions c);
             commented := commented c |}
  | COMMENT_ON_TABLE t =>
      match lacking [(t, [])] c with
      | Some e => inr e
      | None =>
          inl {| extensions := extensions c; tables := tables c;
                 indexes := indexes c; row_security := row_security c;
                 policies := policies c; functions := functions c;
                 commented := add t (commented c) |}
      end
  end.

Fixpoint run (script : list ddl) (c : catalog) : catalog + ddl_error :=
  match script with
  | [] => inl c
  | s :: rest =>
      match run1 s c with
      | inl c' => run rest c'
      | inr e => inr e
      end
  end.

(** [auth.uid() = user_id] in a policy on table [t]. *)
Definition own (t : string) : names := [(t, ["user_id"%string])].

(** [EXISTS (SELECT 1 FROM p WHERE p.id = t.ref AND p.user_id = auth.uid())]
    in a policy on table [t]. *)
Definition via (p t ref : string) : names :=
  [(p, ["id"%string]); (t, [ref]); (p, ["user_id"%string])].

(** supabase_schema.sql (multi-user), statement by statement. *)
Definition multi_user : list ddl :=
  [ CREATE_EXTENSION_IF_NOT_EXISTS "uuid-ossp";
    CREATE_TABLE_IF_NOT_EXISTS "opportunities"
      ["id"; "user_id"; "name"; "client_name"; "description"; "current_phase";
       "status"; "created_at"; "context_summary"; "stakeholders"; "key_insights"]
      [("auth.users", ["id"])];
    CREATE_TABLE_IF_NOT_EXISTS "phase_progress"
      ["id"; "opportunity_id"; "phase"; "status"; "start_date"; "end_date";
       "key_activities"; "artifacts_count"; "completion_percentage"]
      [("opportunities", ["id"])];
    CREATE_TABLE_IF_NOT_EXISTS "artifacts"
      ["id"; "opportunity_id"; "title"; "content"; "artifact_type"; "phase";
       "created_by"; "created_at"; "tags"]
      [("opportunities", ["id"])];
    CREATE_TABLE_IF_NOT_EXISTS "tasks"
      ["id"; "user_id"; "title"; "description"; "phase"; "status"; "created_at"]
      [("auth.users", ["id"])];
    CREATE_TABLE_IF_NOT_EXISTS "active_opportunity"
      ["id"; "user_id"; "opportunity_id"; "updated_at"]
      [("auth.users", ["id"]); ("opportunities", ["id"])];
    CREATE_INDEX_IF_NOT_EXISTS "idx_opportunities_user" "opportunities" ["user_id"];
    CREATE_INDEX_IF_NOT_EXISTS "idx_artifacts_opportunity" "artifacts"
      ["opportunity_id"];
    CREATE_INDEX_IF_NOT_EXISTS "idx_artifacts_phase" "artifacts" ["phase"];
    CREATE_INDEX_IF_NOT_EXISTS "idx_opportunities_status" "opportunities" ["status"];
    CREATE_INDEX_IF_NOT_EXISTS "idx_opportunities_phase" "opportunities"
      ["current_phase"];
    CREATE_INDEX_IF_NOT_EXISTS "idx_tasks_user" "tasks" ["user_id"];
    CREATE_INDEX_IF_NOT_EXISTS "idx_tasks_phase" "tasks" ["phase"];
    CREATE_INDEX_IF_NOT_EXISTS "idx_tasks_status" "tasks" ["status"];
    CREATE_INDEX_IF_NOT_EXISTS "idx_phase_progress_opportunity" "phase_progress"
      ["opportunity_id"];
    CREATE_INDEX_IF_NOT_EXISTS "idx_active_opportunity_user" "active_opportunity"
      ["user_id"];
    CREATE_INDEX_IF_NOT_EXISTS "idx_chatkit_threads_user" "chatkit_threads"
      ["user_id"];
    ENABLE_ROW_LEVEL_SECURITY "opportunities";
    ENABLE_ROW_LEVEL_SECURITY "artifacts";
    ENABLE_ROW_LEVEL_SECURITY "tasks";
    ENABLE_ROW_LEVEL_SECURITY "active_opportunity";
    ENABLE_ROW_LEVEL_SECURITY "chatkit_threads";
    ENABLE_ROW_LEVEL_SECURITY "chatkit_thread_items";
    ENABLE_ROW_LEVEL_SECURITY "phase_progress";
    CREATE_POLICY "Users can view own opportunities" "opportunities"
      (own "opportunities");
    CREATE_POLICY "Users can create own opportunities" "opportunities"
      (own "opportunities");
    CREATE_POLICY "Users can update own opportunities" "opportunities"
      (own "opportunities");
    CREATE_POLICY "Users can delete own opportunities" "opportunities"
      (own "opportunities");
    CREATE_POLICY "Users can view artifacts of own opportunities" "artifacts"
      (via "opportunities" "artifacts" "opportunity_id");
    CREATE_POLICY "Users can create artifacts for own opportunities" "artifacts"
      (via "opportunities" "artifacts" "opportunity_id");
    CREATE_POLICY "Users can update artifacts of own opportunities" "artifacts"
      (via "opportunities" "artifacts" "opportunity_id");
    CREATE_POLICY "Users can delete artifacts of own opportunities" "artifacts"
      (via "opportunities" "artifacts" "opportunity_id");
    CREATE_POLICY "Users can view phase progress of own opportunities"
      "phase_progress" (via "opportunities" "phase_progress" "opportunity_id");
    CREATE_POLICY "Users can manage phase progress of own opportunities"
      "phase_progress" (via "opportunities" "phase_progress" "opportunity_id");
    CREATE_POLICY "Users can view own tasks" "tasks" (own "tasks");
    CREATE_POLICY "Users can create own tasks" "tasks" (own "tasks");
    CREATE_POLICY "Users can update own tasks" "tasks" (own "tasks");
    CREATE_POLICY "Users can delete own tasks" "tasks" (own "tasks");
    CREATE_POLICY "Users can view own active opportunity" "active_opportunity"
      (own "active_opportunity");
    CREATE_POLICY "Users can manage own active opportunity" "active_opportunity"
      (own "active_opportunity");
    CREATE_POLICY "Users can view own threads" "chatkit_threads"
      (own "chatkit_threads");
    CREATE_POLICY "Users can create own threads" "chatkit_threads"
      (own "chatkit_threads");
    CREATE_POLICY "Users can update own threads" "chatkit_threads"
      (own "chatkit_threads");
    CREATE_POLICY "Users can delete own threads" "chatkit_threads"
      (own "chatkit_threads");
    CREATE_POLICY "Users can view items of own threads" "chatkit_thread_items"
      (via "chatkit_threads" "chatkit_thread_items" "thread_id");
    CREATE_POLICY "Users can manage items of own threads" "chatkit_thread_items"
      (via "chatkit_threads" "chatkit_thread_items" "thread_id");
    CREATE_OR_REPLACE_FUNCTION "increment_artifacts_count";
    CREATE_TABLE_IF_NOT_EXISTS "chatkit_threads"
      ["id"; "user_id"; "opportunity_id"; "title"; "created_at"; "updated_at";
       "metadata"]
      [("auth.users", ["id"]); ("opportunities", ["id"])];
    CREATE_TABLE_IF_NOT_EXISTS "chatkit_thread_items"
      ["id"; "thread_id"; "item_type"; "content"; "created_at"; "updated_at"]
      [("chatkit_threads", ["id"])];
    CREATE_INDEX_IF_NOT_EXISTS "idx_chatkit_threads_opportunity" "chatkit_threads"
      ["opportunity_id"];
    CREATE_INDEX_IF_NOT_EXISTS "idx_chatkit_threads_created" "chatkit_threads"
      ["created_at"];
    CREATE_INDEX_IF_NOT_EXISTS "idx_chatkit_items_thread" "chatkit_thread_items"
      ["thread_id"];
    CREATE_INDEX_IF_NOT_EXISTS "idx_chatkit_items_created" "chatkit_thread_items"
      ["created_at"];
    COMMENT_ON_TABLE "opportunities";
    COMMENT_ON_TABLE "artifacts";
    COMMENT_ON_TABLE "tasks";
    COMMENT_ON_TABLE "phase_progress";
    COMMENT_ON_TABLE "active_opportunity";
    COMMENT_ON_TABLE "chatkit_threads";
    COMMENT_ON_TABLE "chatkit_thread_items" ]%string.

(** The single-user script, statement by statement: the same tables
    without [user_id], the seeding INSERT, no policies. *)
Definition single_user : list ddl :=
  [ CREATE_EXTENSION_IF_NOT_EXISTS "uuid-ossp";
    CREATE_TABLE_IF_NOT_EXISTS "opportunities"
      ["id"; "name"; "client_name"; "description"; "current_phase"; "status";
       "created_at"; "context_summary"; "stakeholders"; "key_insights"]
      [];
    CREATE_TABLE_IF_NOT_EXISTS "phase_progress"
      ["id"; "opportunity_id"; "phase"; "status"; "start_date"; "end_date";
       "key_activities"; "artifacts_count"; "completion_percentage"]
      [("opportunities", ["id"])];
    CREATE_TABLE_IF_NOT_EXISTS "artifacts"
      ["id"; "opportunity_id"; "title"; "content"; "artifact_type"; "phase";
       "created_by"; "created_at"; "tags"]
      [("opportunities", ["id"])];
    CREATE_TABLE_IF_NOT_EXISTS "tasks"
      ["id"; "title"; "description"; "phase"; "status"; "created_at"]
      [];
    CREATE_TABLE_IF_NOT_EXISTS "active_opportunity"
      ["id"; "opportunity_id"; "updated_at"]
      [("opportunities", ["id"])];
    INSERT_INTO "active_opportunity" ["opportunity_id"];
    CREATE_INDEX_IF_NOT_EXISTS "idx_artifacts_opportunity" "artifacts"
      ["opportunity_id"];
    CREATE_INDEX_IF_NOT_EXISTS "idx_artifacts_phase" "artifacts" ["phase"];
    CREATE_INDEX_IF_NOT_EXISTS "idx_opportunities_status" "opportunities" ["status"];
    CREATE_INDEX_IF_NOT_EXISTS "idx_opportunities_phase" "opportunities"
      ["current_phase"];
    CREATE_INDEX_IF_NOT_EXISTS "idx_tasks_phase" "tasks" ["phase"];
    CREATE_INDEX_IF_NOT_EXISTS "idx_tasks_status" "tasks" ["status"];
    CREATE_INDEX_IF_NOT_EXISTS "idx_phase_progress_opportunity" "phase_progress"
      ["opportunity_id"];
    CREATE_OR_REPLACE_FUNCTION "increment_artifacts_count";
    COMMENT_ON_TABLE "opportunities";
    COMMENT_ON_TABLE "artifacts";
    COMMENT_ON_TABLE "tasks";
    COMMENT_ON_TABLE "phase_progress";
    COMMENT_ON_TABLE "active_opportunity" ]%string.

(** A new Supabase project: the [auth] schema with its [users] table is
    there, nothing of the application is.  Of the columns of [auth.users]
    the scripts name [id]. *)
Definition new_project : catalog :=
  {| extensions := []; tables := [("auth.users", ["id"])]%string; indexes := [];
     row_security := []; policies := []; functions := []; commented := [] |}.

(** The tables a script creates, in order, and those among them with the
    columns the script gives them. *)
Definition creates (script : list ddl) : list string :=
  flat_map (fun s => match s with
                     | CREATE_TABLE_IF_NOT_EXISTS t _ _ => [t]
                     | _ => []
                     end) script.

Definition declares (script : list ddl) : names :=
  flat_map (fun s => match s with
                     | CREATE_TABLE_IF_NOT_EXISTS t cols _ => [(t, cols)]
                     | _ => []
                     end) script.

(** A project in which the eight tables exist as the multi-user script
    declares them, without policies. *)
Definition existing_project : catalog :=
  {| extensions := ["uuid-ossp"%string];
     tables := ("auth.users", ["id"])%string :: declares multi_user;
     indexes := []; row_security := []; policies := []; functions := [];
     commented := [] |}.

(** What a statement needs of the tables of the catalog to run through,
    CREATE POLICY apart, whose outcome depends on the policies as well. *)
Definition settled (s : ddl) (c : catalog) : bool :=
  match s with
  | CREATE_EXTENSION_IF_NOT_EXISTS _ | CREATE_OR_REPLACE_FUNCTION _ => true
  | CREATE_TABLE_IF_NOT_EXISTS t _ _ =>
      match columns_of t c with Some _ => true | None => false end
  | INSERT_INTO t cols | CREATE_INDEX_IF_NOT_EXISTS _ t cols =>
      match lacking [(t, cols)] c with None => true | Some _ => false end
  | ENABLE_ROW_LEVEL_SECURITY t | COMMENT_ON_TABLE t =>
      match lacking [(t, [])] c with None => true | Some _ => false end
  | CREATE_POLICY _ t reads =>
      match lacking ((t, []) :: reads) c with None => true | Some _ => false end
  end.

Definition is_policy (s : ddl) : bool :=
  match s with CREATE_POLICY _ _ _ => true | _ => false end.

End Script.

(* ================================================================== *)
(** * The API objects: hooks/useOpportunity.ts *)
(* ================================================================== *)

Module useOpportunity.

Record PhaseProgress : Type := mkPhaseProgress {
  phase : text;
  status : text;
  startDate : option timestamptz;
  endDate : option timestamptz;
  keyActivities : list text;
  artifactsCount : Z;
  completionPercentage : Z
}.

Record Opportunity : Type := mkOpportunity {
  id : text;
  name : text;
  clientName : text;
  description : text;
  currentPhase : text;
  opp_status : text;
  createdAt : option timestamptz;
  phaseProgress : list (text * PhaseProgress);
  opp_artifactsCount : Z;
  stakeholders : list text;
  contextSummary : text;
  keyInsights : list text
}.

Record Artifact : Type := mkArtifact {
  art_id : text;
  art_title : text;
  art_content : text;
  artifactType : text;
  art_phase : text;
  createdBy : option text;
  art_createdAt : option timestamptz;
  art_tags : list text
}.

Record OpportunityData : Type := mkData {
  opportunity : option Opportunity;
  phaseArtifacts : list Artifact;
  allArtifacts : list Artifact
}.

(** What a [catch] clause receives: an [Error] with its message, or some
    other value. *)
Inductive thrown : Type :=
| Error_with (message : text)
| not_an_Error.

(** [err instanceof Error ? err.message : "Unknown error"] *)
Definition message_of (err : thrown) : text :=
  match err with
  | Error_with m => m
  | not_an_Error => js "Unknown error"
  end.

(** What [fetch] came back with: a rejected promise, or a response with
    its [ok] flag and the outcome of reading its body. *)
Inductive fetched (A : Type) : Type :=
| rejected (err : thrown)
| response (ok : bool) (json : thrown + A).
Arguments rejected {A} err.
Arguments response {A} ok json.

(** The state of a hook. *)
Record hook (A : Type) : Type := mkHook {
  data : A;
  loading : bool;
  error : option text
}.

(** [useOpportunity]: the initial state, and the state once [refresh]
    has settled. *)
Definition mounted : hook OpportunityData :=
  {| data := {| opportunity := None; phaseArtifacts := []; allArtifacts := [] |};
     loading := true; error := None |}.

Definition refresh (answer : fetched OpportunityData) (st : hook OpportunityData)
  : hook OpportunityData :=
  match answer with
  | rejected err =>
      {| data := data st; loading := false; error := Some (message_of err) |}
  | response false _ =>
      {| data := data st; loading := false;
         error := Some (js "Failed to fetch opportunity") |}
  | response true (inl err) =>
      {| data := data st; loading := false; error := Some (message_of err) |}
  | response true (inr result) =>
      {| data := result; loading := false; error := None |}
  end.

End useOpportunity.

(** [useOpportunities], the hook of the list; the body of the answer is an
    object whose [opportunities] may be missing. *)
Module useOpportunities.

Definition mounted : useOpportunity.hook (list useOpportunity.Opportunity) :=
  {| useOpportunity.data := []; useOpportunity.loading := true;
     useOpportunity.error := None |}.

Definition refresh
  (answer : useOpportunity.fetched (option (list useOpportunity.Opportunity)))
  (st : useOpportunity.hook (list useOpportunity.Opportunity))
  : useOpportunity.hook (list useOpportunity.Opportunity) :=
  match answer with
  | useOpportunity.rejected err =>
      {| useOpportunity.data := useOpportunity.data st;
         useOpportunity.loading := false;
         useOpportunity.error := Some (useOpportunity.message_of err) |}
  | useOpportunity.response false _ =>
      {| useOpportunity.data := useOpportunity.data st;
         useOpportunity.loading := false;
         useOpportunity.error := Some (js "Failed to fetch opportunities") |}
  | useOpportunity.response true (inl err) =>
      {| useOpportunity.data := useOpportunity.data st;
         useOpportunity.loading := false;
         useOpportunity.error := Some (useOpportunity.message_of err) |}
  | useOpportunity.response true (inr result) =>
      {| useOpportunity.data := match result with
                                | Some l => l
                                | None => []
                                end;
         useOpportunity.loading := false;
         useOpportunity.error := None |}
  end.

End useOpportunities.

(** ** OpportunityList.tsx *)
Module OpportunityList.

Section Search.

(** [String.prototype.toLowerCase], the case mapping of the engine. *)
Variable toLowerCase : text -> text.

Definition matches (searchQuery : text) (opp : useOpportunity.Opportunity) : bool :=
  includes (toLowerCase (useOpportunity.name opp)) (toLowerCase searchQuery)
  || includes (toLowerCase (useOpportunity.clientName opp))
              (toLowerCase searchQuery).

Definition filteredOpportunities (searchQuery : text)
  (opportunities : list useOpportunity.Opportunity)
  : list useOpportunity.Opportunity :=
  filter (matches searchQuery) opportunities.

Definition activeOpportunities (searchQuery : text)
  (opportunities : list useOpportunity.Opportunity)
  : list useOpportunity.Opportunity :=
  filter (fun opp => text_eqb (useOpportunity.opp_status opp) (js "active"))
         (filteredOpportunities searchQuery opportunities).

Definition pastOpportunities (searchQuery : text)
  (opportunities : list useOpportunity.Opportunity)
  : list useOpportunity.Opportunity :=
  filter (fun opp => negb (text_eqb (useOpportunity.opp_status opp) (js "active")))
         (filteredOpportunities searchQuery opportunities).

End Search.

End OpportunityList.

(** The effect of [Home] that ends the splash screen, once its timer has
    fired: it runs with the [loading] flags and the opportunity of the two
    hooks. *)
Definition initialLoad (loading oppsLoading : bool)
  (opportunity : option useOpportunity.Opportunity) (st : Home.State)
  : Home.State :=
  if negb loading && negb oppsLoading
  then {| Home.isCreateModalOpen := Home.isCreateModalOpen st;
          Home.showOpportunitySelector :=
            match opportunity with Some _ => false | None => true end;
          Home.chatKey := Home.chatKey st;
          Home.isDrawerOpen := Home.isDrawerOpen st;
          Home.toast := Home.toast st;
          Home.isTransitioning := Home.isTransitioning st;
          Home.isCreating := Home.isCreating st;
          Home.isInitialLoad := false |}
  else st.

(* ================================================================== *)
(** * The engagement service *)
(* ================================================================== *)

(** The error kinds of the specification. *)
Inductive error : Type :=
| ValidationError
| NotFound
| InvalidPhaseError
| Conflict
| Unavailable.

(** An operation of the service runs in one transaction: a failure leaves
    every row as it was (a value drawn from a sequence before the failure is
    not given back, as in [refused]). *)
Inductive result (A : Type) : Type :=
| Success (a : A)
| Failure (e : error).
Arguments Success {A} a.
Arguments Failure {A} e.

Module EngagementService.

Import OpportunityPanel.

(** Modelled from the spec: the store's translation of backend failures
    (the Python store is not in the sources).  A uniqueness violation is a
    Conflict, a dangling reference NotFound, anything else Unavailable. *)
Definition translate (e : sqlstate) : error :=
  match e with
  | unique_violation _ => Conflict
  | foreign_key_violation _ => NotFound
  | _ => Unavailable
  end.

Definition lift {A : Type} (x : outcome A) : result A :=
  match x with
  | Ok a => Success a
  | Error e => Failure (translate e)
  end.

Definition or_else {A : Type} (d : A) (x : option A) : A :=
  match x with Some a => a | None => d end.

Definition mem (s : text) (l : list text) : bool := existsb (text_eqb s) l.

(** Empty or whitespace-only, as [CreateOpportunityModal] tests it. *)
Definition blank (s : text) : bool := negb (truthy (trim s)).

(** Modelled from the spec: the ownership check before access (backend,
    not in the sources): the opportunity with this id, if it is the
    owner's.  An id that a TEXT column cannot hold is the id of nothing. *)
Definition owned (owner : uuid) (id : text) (db : database) : option opportunity :=
  if storable id
  then find (fun r => text_eqb (o_id r) id && N.eqb (o_user_id r) owner)
            (opportunities db)
  else None.

(** [opportunity_id = o] *)
Definition of_opportunity (o : text) (ref : option text) : bool :=
  is_true (sql_eq text_eqb ref (Some o)).

(** The number of artifacts an opportunity owns, and the number filed
    under one of its phases. *)
Definition count_artifacts (o : text) (db : database) : nat :=
  List.length (filter (fun a => of_opportunity o (a_opportunity_id a)) (artifacts db)).

Definition count_phase_artifacts (o p : text) (db : database) : nat :=
  List.length (filter (fun a => of_opportunity o (a_opportunity_id a)
                                && text_eqb (a_phase a) p)
                      (artifacts db)).

(** Modelled from the spec: how the backend turns rows into the objects
    of [useOpportunity.ts] (the Python store is not in the sources).  The
    opportunity's [artifactsCount] is derived by counting its artifacts. *)
Definition to_PhaseProgress (r : phase_progress_row) : useOpportunity.PhaseProgress :=
  {| useOpportunity.phase := pp_phase r;
     useOpportunity.status := pp_status r;
     useOpportunity.startDate := pp_start_date r;
     useOpportunity.endDate := pp_end_date r;
     useOpportunity.keyActivities := or_else [] (pp_key_activities r);
     useOpportunity.artifactsCount := or_else 0%Z (pp_artifacts_count r);
     useOpportunity.completionPercentage := or_else 0%Z (pp_completion_percentage r) |}.

Definition to_Opportunity (db : database) (r : opportunity) : useOpportunity.Opportunity :=
  {| useOpportunity.id := o_id r;
     useOpportunity.name := o_name r;
     useOpportunity.clientName := o_client_name r;
     useOpportunity.description := or_else [] (o_description r);
     useOpportunity.currentPhase := o_current_phase r;
     useOpportunity.opp_status := o_status r;
     useOpportunity.createdAt := o_created_at r;
     useOpportunity.phaseProgress :=
       map (fun x => (pp_phase x, to_PhaseProgress x))
           (filter (fun x => of_opportunity (o_id r) (pp_opportunity_id x))
                   (phase_progress db));
     useOpportunity.opp_artifactsCount := Z.of_nat (count_artifacts (o_id r) db);
     useOpportunity.stakeholders := or_else [] (o_stakeholders r);
     useOpportunity.contextSummary := or_else [] (o_context_summary r);
     useOpportunity.keyInsights := or_else [] (o_key_insights r) |}.

(** Modelled from the spec: the progress row [createOpportunity] stores for
    one phase (backend, not in the sources): the first phase is entered at
    once, the others take the column defaults. *)
Definition initial_progress (opp_id : text) (now : timestamptz) (entered : bool)
  (phase : text) : phase_progress_values :=
  {| ppv_id := DEFAULT;
     ppv_opportunity_id := VALUE opp_id;
     ppv_phase := VALUE phase;
     ppv_status := if entered then VALUE in_progress else DEFAULT;
     ppv_start_date := if entered then VALUE now else DEFAULT;
     ppv_end_date := DEFAULT;
     ppv_key_activities := DEFAULT;
     ppv_artifacts_count := DEFAULT;
     ppv_completion_percentage := DEFAULT |}.

Fixpoint insert_progress (opp_id : text) (now : timestamptz) (entered : bool)
  (phases : list text) (db : database) : outcome database :=
  match phases with
  | [] => Ok db
  | p :: rest =>
      db' <- insert_phase_progress service_role (initial_progress opp_id now entered p) db ;;
      insert_progress opp_id now false rest db'
  end.

(** Modelled from the spec: [createOpportunity] (the backend handler of
    POST /opportunities is not in the sources).  It validates the three
    required fields, then stores the opportunity in its first phase with
    one progress row per phase, all or nothing. *)
Definition createOpportunity (owner : uuid) (new_id : text) (now : timestamptz)
  (name clientName description : text) (stakeholders : list text)
  (db : database) : result (useOpportunity.Opportunity * database) :=
  if blank name || blank clientName || blank description
  then Failure ValidationError
  else
    match (db1 <- insert_opportunities service_role now
                    {| ov_id := VALUE new_id;
                       ov_user_id := VALUE owner;
                       ov_name := VALUE name;
                       ov_client_name := VALUE clientName;
                       ov_description := VALUE description;
                       ov_current_phase := DEFAULT;
                       ov_status := DEFAULT;
                       ov_created_at := DEFAULT;
                       ov_context_summary := DEFAULT;
                       ov_stakeholders := VALUE stakeholders;
                       ov_key_insights := DEFAULT |} db ;;
           insert_progress new_id now true PHASE_ORDER db1) with
    | Error e => Failure (translate e)
    | Ok db' =>
        match owned owner new_id db' with
        | Some r => Success (to_Opportunity db' r, db')
        | None => Failure NotFound
        end
    end.

(** Modelled from the spec: [addArtifact] (backend, not in the sources):
    validation, the ownership check, the INSERT, then the call of
    [increment_artifacts_count]. *)
Definition addArtifact (owner : uuid) (new_id : text) (now : timestamptz)
  (opportunityId type title content phase : text) (tags : list text)
  (db : database) : result database :=
  if negb (mem type AddArtifactModal.ARTIFACT_TYPES)
     || negb (truthy title) || negb (truthy content)
  then Failure ValidationError
  else
    match owned owner opportunityId db with
    | None => Failure NotFound
    | Some _ =>
        lift (db1 <- insert_artifacts service_role now
                       {| av_id := VALUE new_id;
                          av_opportunity_id := VALUE opportunityId;
                          av_title := VALUE title;
                          av_content := VALUE content;
                          av_artifact_type := VALUE type;
                          av_phase := VALUE phase;
                          av_created_by := NULL;
                          av_created_at := DEFAULT;
                          av_tags := VALUE tags |} db ;;
              increment_artifacts_count service_role (Some opportunityId)
                (Some phase) db1)
    end.

(** One call of [addArtifact], with its arguments in a record. *)
Record add_request : Type := mkAdd {
  add_owner : uuid;
  add_id : text;
  add_now : timestamptz;
  add_opportunity : text;
  add_type : text;
  add_title : text;
  add_content : text;
  add_phase : text;
  add_tags : list text
}.

Definition add (r : add_request) (db : database) : result database :=
  addArtifact (add_owner r) (add_id r) (add_now r) (add_opportunity r)
    (add_type r) (add_title r) (add_content r) (add_phase r) (add_tags r) db.

(** A sequence of calls; a failed call changes nothing. *)
Fixpoint add_all (rs : list add_request) (db : database) : database :=
  match rs with
  | [] => db
  | r :: rest =>
      match add r db with
      | Success db' => add_all rest db'
      | Failure _ => add_all rest db
      end
  end.

(** Modelled from the spec: the bookkeeping of [changePhase] for the phase
    that is left (backend, not in the sources): it is completed only if it
    was in progress. *)
Definition leave (opp_id phase : text) (db : database) : database :=
  update_phase_progress service_role opp_id phase in_progress completed None db.

(** Modelled from the spec: the bookkeeping of [changePhase] for the phase
    that is entered (backend, not in the sources): it is started, and the
    start dated, only if it had not been started. *)
Definition enter (opp_id phase : text) (now : timestamptz) (db : database)
  : database :=
  update_phase_progress service_role opp_id phase not_started in_progress
    (Some (Some now)) db.

(** Modelled from the spec: [changePhase] (the backend handler of
    POST /opportunities/:id/phase is not in the sources). *)
Definition changePhase (owner : uuid) (now : timestamptz)
  (opportunityId targetPhase : text) (db : database) : result database :=
  if negb (mem targetPhase PHASE_ORDER) then Failure InvalidPhaseError
  else
    match owned owner opportunityId db with
    | None => Failure NotFound
    | Some o =>
        Success (update_opportunities_phase service_role opportunityId targetPhase
                   (enter opportunityId targetPhase now
                      (leave opportunityId (o_current_phase o) db)))
    end.

(** Modelled from the spec: [activate] (backend, not in the sources): the
    ownership check, then an upsert on the owner's row, written as the
    UPDATE of the row if there is one and the INSERT of a row otherwise. *)
Definition activate (owner : uuid) (now : timestamptz) (opportunityId : text)
  (db : database) : result database :=
  match owned owner opportunityId db with
  | None => Failure NotFound
  | Some _ =>
      lift (if has_pointer owner db
            then update_active_opportunity service_role now owner
                   (Some opportunityId) db
            else insert_active_opportunity service_role now
                   {| aov_id := DEFAULT;
                      aov_user_id := VALUE owner;
                      aov_opportunity_id := VALUE opportunityId;
                      aov_updated_at := DEFAULT |} db)
  end.

(** Modelled from the spec: [getActive], none selected when the pointer
    is missing, NULL, or does not lead to an opportunity of the owner. *)
Definition getActive (owner : uuid) (db : database) : option opportunity :=
  match active_pointer service_role owner db with
  | Some id => owned owner id db
  | None => None
  end.

(** Modelled from the spec: [getActiveContext], the active opportunity
    with its artifacts, or none. *)
Definition getActiveContext (owner : uuid) (db : database)
  : option (useOpportunity.Opportunity * list artifact) :=
  match getActive owner db with
  | Some r =>
      Some (to_Opportunity db r,
            filter (fun a => of_opportunity (o_id r) (a_opportunity_id a))
                   (artifacts db))
  | None => None
  end.

(** Modelled from the spec: fetching an artifact by id. *)
Definition getArtifact (id : text) (db : database) : result artifact :=
  match select_artifact_by_id service_role id db with
  | Some a => Success a
  | None => Failure NotFound
  end.

(** Modelled from the spec: [deleteOpportunity], the ownership check and
    the DELETE. *)
Definition deleteOpportunity (owner : uuid) (opportunityId : text)
  (db : database) : result database :=
  match owned owner opportunityId db with
  | None => Failure NotFound
  | Some _ => Success (delete_opportunities service_role opportunityId db)
  end.

End EngagementService.

(* ================================================================== *)
(** * Sample data *)
(* ================================================================== *)

(** A tag as [parseTags] returns it unchanged: not empty, no comma, no
    white space at either end. *)
Definition plain_label (w : text) : bool :=
  truthy w
  && forallb (fun c => negb (N.eqb c comma)) w
  && negb (isWhiteSpace (hd 0%N w))
  && negb (isWhiteSpace (hd 0%N (rev w))).

Definition given {A : Type} (c : cell A) : bool :=
  match c with VALUE _ => true | _ => false end.

Definition not_NULL {A : Type} (c : cell A) : bool :=
  match c with NULL => false | _ => true end.

(** An INSERT into [opportunities] that names the key, the owner and the
    three text columns and leaves the rest to the defaults. *)
Definition opportunity_insert (id : text) (owner : uuid)
  (name client_name description : cell text) : opportunities_values :=
  {| ov_id := VALUE id;
     ov_user_id := VALUE owner;
     ov_name := name;
     ov_client_name := client_name;
     ov_description := description;
     ov_current_phase := DEFAULT;
     ov_status := DEFAULT;
     ov_created_at := DEFAULT;
     ov_context_summary := DEFAULT;
     ov_stakeholders := DEFAULT;
     ov_key_insights := DEFAULT |}.

(** An INSERT into [artifacts] that leaves the time and the tags to the
    defaults. *)
Definition artifact_insert (id opp_id title content artifact_type phase : text)
  (created_by : cell text) : artifacts_values :=
  {| av_id := VALUE id;
     av_opportunity_id := VALUE opp_id;
     av_title := VALUE title;
     av_content := VALUE content;
     av_artifact_type := VALUE artifact_type;
     av_phase := VALUE phase;
     av_created_by := created_by;
     av_created_at := DEFAULT;
     av_tags := DEFAULT |}.

(** The row [createOpportunity] stores, and the progress rows that go with
    it. *)
Definition new_opportunity (owner : uuid) (new_id : text) (now : timestamptz)
  (name clientName description : text) (stakeholders : list text) : opportunity :=
  {| o_id := new_id;
     o_user_id := owner;
     o_name := name;
     o_client_name := clientName;
     o_description := Some description;
     o_current_phase := pre_assessment;
     o_status := active;
     o_created_at := Some now;
     o_context_summary := Some [];
     o_stakeholders := Some stakeholders;
     o_key_insights := Some [] |}.

Definition initial_row (seq : Z) (opp_id : text) (now : timestamptz)
  (entered : bool) (phase : text) : phase_progress_row :=
  {| pp_id := seq;
     pp_opportunity_id := Some opp_id;
     pp_phase := phase;
     pp_status := if entered then in_progress else not_started;
     pp_start_date := if entered then Some now else None;
     pp_end_date := None;
     pp_key_activities := Some [];
     pp_artifacts_count := Some 0%Z;
     pp_completion_percentage := Some 0%Z |}.

Fixpoint initial_rows (seq : Z) (opp_id : text) (now : timestamptz)
  (entered : bool) (phases : list text) : list phase_progress_row :=
  match phases with
  | [] => []
  | p :: rest =>
      initial_row seq opp_id now entered p
      :: initial_rows (seq + 1) opp_id now false rest
  end.

Definition created (owner : uuid) (new_id : text) (now : timestamptz)
  (name clientName description : text) (stakeholders : list text)
  (db : database) : database :=
  with_phase_progress
    (with_opportunities db
       (opportunities db
        ++ [new_opportunity owner new_id now name clientName description stakeholders]))
    (phase_progress db
     ++ initial_rows (phase_progress_id_seq db) new_id now true
          OpportunityPanel.PHASE_ORDER)
    (phase_progress_id_seq db + Z.of_nat (List.length OpportunityPanel.PHASE_ORDER)).


(** Every stored opportunity has exactly one progress row for each phase
    of PHASE_ORDER. *)
Definition progress_complete (db : database) : Prop :=
  forall o p, has_opportunity o db = true ->
    In p OpportunityPanel.PHASE_ORDER ->
    List.length (filter (phase_progress_key (Some o) (Some p)) (phase_progress db))
    = 1.

(** The effect of the UPDATE in [increment_artifacts_count] on one row. *)
Definition incremented (opp_id phase_name : text) (r : phase_progress_row)
  : phase_progress_row :=
  if phase_progress_key (Some opp_id) (Some phase_name) r
  then set_artifacts_count (plus_one (pp_artifacts_count r)) r
  else r.

Definition alice : uuid := 1%N.
Definition bob : uuid := 2%N.

Definition opp_a : text := js "opp-a".
Definition opp_b : text := js "opp-b".

(** What scenario A of the specification submits. *)
Definition acme_values (id : text) (owner : uuid) : opportunities_values :=
  {| ov_id := VALUE id;
     ov_user_id := VALUE owner;
     ov_name := VALUE (js "Acme Transformation");
     ov_client_name := VALUE (js "Acme Corp");
     ov_description := VALUE (js "Digital transformation");
     ov_current_phase := DEFAULT;
     ov_status := DEFAULT;
     ov_created_at := DEFAULT;
     ov_context_summary := DEFAULT;
     ov_stakeholders := DEFAULT;
     ov_key_insights := DEFAULT |}.

Definition two_users : database :=
  {| auth_users := [alice; bob]; opportunities := []; phase_progress := [];
     phase_progress_id_seq := 1; artifacts := []; active_opportunity := [];
     active_opportunity_id_seq := 1 |}.

(** Scenario A of the specification, created for [alice]. *)
Definition acme_db : database :=
  created alice opp_a 0%Z (js "Acme Transformation") (js "Acme Corp")
    (js "Digital transformation") [] two_users.

Definition or_unchanged (db : database) (r : result database) : database :=
  match r with Success d => d | Failure _ => db end.

(** Scenario B: a pain point is filed under the first phase. *)
Definition pain_point_db : database :=
  or_unchanged acme_db
    (EngagementService.addArtifact alice (js "art-1") 1%Z opp_a
       (js "pain_point") (js "Manual approval bottleneck") (js "...")
       pre_assessment [] acme_db).

(** [bob] points his active-opportunity row at [alice]'s opportunity; the
    policy only looks at the row's [user_id]. *)
Definition bob_points_at_alice : active_opportunity_values :=
  {| aov_id := DEFAULT;
     aov_user_id := VALUE bob;
     aov_opportunity_id := VALUE opp_a;
     aov_updated_at := DEFAULT |}.

Definition or_same (db : database) (r : outcome database) : database :=
  match r with Ok d => d | Error _ => db end.

Definition bob_pointer_db : database :=
  or_same acme_db
    (execute (api_role (Some bob)) 3%Z
       (INSERT_active_opportunity bob_points_at_alice) acme_db).

Definition pain_point_request : EngagementService.add_request :=
  {| EngagementService.add_owner := alice;
     EngagementService.add_id := js "art-1";
     EngagementService.add_now := 1%Z;
     EngagementService.add_opportunity := opp_a;
     EngagementService.add_type := js "pain_point";
     EngagementService.add_title := js "Manual approval bottleneck";
     EngagementService.add_content := js "...";
     EngagementService.add_phase := pre_assessment;
     EngagementService.add_tags := [] |}.

(** The same, with the opportunity made [alice]'s active one. *)
Definition active_db : database :=
  or_unchanged pain_point_db
    (EngagementService.activate alice 2%Z opp_a pain_point_db).

(** Both users at work: [bob] has an opportunity of his own with an
    artifact in it, and it is his active one. *)
Definition both_db : database :=
  or_unchanged active_db
    (EngagementService.activate bob 5%Z opp_b
       (or_unchanged active_db
          (EngagementService.addArtifact bob (js "art-2") 4%Z opp_b (js "risk")
             (js "Vendor lock-in") (js "...") pre_assessment []
             (created bob opp_b 3%Z (js "Beta Rollout") (js "Beta Inc")
                (js "Rollout of the beta") [] active_db)))).

(* ================================================================== *)
(** * Properties *)
(* ================================================================== *)

Unset Implicit Arguments.

(** ** Text *)

Lemma text_eqb_eq (s t : text) : text_eqb s t = true <-> s = t.
Proof.
  revert t; induction s as [|c s IH]; intros [|d t]; simpl; split;
    try congruence; try reflexivity.
  - rewrite andb_true_iff, N.eqb_eq, IH. intros [-> ->]. reflexivity.
  - intros H. injection H as -> ->. rewrite N.eqb_refl. simpl. apply IH.
    reflexivity.
Qed.

Lemma text_eqb_refl (s : text) : text_eqb s s = true.
Proof. apply text_eqb_eq. reflexivity. Qed.

Lemma text_eqb_neq (s t : text) : text_eqb s t = false <-> s <> t.
Proof.
  rewrite <- text_eqb_eq. destruct (text_eqb s t); split; congruence.
Qed.

Lemma text_eqb_sym (s t : text) : text_eqb s t = text_eqb t s.
Proof.
  destruct (text_eqb t s) eqn:E.
  - apply text_eqb_eq in E. subst. apply text_eqb_refl.
  - apply text_eqb_neq. apply text_eqb_neq in E. congruence.
Qed.








Lemma split_pieces_free (sep : N) (s : text) :
  Forall (fun w => forallb (fun c => negb (N.eqb c sep)) w = true) (split sep s).
Proof.
  induction s as [|c s IH]; simpl; [repeat constructor|].
  destruct (N.eqb c sep) eqn:E; [constructor; [reflexivity|exact IH]|].
  destruct (split sep s) as [|w ws]; [repeat constructor; simpl; rewrite E; reflexivity|].
  inversion IH as [|? ? Hw Hws]; subst. constructor; [|exact Hws].
  simpl. rewrite E, Hw. reflexivity.
Qed.

Lemma trimStart_suffix (s : text) : exists p, s = p ++ trimStart s.
Proof.
  induction s as [|c s [p IH]]; simpl; [exists []; reflexivity|].
  destruct (isWhiteSpace c); [|exists []; reflexivity].
  exists (c :: p). simpl. f_equal. exact IH.
Qed.

Lemma forallb_rev {A : Type} (P : A -> bool) (l : list A) :
  forallb P (rev l) = forallb P l.
Proof.
  induction l as [|a l IH]; simpl; [reflexivity|].
  rewrite forallb_app, IH. simpl. destruct (P a), (forallb P l); reflexivity.
Qed.

Lemma forallb_trimStart (P : N -> bool) (s : text) :
  forallb P s = true -> forallb P (trimStart s) = true.
Proof.
  intros H. destruct (trimStart_suffix s) as [p E]. rewrite E in H.
  rewrite forallb_app in H. apply andb_true_iff in H. tauto.
Qed.

Lemma forallb_trim (P : N -> bool) (s : text) :
  forallb P s = true -> forallb P (trim s) = true.
Proof.
  intros H. unfold trim, trimEnd. rewrite forallb_rev.
  apply forallb_trimStart. rewrite forallb_rev. apply forallb_trimStart. exact H.
Qed.

Lemma trimStart_head (s : text) : isWhiteSpace (hd 0%N (trimStart s)) = false.
Proof.
  induction s as [|c s IH]; simpl; [reflexivity|].
  destruct (isWhiteSpace c) eqn:E; [exact IH|exact E].
Qed.

Lemma trim_head (s : text) : isWhiteSpace (hd 0%N (trim s)) = false.
Proof.
  unfold trim, trimEnd.
  destruct (trimStart_suffix (rev (trimStart s))) as [p E].
  apply (f_equal (@rev N)) in E. rewrite rev_involutive, rev_app_distr in E.
  destruct (rev (trimStart (rev (trimStart s)))) as [|c u]; [reflexivity|].
  simpl in E. pose proof (trimStart_head s) as H. rewrite E in H. exact H.
Qed.

Lemma trim_last (s : text) : isWhiteSpace (hd 0%N (rev (trim s))) = false.
Proof.
  unfold trim, trimEnd. rewrite rev_involutive. apply trimStart_head.
Qed.




(** ** NOT NULL (C10) *)

(** The NOT NULL constraints of [opportunities]: a row is built exactly
    when the key, the owner, the name and the client name are given and the
    phase and the status are not set to NULL.  The description and the
    remaining columns play no part. *)
Lemma opportunities_row_built (now : timestamptz) (v : opportunities_values) :
  (exists r, opportunities_row now v = Ok r)
  <-> given (ov_id v) && given (ov_user_id v) && given (ov_name v)
      && given (ov_client_name v) && not_NULL (ov_current_phase v)
      && not_NULL (ov_status v) = true.
Proof.
  unfold opportunities_row.
  destruct (ov_id v), (ov_user_id v), (ov_name v), (ov_client_name v),
    (ov_current_phase v), (ov_status v); simpl; split;
    solve [ intros [r H]; discriminate H
          | discriminate
          | reflexivity
          | intros _; eexists; reflexivity ].
Qed.

(** The same for [artifacts]: [created_by] and [opportunity_id] may be
    NULL. *)
Lemma artifacts_row_built (now : timestamptz) (v : artifacts_values) :
  (exists r, artifacts_row now v = Ok r)
  <-> given (av_id v) && given (av_title v) && given (av_content v)
      && given (av_artifact_type v) && given (av_phase v) = true.
Proof.
  unfold artifacts_row.
  destruct (av_id v), (av_title v), (av_content v), (av_artifact_type v),
    (av_phase v); simpl; split;
    solve [ intros [r H]; discriminate H
          | discriminate
          | reflexivity
          | intros _; eexists; reflexivity ].
Qed.

(** C10: the storage layer accepts an opportunity whose description is
    NULL, or empty, while a NULL name or client name is refused; of the
    three required text fields only [name] and [client_name] are NOT NULL,
    and nothing in the table looks at what a description says.  An artifact
    whose [created_by] is NULL is accepted as well.  The texts are ones a
    TEXT column can hold. *)
Theorem null_description_is_stored
  (now : timestamptz) (db : database) (id : text) (owner : uuid)
  (name client_name : text)
  (aid title content artifact_type phase : text) :
  forallb storable [id; name; client_name] = true ->
  forallb storable [aid; title; content; artifact_type; phase] = true ->
  has_opportunity id db = false ->
  existsb (N.eqb owner) (auth_users db) = true ->
  has_artifact aid db = false ->
  exists r e a,
    let db' := with_opportunities db (opportunities db ++ [r]) in
    insert_opportunities service_role now
      (opportunity_insert id owner (VALUE name) (VALUE client_name) NULL) db
    = Ok db'
    /\ o_id r = id /\ o_name r = name /\ o_client_name r = client_name
    /\ o_description r = None
    /\ insert_opportunities service_role now
         (opportunity_insert id owner (VALUE name) (VALUE client_name) (VALUE [])) db
       = Ok (with_opportunities db (opportunities db ++ [e]))
    /\ o_description e = Some []
    /\ insert_opportunities service_role now
         (opportunity_insert id owner NULL (VALUE client_name) NULL) db
       = Error (not_null_violation "name")
    /\ insert_opportunities service_role now
         (opportunity_insert id owner (VALUE name) NULL NULL) db
       = Error (not_null_violation "client_name")
    /\ insert_artifacts service_role now
         (artifact_insert aid id title content artifact_type phase NULL) db'
       = Ok (with_artifacts db' (artifacts db' ++ [a]))
    /\ a_id a = aid /\ a_created_by a = None.
Proof.
  intros Ho Ha Hfresh Huser Hafresh.
  cbn [forallb] in Ho, Ha.
  rewrite !andb_true_iff in Ho. rewrite !andb_true_iff in Ha.
  destruct Ho as (Hid & Hname & Hclient & _).
  destruct Ha as (Haid & Htitle & Hcontent & Htype & Hphase & _).
  eexists. eexists. eexists. cbv zeta.
  unfold insert_opportunities, insert_artifacts, opportunities_input,
    artifacts_input, text_cell_in, text_array_cell_in, text_in.
  simpl.
  rewrite Hid, Hname, Hclient, Haid, Htitle, Hcontent, Htype, Hphase. simpl.
  rewrite Hfresh, Huser. simpl.
  unfold has_artifact in *. simpl. rewrite Hafresh. simpl.
  unfold has_opportunity. simpl. rewrite existsb_app. simpl.
  split; [reflexivity|]. simpl.
  rewrite text_eqb_refl, orb_true_r. simpl.
  repeat split; reflexivity.
Qed.

Lemma null_description_is_stored_witness :
  exists r a,
    insert_opportunities service_role 0%Z
      (opportunity_insert opp_a alice (VALUE (js "Acme Transformation"))
         (VALUE (js "Acme Corp")) NULL) two_users
    = Ok (with_opportunities two_users [r])
    /\ o_description r = None
    /\ insert_artifacts service_role 0%Z
         (artifact_insert (js "art-1") opp_a (js "Bottleneck") (js "...")
            (js "pain_point") pre_assessment NULL)
         (with_opportunities two_users [r])
       = Ok (with_artifacts (with_opportunities two_users [r]) [a])
    /\ a_created_by a = None.
Proof.
  destruct (null_description_is_stored 0%Z two_users opp_a alice
              (js "Acme Transformation") (js "Acme Corp")
              (js "art-1") (js "Bottleneck") (js "...") (js "pain_point")
              pre_assessment eq_refl eq_refl eq_refl eq_refl eq_refl)
    as (r & e & a & H1 & _ & _ & _ & H2 & _ & _ & _ & _ & H3 & _ & H4).
  exists r, a. repeat split; assumption.
Defined.

(** ** Lists and keys *)

Lemma existsb_false {A : Type} (f : A -> bool) (l : list A) :
  existsb f l = false <-> forall x, In x l -> f x = false.
Proof.
  induction l as [|a l IH]; simpl.
  - split; [intros _ x []|reflexivity].
  - rewrite orb_false_iff, IH. split.
    + intros [Ha Hl] x [<-|Hx]; auto.
    + intros H. split; [apply H; left; reflexivity|].
      intros x Hx. apply H. right. exact Hx.
Qed.

Lemma find_app_none {A : Type} (f : A -> bool) (l l' : list A) :
  existsb f l = false -> find f (l ++ l') = find f l'.
Proof.
  induction l as [|a l IH]; simpl; [reflexivity|].
  intros H. apply orb_false_iff in H. destruct H as [Ha Hl].
  rewrite Ha. apply IH. exact Hl.
Qed.

Lemma filter_none {A : Type} (f : A -> bool) (l : list A) :
  existsb f l = false -> filter f l = [].
Proof.
  induction l as [|a l IH]; simpl; [reflexivity|].
  intros H. apply orb_false_iff in H. destruct H as [Ha Hl].
  rewrite Ha. apply IH. exact Hl.
Qed.

Lemma phase_progress_key_some (o p : text) (r : phase_progress_row) :
  phase_progress_key (Some o) (Some p) r
  = match pp_opportunity_id r with
    | Some o' => text_eqb o' o && text_eqb (pp_phase r) p
    | None => false
    end.
Proof.
  unfold phase_progress_key. destruct (pp_opportunity_id r) as [o'|]; simpl.
  - destruct (text_eqb o' o), (text_eqb (pp_phase r) p); reflexivity.
  - destruct (text_eqb (pp_phase r) p); reflexivity.
Qed.


Lemma has_opportunity_in (id : text) (db : database) :
  has_opportunity id db = true <-> In id (map o_id (opportunities db)).
Proof.
  unfold has_opportunity. rewrite existsb_exists, in_map_iff. split.
  - intros (r & Hr & E). apply text_eqb_eq in E. exists r. auto.
  - intros (r & E & Hr). exists r. split; [exact Hr|]. apply text_eqb_eq. exact E.
Qed.

(** No row refers to an opportunity that is not stored. *)
Lemma no_progress_of_unknown (db : database) (id : text) :
  constraints_hold db -> has_opportunity id db = false ->
  forall r, In r (phase_progress db) -> pp_opportunity_id r <> Some id.
Proof.
  intros C Hfresh r Hr E.
  pose proof (phase_progress_opportunity_id_fkey C r Hr) as H.
  rewrite E in H. simpl in H. congruence.
Qed.


(** ** Accepted statements *)

Ltac passed_check :=
  match goal with
  | |- context [check ?c _] =>
      let E := fresh "E" in
      destruct c eqn:E; [|discriminate]; cbn [check bind]
  end.

Lemma bind_ok {A B : Type} (x : outcome A) (k : A -> outcome B) (b : B) :
  bind x k = Ok b -> exists a, x = Ok a /\ k a = Ok b.
Proof.
  destruct x as [a|e]; [|discriminate]. intros H. exists a. split; [reflexivity|exact H].
Qed.

(** An accepted statement had its values read. *)
Ltac read_input H :=
  match type of H with
  | bind (input _) _ = Ok _ =>
      let R := fresh "Hread" in
      apply bind_ok in H; destruct H as ([] & R & H)
  end.

Ltac built :=
  repeat match goal with
         | |- context [not_null _ ?x] =>
             destruct x; [|discriminate]; cbn [not_null bind]
         end.

(** The columns the policies read, in the row an INSERT builds. *)
Lemma opportunities_row_user (now : timestamptz) (v : opportunities_values)
  (r : opportunity) :
  opportunities_row now v = Ok r ->
  resolve None (ov_user_id v) = Some (o_user_id r)
  /\ resolve None (ov_id v) = Some (o_id r).
Proof.
  unfold opportunities_row. built. intros H. injection H as <-. split; reflexivity.
Qed.

Lemma phase_progress_row_opportunity (seq : Z) (v : phase_progress_values)
  (r : phase_progress_row) :
  phase_progress_row_of seq v = Ok r ->
  pp_opportunity_id r = resolve None (ppv_opportunity_id v).
Proof.
  unfold phase_progress_row_of. built. intros H. injection H as <-. reflexivity.
Qed.

Lemma artifacts_row_opportunity (now : timestamptz) (v : artifacts_values)
  (r : artifact) :
  artifacts_row now v = Ok r ->
  a_opportunity_id r = resolve None (av_opportunity_id v).
Proof.
  unfold artifacts_row. built. intros H. injection H as <-. reflexivity.
Qed.

Lemma active_opportunity_row_user (seq : Z) (now : timestamptz)
  (v : active_opportunity_values) (r : active_opportunity_row) :
  active_opportunity_row_of seq now v = Ok r ->
  resolve None (aov_user_id v) = Some (ao_user_id r).
Proof.
  unfold active_opportunity_row_of. built. intros H. injection H as <-. reflexivity.
Qed.

(** What an accepted INSERT passed, and what it did. *)
Lemma insert_opportunities_ok (who : role) (now : timestamptz)
  (v : opportunities_values) (db db' : database) :
  insert_opportunities who now v db = Ok db' ->
  exists r, opportunities_input v = Ok tt
            /\ opportunities_row now v = Ok r
            /\ policy_opportunities who r = true
            /\ has_opportunity (o_id r) db = false
            /\ existsb (N.eqb (o_user_id r)) (auth_users db) = true
            /\ db' = with_opportunities db (opportunities db ++ [r]).
Proof.
  unfold insert_opportunities.
  destruct (opportunities_input v) as [[]|e]; [|discriminate]. cbn [bind].
  passed_check.
  destruct (opportunities_row now v) as [r|e] eqn:Er; [|discriminate]. cbn [bind].
  do 2 passed_check.
  intros H. injection H as <-. exists r.
  destruct (opportunities_row_user now v r Er) as [Hu _]. rewrite Hu in E.
  apply negb_true_iff in E0.
  repeat split; try assumption; try (destruct who; exact E).
Qed.

Lemma insert_phase_progress_ok (who : role) (v : phase_progress_values)
  (db db' : database) :
  insert_phase_progress who v db = Ok db' ->
  exists r, phase_progress_input v = Ok tt
            /\ phase_progress_row_of (phase_progress_id_seq db) v = Ok r
            /\ policy_phase_progress who db r = true
            /\ existsb (fun x => Z.eqb (pp_id x) (pp_id r)) (phase_progress db)
               = false
            /\ existsb (phase_progress_key (pp_opportunity_id r) (Some (pp_phase r)))
                       (phase_progress db) = false
            /\ opportunity_fkey (pp_opportunity_id r) db = true
            /\ db' = with_phase_progress db (phase_progress db ++ [r])
                       (snd (serial (phase_progress_id_seq db) (ppv_id v))).
Proof.
  unfold insert_phase_progress.
  destruct (phase_progress_input v) as [[]|e]; [|discriminate]. cbn [bind].
  passed_check.
  destruct (phase_progress_row_of _ v) as [r|e] eqn:Er; [|discriminate].
  cbn [bind].
  do 3 passed_check.
  intros H. injection H as <-. exists r.
  rewrite <- (phase_progress_row_opportunity _ v r Er) in E.
  apply negb_true_iff in E0, E1.
  repeat split; try assumption; try (destruct who; exact E).
Qed.

Lemma insert_artifacts_ok (who : role) (now : timestamptz)
  (v : artifacts_values) (db db' : database) :
  insert_artifacts who now v db = Ok db' ->
  exists r, artifacts_input v = Ok tt
            /\ artifacts_row now v = Ok r
            /\ policy_artifacts who db r = true
            /\ has_artifact (a_id r) db = false
            /\ opportunity_fkey (a_opportunity_id r) db = true
            /\ db' = with_artifacts db (artifacts db ++ [r]).
Proof.
  unfold insert_artifacts.
  destruct (artifacts_input v) as [[]|e]; [|discriminate]. cbn [bind].
  passed_check.
  destruct (artifacts_row now v) as [r|e] eqn:Er; [|discriminate]. cbn [bind].
  do 2 passed_check.
  intros H. injection H as <-. exists r.
  rewrite <- (artifacts_row_opportunity now v r Er) in E.
  apply negb_true_iff in E0.
  repeat split; try assumption; try (destruct who; exact E).
Qed.

Lemma insert_active_opportunity_ok (who : role) (now : timestamptz)
  (v : active_opportunity_values) (db db' : database) :
  insert_active_opportunity who now v db = Ok db' ->
  exists r, active_opportunity_input v = Ok tt
            /\ active_opportunity_row_of (active_opportunity_id_seq db) now v = Ok r
            /\ policy_active_opportunity who r = true
            /\ existsb (fun x => Z.eqb (ao_id x) (ao_id r)) (active_opportunity db)
               = false
            /\ has_pointer (ao_user_id r) db = false
            /\ existsb (N.eqb (ao_user_id r)) (auth_users db) = true
            /\ opportunity_fkey (ao_opportunity_id r) db = true
            /\ db' = with_active_opportunity db (active_opportunity db ++ [r])
                       (snd (serial (active_opportunity_id_seq db) (aov_id v))).
Proof.
  unfold insert_active_opportunity.
  destruct (active_opportunity_input v) as [[]|e]; [|discriminate]. cbn [bind].
  passed_check.
  destruct (active_opportunity_row_of _ now v) as [r|e] eqn:Er; [|discriminate].
  cbn [bind].
  do 4 passed_check.
  intros H. injection H as <-. exists r.
  rewrite (active_opportunity_row_user _ now v r Er) in E.
  apply negb_true_iff in E0, E1.
  repeat split; try assumption; try (destruct who; exact E).
Qed.

Lemma insert_opportunities_inv (who : role) (now : timestamptz)
  (v : opportunities_values) (db db' : database) :
  insert_opportunities who now v db = Ok db' ->
  exists r, policy_opportunities who r = true
            /\ db' = with_opportunities db (opportunities db ++ [r]).
Proof.
  intros H. apply insert_opportunities_ok in H.
  destruct H as (r & _ & _ & Hp & _ & _ & ->). exists r. split; [exact Hp|reflexivity].
Qed.

Lemma insert_phase_progress_inv (who : role) (v : phase_progress_values)
  (db db' : database) :
  insert_phase_progress who v db = Ok db' ->
  exists r seq, policy_phase_progress who db r = true
                /\ db' = with_phase_progress db (phase_progress db ++ [r]) seq.
Proof.
  intros H. apply insert_phase_progress_ok in H.
  destruct H as (r & _ & _ & Hp & _ & _ & _ & ->). exists r. eexists.
  split; [exact Hp|reflexivity].
Qed.

Lemma insert_artifacts_inv (who : role) (now : timestamptz)
  (v : artifacts_values) (db db' : database) :
  insert_artifacts who now v db = Ok db' ->
  exists r, policy_artifacts who db r = true
            /\ db' = with_artifacts db (artifacts db ++ [r]).
Proof.
  intros H. apply insert_artifacts_ok in H.
  destruct H as (r & _ & _ & Hp & _ & _ & ->). exists r. split; [exact Hp|reflexivity].
Qed.

Lemma insert_active_opportunity_inv (who : role) (now : timestamptz)
  (v : active_opportunity_values) (db db' : database) :
  insert_active_opportunity who now v db = Ok db' ->
  exists r seq, policy_active_opportunity who r = true
                /\ db' = with_active_opportunity db (active_opportunity db ++ [r]) seq.
Proof.
  intros H. apply insert_active_opportunity_ok in H.
  destruct H as (r & _ & _ & Hp & _ & _ & _ & _ & ->). exists r. eexists.
  split; [exact Hp|reflexivity].
Qed.

Lemma increment_artifacts_count_inv (who : role) (o p : option text)
  (db db' : database) :
  increment_artifacts_count who o p db = Ok db' ->
  db' = with_phase_progress db
          (map (fun r => if policy_phase_progress who db r
                            && phase_progress_key o p r
                         then set_artifacts_count (plus_one (pp_artifacts_count r)) r
                         else r)
               (phase_progress db))
          (phase_progress_id_seq db).
Proof.
  unfold increment_artifacts_count. passed_check.
  intros H. injection H as <-. reflexivity.
Qed.

Lemma update_active_opportunity_inv (who : role) (now : timestamptz)
  (user : uuid) (o : option text) (db db' : database) :
  update_active_opportunity who now user o db = Ok db' ->
  db' = with_active_opportunity db
          (map (fun r => if policy_active_opportunity who r
                            && N.eqb (ao_user_id r) user
                         then set_pointer o now r else r)
               (active_opportunity db))
          (active_opportunity_id_seq db).
Proof.
  unfold update_active_opportunity. passed_check.
  intros H. injection H as <-. reflexivity.
Qed.

(** ** Tags (C9) *)





(** ** Creating an opportunity *)

Lemma insert_initial_progress (db : database) (o : text) (now : timestamptz)
  (entered : bool) (p : text) :
  storable o = true -> storable p = true ->
  has_opportunity o db = true ->
  existsb (phase_progress_key (Some o) (Some p)) (phase_progress db) = false ->
  (forall r, In r (phase_progress db) -> (pp_id r < phase_progress_id_seq db)%Z) ->
  insert_phase_progress service_role
    (EngagementService.initial_progress o now entered p) db
  = Ok (with_phase_progress db
          (phase_progress db
           ++ [initial_row (phase_progress_id_seq db) o now entered p])
          (phase_progress_id_seq db + 1)).
Proof.
  intros Hso Hsp Hopp Hkey Hseq.
  unfold insert_phase_progress, phase_progress_input, text_cell_in, text_in.
  simpl. rewrite Hso, Hsp. simpl.
  assert (Hpk : existsb (fun x => Z.eqb (pp_id x) (phase_progress_id_seq db))
                        (phase_progress db) = false).
  { apply existsb_false. intros x Hx. apply Z.eqb_neq.
    specialize (Hseq x Hx). lia. }
  destruct entered; simpl; rewrite Hpk; simpl; rewrite Hkey; simpl;
    rewrite Hopp; reflexivity.
Qed.

Lemma insert_progress_rows (o : text) (now : timestamptz) :
  forall (phases : list text) (entered : bool) (db : database),
    NoDup phases ->
    storable o = true -> forallb storable phases = true ->
    has_opportunity o db = true ->
    (forall p, In p phases ->
       existsb (phase_progress_key (Some o) (Some p)) (phase_progress db) = false) ->
    (forall r, In r (phase_progress db) -> (pp_id r < phase_progress_id_seq db)%Z) ->
    EngagementService.insert_progress o now entered phases db
    = Ok (with_phase_progress db
            (phase_progress db
             ++ initial_rows (phase_progress_id_seq db) o now entered phases)
            (phase_progress_id_seq db + Z.of_nat (List.length phases))).
Proof.
  induction phases as [|p rest IH]; intros entered db Hnd Hso Hsp Hopp Hkey Hseq.
  - simpl. rewrite app_nil_r, Z.add_0_r. destruct db; reflexivity.
  - inversion Hnd as [|? ? Hp Hrest]; subst.
    cbn [forallb] in Hsp. apply andb_true_iff in Hsp. destruct Hsp as [Hsp Hsr].
    cbn [EngagementService.insert_progress].
    rewrite insert_initial_progress; auto; [|apply Hkey; left; reflexivity].
    cbn [bind]. rewrite IH; auto.
    + cbn [with_phase_progress phase_progress phase_progress_id_seq
           initial_rows List.length].
      rewrite <- app_assoc. cbn [app].
      f_equal. unfold with_phase_progress. simpl. f_equal. lia.
    + intros q Hq. simpl. rewrite existsb_app. simpl.
      rewrite (Hkey q (or_intror Hq)). simpl. rewrite orb_false_r.
      rewrite phase_progress_key_some. simpl.
      apply andb_false_iff. right. apply text_eqb_neq. congruence.
    + intros r Hr. simpl in *. apply in_app_or in Hr.
      destruct Hr as [Hr|[<-|[]]]; [specialize (Hseq r Hr); lia|simpl; lia].
Qed.

Lemma PHASE_ORDER_NoDup : NoDup OpportunityPanel.PHASE_ORDER.
Proof.
  repeat constructor; simpl; intros H;
    repeat (destruct H as [H|H]; [vm_compute in H; discriminate|]);
    exact H.
Qed.

Lemma owned_new (owner : uuid) (id : text) (r : opportunity) (db : database) :
  storable id = true ->
  has_opportunity id db = false -> o_id r = id -> o_user_id r = owner ->
  EngagementService.owned owner id
    (with_opportunities db (opportunities db ++ [r])) = Some r.
Proof.
  intros Hs Hfresh Hid Hu. unfold EngagementService.owned. rewrite Hs. simpl.
  rewrite find_app_none.
  - simpl. rewrite Hid, Hu, text_eqb_refl, N.eqb_refl. reflexivity.
  - apply existsb_false. intros x Hx.
    unfold has_opportunity in Hfresh.
    rewrite existsb_false in Hfresh. rewrite (Hfresh x Hx). reflexivity.
Qed.

Lemma insert_new_opportunity (owner : uuid) (new_id : text) (now : timestamptz)
  (name clientName description : text) (stakeholders : list text) (db : database) :
  forallb storable (new_id :: name :: clientName :: description :: stakeholders)
  = true ->
  has_opportunity new_id db = false ->
  existsb (N.eqb owner) (auth_users db) = true ->
  insert_opportunities service_role now
    {| ov_id := VALUE new_id;
       ov_user_id := VALUE owner;
       ov_name := VALUE name;
       ov_client_name := VALUE clientName;
       ov_description := VALUE description;
       ov_current_phase := DEFAULT;
       ov_status := DEFAULT;
       ov_created_at := DEFAULT;
       ov_context_summary := DEFAULT;
       ov_stakeholders := VALUE stakeholders;
       ov_key_insights := DEFAULT |} db
  = Ok (with_opportunities db
          (opportunities db
           ++ [new_opportunity owner new_id now name clientName description
                 stakeholders])).
Proof.
  intros Hs Hfresh Huser.
  cbn [forallb] in Hs. rewrite !andb_true_iff in Hs.
  destruct Hs as (Hi & Hn & Hc & Hd & Hst).
  unfold insert_opportunities, opportunities_input, text_cell_in,
    text_array_cell_in, text_in.
  simpl. rewrite Hi, Hn, Hc, Hd, Hst. simpl.
  rewrite Hfresh, Huser. reflexivity.
Qed.

(** What a successful [createOpportunity] returns and stores. *)
Lemma createOpportunity_stores (owner : uuid) (new_id : text) (now : timestamptz)
  (name clientName description : text) (stakeholders : list text) (db : database) :
  constraints_hold db ->
  forallb storable (new_id :: name :: clientName :: description :: stakeholders)
  = true ->
  has_opportunity new_id db = false ->
  existsb (N.eqb owner) (auth_users db) = true ->
  EngagementService.blank name = false ->
  EngagementService.blank clientName = false ->
  EngagementService.blank description = false ->
  EngagementService.createOpportunity owner new_id now name clientName
    description stakeholders db
  = Success
      (EngagementService.to_Opportunity
         (created owner new_id now name clientName description stakeholders db)
         (new_opportunity owner new_id now name clientName description stakeholders),
       created owner new_id now name clientName description stakeholders db).
Proof.
  intros C Hs Hfresh Huser Hn Hc Hd.
  assert (Hid : storable new_id = true).
  { cbn [forallb] in Hs. apply andb_true_iff in Hs. apply Hs. }
  unfold EngagementService.createOpportunity.
  rewrite Hn, Hc, Hd. cbn [orb].
  rewrite (insert_new_opportunity _ _ _ _ _ _ _ _ Hs Hfresh Huser). cbn [bind].
  set (r := new_opportunity owner new_id now name clientName description stakeholders).
  rewrite insert_progress_rows.
  - cbn [with_opportunities phase_progress phase_progress_id_seq].
    fold (with_opportunities db (opportunities db ++ [r])).
    change (with_phase_progress (with_opportunities db (opportunities db ++ [r]))
              (phase_progress db
               ++ initial_rows (phase_progress_id_seq db) new_id now true
                    OpportunityPanel.PHASE_ORDER)
              (phase_progress_id_seq db
               + Z.of_nat (List.length OpportunityPanel.PHASE_ORDER)))
      with (created owner new_id now name clientName description stakeholders db).
    assert (Ho : EngagementService.owned owner new_id
                   (created owner new_id now name clientName description
                      stakeholders db) = Some r).
    { exact (owned_new owner new_id r db Hid Hfresh eq_refl eq_refl). }
    rewrite Ho. reflexivity.
  - exact PHASE_ORDER_NoDup.
  - exact Hid.
  - reflexivity.
  - unfold has_opportunity. simpl. rewrite existsb_app. simpl.
    rewrite text_eqb_refl. apply orb_true_r.
  - intros p _. simpl. apply existsb_false. intros x Hx.
    rewrite phase_progress_key_some.
    destruct (pp_opportunity_id x) as [o'|] eqn:E; [|reflexivity].
    apply andb_false_iff. left. apply text_eqb_neq. intros ->.
    exact (no_progress_of_unknown db new_id C Hfresh x Hx E).
  - intros x Hx. simpl in *. exact (phase_progress_pkey_below_seq C x Hx).
Qed.

(** What a successful [createOpportunity] was given. *)
Lemma createOpportunity_accepted
  (owner : uuid) (new_id : text) (now : timestamptz)
  (name clientName description : text) (stakeholders : list text)
  (db db' : database) (o : useOpportunity.Opportunity) :
  EngagementService.createOpportunity owner new_id now name clientName
    description stakeholders db = Success (o, db') ->
  EngagementService.blank name || EngagementService.blank clientName
  || EngagementService.blank description = false
  /\ forallb storable (new_id :: name :: clientName :: description :: stakeholders)
     = true
  /\ has_opportunity new_id db = false
  /\ existsb (N.eqb owner) (auth_users db) = true.
Proof.
  unfold EngagementService.createOpportunity.
  destruct (EngagementService.blank name || EngagementService.blank clientName
            || EngagementService.blank description); [discriminate|].
  destruct (insert_opportunities service_role now _ db) as [d1|e] eqn:E;
    [|discriminate].
  intros _. apply insert_opportunities_ok in E.
  destruct E as (r & Hin & Hr & _ & Hpk & Hfk & _).
  simpl in Hr. injection Hr as <-. simpl in Hpk, Hfk.
  split; [reflexivity|]. split; [|split; assumption].
  unfold opportunities_input, text_cell_in, text_array_cell_in, text_in in Hin.
  cbn [ov_id ov_name ov_client_name ov_description ov_current_phase ov_status
       ov_context_summary ov_stakeholders ov_key_insights] in Hin.
  cbn [forallb].
  destruct (storable new_id); [|discriminate].
  destruct (storable name); [|discriminate].
  destruct (storable clientName); [|discriminate].
  destruct (storable description); [|discriminate].
  destruct (forallb storable stakeholders); [reflexivity|discriminate].
Qed.






(** ** Validation on creation (C4) *)







(** ** The new opportunity (C6) *)



Lemma initial_rows_ids (o : text) (now : timestamptz) :
  forall phases seq entered r,
    In r (initial_rows seq o now entered phases) ->
    pp_opportunity_id r = Some o
    /\ (seq <= pp_id r < seq + Z.of_nat (List.length phases))%Z.
Proof.
  induction phases as [|p rest IH]; intros seq entered r H; [destruct H|].
  cbn [initial_rows List.length] in *. destruct H as [<-|H].
  - simpl. split; [reflexivity|lia].
  - destruct (IH _ _ _ H) as [H1 H2]. split; [exact H1|lia].
Qed.

(** ** One progress row per phase (C5) *)


(** A refused statement leaves every row of every table as it was. *)
Lemma refused_rows (s : statement) (db : database) :
  auth_users (refused s db) = auth_users db
  /\ opportunities (refused s db) = opportunities db
  /\ phase_progress (refused s db) = phase_progress db
  /\ artifacts (refused s db) = artifacts db
  /\ active_opportunity (refused s db) = active_opportunity db.
Proof.
  unfold refused. destruct (input s); destruct s; repeat split.
Qed.



(** ** Changing phase (C7) *)

Lemma PHASES_are_PHASE_ORDER :
  map OpportunityDrawer.id OpportunityDrawer.PHASES = OpportunityPanel.PHASE_ORDER.
Proof. reflexivity. Qed.

(** The drawer asks for any phase the user selects, whatever its place in
    the order, as long as it is not the current one. *)
Lemma handleMoveToPhase_any (st : OpportunityDrawer.State) (p : text) :
  OpportunityDrawer.currentPhase st <> p ->
  OpportunityDrawer.handleMoveToPhase (OpportunityDrawer.handlePhaseClick p st)
  = Some p.
Proof.
  intros H. unfold OpportunityDrawer.handleMoveToPhase. simpl.
  assert (E : text_eqb p (OpportunityDrawer.currentPhase st) = false)
    by (apply text_eqb_neq; congruence).
  rewrite E. reflexivity.
Qed.

Lemma mem_In (s : text) (l : list text) :
  EngagementService.mem s l = true <-> In s l.
Proof.
  unfold EngagementService.mem. rewrite existsb_exists. split.
  - intros (x & Hx & E). apply text_eqb_eq in E. subst. exact Hx.
  - intros H. exists s. split; [exact H|apply text_eqb_refl].
Qed.

Lemma owned_update_phase (owner : uuid) (id phase : text) (o : opportunity)
  (db d : database) :
  opportunities d = opportunities db ->
  EngagementService.owned owner id db = Some o ->
  EngagementService.owned owner id
    (update_opportunities_phase service_role id phase d)
  = Some (set_current_phase phase o).
Proof.
  unfold EngagementService.owned, update_opportunities_phase. simpl.
  intros ->. destruct (storable id); [|discriminate].
  induction (opportunities db) as [|r l IH]; simpl; [discriminate|].
  destruct (text_eqb (o_id r) id) eqn:E; simpl.
  - rewrite E. simpl. destruct (N.eqb (o_user_id r) owner); [congruence|exact IH].
  - rewrite E. simpl. exact IH.
Qed.

Lemma update_phase_keeps_others (who : role) (id phase : text) (db : database)
  (x : opportunity) :
  In x (opportunities db) -> o_id x <> id ->
  In x (opportunities (update_opportunities_phase who id phase db)).
Proof.
  intros Hx Hne. unfold update_opportunities_phase. simpl.
  apply in_map_iff. exists x. split; [|exact Hx].
  apply text_eqb_neq in Hne. rewrite Hne, andb_false_r. reflexivity.
Qed.

(** C7: [changePhase] accepts every phase of PHASE_ORDER from every current
    phase, and the drawer asks for any selected phase other than the current
    one.  Afterwards the opportunity is stored with the target as its
    current phase and every other column as before, and the other
    opportunities are stored as before.  A progress row of the phase that is
    left becomes completed exactly when it was in progress; a row of the
    phase that is entered becomes in progress, with its start date set,
    exactly when it was not started; every other row is untouched.  No
    artifact changes, and no count: each phase has the artifacts it had and
    each progress row the [artifacts_count] it had. *)
Theorem changePhase_bookkeeping
  (owner : uuid) (now : timestamptz) (id target : text) (db : database)
  (o : opportunity) :
  EngagementService.owned owner id db = Some o ->
  In target OpportunityPanel.PHASE_ORDER ->
  exists db' f,
    EngagementService.changePhase owner now id target db = Success db'
    /\ EngagementService.owned owner id db'
       = Some {| o_id := o_id o;
                 o_user_id := o_user_id o;
                 o_name := o_name o;
                 o_client_name := o_client_name o;
                 o_description := o_description o;
                 o_current_phase := target;
                 o_status := o_status o;
                 o_created_at := o_created_at o;
                 o_context_summary := o_context_summary o;
                 o_stakeholders := o_stakeholders o;
                 o_key_insights := o_key_insights o |}
    /\ (forall x, In x (opportunities db) -> o_id x <> id ->
                  In x (opportunities db'))
    /\ artifacts db' = artifacts db
    /\ (forall p, EngagementService.count_phase_artifacts id p db'
                  = EngagementService.count_phase_artifacts id p db)
    /\ active_opportunity db' = active_opportunity db
    /\ phase_progress db' = map f (phase_progress db)
    /\ (forall r,
          pp_id (f r) = pp_id r
          /\ pp_opportunity_id (f r) = pp_opportunity_id r
          /\ pp_phase (f r) = pp_phase r
          /\ pp_artifacts_count (f r) = pp_artifacts_count r
          /\ pp_completion_percentage (f r) = pp_completion_percentage r)
    /\ (forall r,
          phase_progress_key (Some id) (Some (o_current_phase o)) r = true ->
          pp_status r = in_progress ->
          pp_status (f r) = completed /\ pp_start_date (f r) = pp_start_date r)
    /\ (forall r,
          phase_progress_key (Some id) (Some target) r = true ->
          pp_status r = not_started ->
          pp_status (f r) = in_progress /\ pp_start_date (f r) = Some now)
    /\ (forall r,
          ~ (phase_progress_key (Some id) (Some (o_current_phase o)) r = true
             /\ pp_status r = in_progress) ->
          ~ (phase_progress_key (Some id) (Some target) r = true
             /\ pp_status r = not_started) ->
          f r = r)
    /\ (forall st,
          OpportunityDrawer.currentPhase st <> target ->
          OpportunityDrawer.handleMoveToPhase
            (OpportunityDrawer.handlePhaseClick target st) = Some target).
Proof.
  intros Ho Ht.
  set (left := o_current_phase o).
  set (g := fun r : phase_progress_row =>
              if true && phase_progress_key (Some id) (Some left) r
                 && text_eqb (pp_status r) in_progress
              then set_progress completed None r else r).
  set (h := fun r : phase_progress_row =>
              if true && phase_progress_key (Some id) (Some target) r
                 && text_eqb (pp_status r) not_started
              then set_progress in_progress (Some (Some now)) r else r).
  exists (update_opportunities_phase service_role id target
            (EngagementService.enter id target now
               (EngagementService.leave id left db))).
  exists (fun r => h (g r)).
  assert (Hg : forall r, phase_progress_key (Some id) (Some target) (g r)
                         = phase_progress_key (Some id) (Some target) r).
  { intros r. unfold g. destruct (_ && _ && _); reflexivity. }
  split; [|split; [|split; [|split; [|split; [|split; [|split; [|split; [|split;
    [|split; [|split]]]]]]]]]].
  - unfold EngagementService.changePhase.
    apply mem_In in Ht. rewrite Ht, Ho. reflexivity.
  - apply owned_update_phase with (db := db); [reflexivity|exact Ho].
  - intros x Hx Hne. apply update_phase_keeps_others; assumption.
  - reflexivity.
  - reflexivity.
  - reflexivity.
  - simpl. rewrite map_map. reflexivity.
  - intros r. unfold h, g.
    destruct (true && phase_progress_key (Some id) (Some left) r
              && text_eqb (pp_status r) in_progress);
      match goal with |- context [if ?c then _ else _] => destruct c end;
      repeat split.
  - intros r Hk Hs. unfold h. rewrite Hg.
    assert (Eg : g r = set_progress completed None r).
    { unfold g. fold left in Hk. rewrite Hk, Hs. reflexivity. }
    rewrite Eg. simpl.
    rewrite andb_false_r. split; reflexivity.
  - intros r Hk Hs. unfold h. rewrite Hg, Hk.
    assert (Eg : g r = r).
    { unfold g. rewrite Hs, andb_false_r. reflexivity. }
    rewrite Eg, Hs. split; reflexivity.
  - intros r Hl He.
    assert (Eg : g r = r).
    { unfold g. fold left in Hl.
      destruct (phase_progress_key (Some id) (Some left) r); [|reflexivity].
      destruct (text_eqb (pp_status r) in_progress) eqn:E; [|reflexivity].
      apply text_eqb_eq in E. tauto. }
    unfold h. rewrite Eg.
    destruct (phase_progress_key (Some id) (Some target) r); [|reflexivity].
    destruct (text_eqb (pp_status r) not_started) eqn:E; [|reflexivity].
    apply text_eqb_eq in E. tauto.
  - intros st. apply handleMoveToPhase_any.
Qed.

Lemma changePhase_bookkeeping_witness :
  exists db',
    EngagementService.changePhase alice 7%Z opp_a (js "discovery") pain_point_db
    = Success db'
    /\ option_map o_current_phase (EngagementService.owned alice opp_a db')
       = Some (js "discovery")
    /\ map a_phase (artifacts db') = [pre_assessment]
    /\ EngagementService.count_phase_artifacts opp_a pre_assessment db' = 1
    /\ map pp_artifacts_count (phase_progress db')
       = [Some 1; Some 0; Some 0; Some 0]%Z.
Proof.
  destruct (changePhase_bookkeeping alice 7%Z opp_a (js "discovery") pain_point_db
              (new_opportunity alice opp_a 0%Z (js "Acme Transformation")
                 (js "Acme Corp") (js "Digital transformation") [])
              eq_refl (or_intror (or_introl eq_refl)))
    as (db' & f & H & Ho & _ & Ha & Hc & _ & Hp & Hf & _).
  exists db'. split; [exact H|]. split; [rewrite Ho; reflexivity|].
  split; [rewrite Ha; reflexivity|]. split; [rewrite Hc; reflexivity|].
  rewrite Hp, map_map.
  rewrite (map_ext (fun r => pp_artifacts_count (f r)) pp_artifacts_count).
  - reflexivity.
  - intros r. apply Hf.
Defined.

(** ** Deleting an opportunity (C3) *)

Lemma filter_all {A : Type} (l : list A) : filter (fun _ => true) l = l.
Proof. induction l as [|a l IH]; simpl; [reflexivity|rewrite IH; reflexivity]. Qed.

Lemma select_artifacts_service (db : database) :
  select_artifacts service_role db = artifacts db.
Proof. apply filter_all. Qed.

Lemma select_active_opportunity_service (db : database) :
  select_active_opportunity service_role db = active_opportunity db.
Proof. apply filter_all. Qed.

(** The keys a DELETE by id removes: that id, if it is stored. *)
Lemma references_deleted (id : text) (db : database) (ref : option text) :
  has_opportunity id db = true ->
  references
    (map o_id (filter (fun r => true && text_eqb (o_id r) id) (opportunities db)))
    ref = true
  <-> ref = Some id.
Proof.
  intros Hhas. destruct ref as [i|]; simpl; [|split; discriminate].
  rewrite existsb_exists. split.
  - intros (x & Hx & E). apply text_eqb_eq in E. subst x.
    apply in_map_iff in Hx. destruct Hx as (r & Hr & Hin).
    apply filter_In in Hin. destruct Hin as [_ Hid]. simpl in Hid.
    apply text_eqb_eq in Hid. congruence.
  - intros E. injection E as ->. exists id. split; [|apply text_eqb_refl].
    unfold has_opportunity in Hhas. apply existsb_exists in Hhas.
    destruct Hhas as (r & Hr & Hid). apply in_map_iff. exists r.
    split; [apply text_eqb_eq; exact Hid|].
    apply filter_In. split; [exact Hr|exact Hid].
Qed.

Lemma owned_has (owner : uuid) (id : text) (db : database) (o : opportunity) :
  EngagementService.owned owner id db = Some o ->
  has_opportunity id db = true /\ In o (opportunities db)
  /\ o_id o = id /\ o_user_id o = owner.
Proof.
  unfold EngagementService.owned. destruct (storable id); [|discriminate].
  intros H.
  apply find_some in H. destruct H as [Hin H].
  apply andb_true_iff in H. destruct H as [Hid Hu].
  apply text_eqb_eq in Hid. apply N.eqb_eq in Hu.
  repeat split; try assumption.
  apply has_opportunity_in. rewrite <- Hid. apply in_map. exact Hin.
Qed.


Lemma pkey_unique {A : Type} (key : A -> text) (l : list A) (a b : A) :
  NoDup (map key l) -> In a l -> In b l -> key a = key b -> a = b.
Proof.
  induction l as [|x l IH]; simpl; intros Hnd Ha Hb E; [destruct Ha|].
  inversion Hnd as [|? ? Hx Hl]; subst.
  destruct Ha as [->|Ha], Hb as [->|Hb]; auto.
  - exfalso. apply Hx. rewrite E. apply in_map. exact Hb.
  - exfalso. apply Hx. rewrite <- E. apply in_map. exact Ha.
Qed.

Lemma pointer_cleared (user : uuid) (id : text) (gone : option text -> bool)
  (l : list active_opportunity_row) :
  gone (Some id) = true ->
  match find (fun r => N.eqb (ao_user_id r) user) l with
  | Some r => ao_opportunity_id r
  | None => None
  end = Some id ->
  match find (fun r => N.eqb (ao_user_id r) user)
             (map (fun r => if gone (ao_opportunity_id r)
                            then clear_opportunity_id r else r) l) with
  | Some r => ao_opportunity_id r
  | None => None
  end = None.
Proof.
  intros Hg. induction l as [|r l IH]; simpl; [discriminate|].
  destruct (N.eqb (ao_user_id r) user) eqn:E.
  - intros H. rewrite H, Hg. simpl. rewrite E. reflexivity.
  - intros H. destruct (gone (ao_opportunity_id r)); simpl; rewrite E; auto.
Qed.

(** C3: deleting an opportunity removes it together with every artifact and
    every progress row that refers to it, so that each of its artifacts is
    NotFound by id afterwards, while the other artifacts stay; the pointer of
    the owner who had it active is reset, and [getActiveContext] then answers
    that no opportunity is active. *)
Theorem delete_cascades
  (owner : uuid) (id : text) (db : database) (o : opportunity) :
  constraints_hold db ->
  EngagementService.owned owner id db = Some o ->
  exists db',
    EngagementService.deleteOpportunity owner id db = Success db'
    /\ has_opportunity id db' = false
    /\ (forall a, In a (artifacts db') -> a_opportunity_id a <> Some id)
    /\ (forall r, In r (phase_progress db') -> pp_opportunity_id r <> Some id)
    /\ (forall a, In a (artifacts db) -> a_opportunity_id a = Some id ->
          EngagementService.getArtifact (a_id a) db' = Failure NotFound)
    /\ (forall a, In a (artifacts db) -> a_opportunity_id a <> Some id ->
          In a (artifacts db'))
    /\ (active_pointer service_role owner db = Some id ->
        active_pointer service_role owner db' = None
        /\ EngagementService.getActive owner db' = None
        /\ EngagementService.getActiveContext owner db' = None).
Proof.
  intros C Ho.
  destruct (owned_has owner id db o Ho) as (Hhas & _ & _ & _).
  pose proof (references_deleted id db) as Hgone.
  exists (delete_opportunities service_role id db).
  split; [|split; [|split; [|split; [|split; [|split]]]]].
  - unfold EngagementService.deleteOpportunity. rewrite Ho. reflexivity.
  - unfold has_opportunity. simpl. apply existsb_false. intros x Hx.
    apply filter_In in Hx. destruct Hx as [_ Hx]. simpl in Hx.
    apply negb_true_iff in Hx. exact Hx.
  - intros a Ha E. simpl in Ha. apply filter_In in Ha. destruct Ha as [_ Ha].
    apply negb_true_iff in Ha.
    assert (H : references
                  (map o_id (filter (fun r => true && text_eqb (o_id r) id)
                                    (opportunities db)))
                  (a_opportunity_id a) = true)
      by (apply Hgone; assumption).
    simpl in H. congruence.
  - intros r Hr E. simpl in Hr. apply filter_In in Hr. destruct Hr as [_ Hr].
    apply negb_true_iff in Hr.
    assert (H : references
                  (map o_id (filter (fun r => true && text_eqb (o_id r) id)
                                    (opportunities db)))
                  (pp_opportunity_id r) = true)
      by (apply Hgone; assumption).
    simpl in H. congruence.
  - intros a Ha E. unfold EngagementService.getArtifact, select_artifact_by_id.
    rewrite select_artifacts_service.
    destruct (find _ _) as [b|] eqn:F; [|reflexivity].
    exfalso. apply find_some in F. destruct F as [Hb Hid].
    apply text_eqb_eq in Hid. simpl in Hb. apply filter_In in Hb.
    destruct Hb as [Hb Hkeep].
    assert (b = a)
      by (apply (pkey_unique a_id (artifacts db)); auto using artifacts_pkey).
    subst b. apply negb_true_iff in Hkeep.
    assert (H : references
                  (map o_id (filter (fun r => true && text_eqb (o_id r) id)
                                    (opportunities db)))
                  (a_opportunity_id a) = true)
      by (apply Hgone; assumption).
    simpl in H. congruence.
  - intros a Ha Hne. simpl. apply filter_In. split; [exact Ha|].
    apply negb_true_iff.
    destruct (references _ (a_opportunity_id a)) eqn:E; [|reflexivity].
    apply Hgone in E; [contradiction|exact Hhas].
  - intros Hp.
    assert (Hptr : active_pointer service_role owner
                     (delete_opportunities service_role id db) = None).
    { unfold active_pointer in *.
      rewrite select_active_opportunity_service in *. simpl.
      apply pointer_cleared with (id := id); [|exact Hp].
      apply Hgone; [exact Hhas|reflexivity]. }
    split; [exact Hptr|].
    unfold EngagementService.getActiveContext, EngagementService.getActive.
    rewrite Hptr. split; reflexivity.
Qed.

Ltac closed_nodup :=
  vm_compute;
  repeat (constructor;
          [ let H := fresh in
            intros H; repeat (destruct H as [H|H]; [discriminate H|]); exact H
          | ]);
  constructor.

Ltac closed_rows :=
  let r := fresh in
  let H := fresh in
  intros r H; vm_compute in H;
  repeat (destruct H as [<-|H]; [vm_compute; reflexivity|]);
  destruct H.

Ltac closed_constraints :=
  constructor; [closed_nodup | closed_nodup | closed_nodup | closed_rows ..].

Lemma active_db_constraints : constraints_hold active_db.
Proof. closed_constraints. Qed.

Lemma delete_cascades_witness :
  exists db',
    EngagementService.deleteOpportunity alice opp_a active_db = Success db'
    /\ EngagementService.getArtifact (js "art-1") db' = Failure NotFound
    /\ EngagementService.getActiveContext alice db' = None.
Proof.
  destruct (delete_cascades alice opp_a active_db
              (new_opportunity alice opp_a 0%Z (js "Acme Transformation")
                 (js "Acme Corp") (js "Digital transformation") [])
              active_db_constraints eq_refl)
    as (db' & H & _ & _ & _ & Hart & _ & Hctx).
  exists db'. split; [exact H|]. split; [|exact (proj2 (proj2 (Hctx eq_refl)))].
  refine (Hart {| a_id := js "art-1";
                  a_opportunity_id := Some opp_a;
                  a_title := js "Manual approval bottleneck";
                  a_content := js "...";
                  a_artifact_type := js "pain_point";
                  a_phase := pre_assessment;
                  a_created_by := None;
                  a_created_at := Some 1%Z;
                  a_tags := Some [] |} _ eq_refl).
  left. reflexivity.
Defined.

(** ** The active opportunity (C2) *)

Lemma has_pointer_in (user : uuid) (db : database) :
  has_pointer user db = true <-> In user (map ao_user_id (active_opportunity db)).
Proof.
  unfold has_pointer. rewrite existsb_exists, in_map_iff. split.
  - intros (r & Hr & E). apply N.eqb_eq in E. exists r. auto.
  - intros (r & E & Hr). exists r. split; [exact Hr|apply N.eqb_eq; exact E].
Qed.


Lemma NoDup_snoc {A : Type} (l : list A) (x : A) :
  NoDup l -> ~ In x l -> NoDup (l ++ [x]).
Proof.
  induction l as [|a l IH]; simpl; intros Hnd Hx.
  - constructor; [intros []|constructor].
  - inversion Hnd as [|? ? Ha Hl]; subst. constructor.
    + intros H. apply in_app_or in H. destruct H as [H|[H|[]]]; [tauto|].
      apply Hx. left. symmetry. exact H.
    + apply IH; [exact Hl|tauto].
Qed.


Section Pointer_update.

Variables (owner : uuid) (id : text) (now : timestamptz).

Let g (r : active_opportunity_row) : active_opportunity_row :=
  if N.eqb (ao_user_id r) owner then set_pointer (Some id) now r else r.






End Pointer_update.



(** ** Artifact counts (C1) *)

(** What a successful [addArtifact] does to the tables: one artifact more,
    one UPDATE that adds one to the rows of the pair, and nothing else. *)
Lemma add_effect (r : EngagementService.add_request) (db db' : database) :
  EngagementService.add r db = Success db' ->
  opportunities db' = opportunities db
  /\ active_opportunity db' = active_opportunity db
  /\ phase_progress db'
     = map (incremented (EngagementService.add_opportunity r)
              (EngagementService.add_phase r))
           (phase_progress db)
  /\ exists a,
       artifacts db' = artifacts db ++ [a]
       /\ a_id a = EngagementService.add_id r
       /\ a_opportunity_id a = Some (EngagementService.add_opportunity r)
       /\ a_phase a = EngagementService.add_phase r.
Proof.
  unfold EngagementService.add, EngagementService.addArtifact.
  destruct (negb _ || negb _ || negb _); [discriminate|].
  destruct (EngagementService.owned _ _ db); [|discriminate].
  unfold insert_artifacts.
  destruct (artifacts_input _) as [[]|e]; [|discriminate]. simpl.
  destruct (has_artifact (EngagementService.add_id r) db); [discriminate|].
  destruct (has_opportunity (EngagementService.add_opportunity r) db);
    [|discriminate].
  simpl. unfold increment_artifacts_count. simpl.
  destruct (existsb _ (phase_progress db)); [discriminate|].
  simpl. intros H. injection H as <-. simpl.
  repeat split. eexists. repeat split.
Qed.

Lemma count_after_add (o p : text) (a : artifact) (db db' : database) :
  artifacts db' = artifacts db ++ [a] ->
  EngagementService.count_phase_artifacts o p db'
  = EngagementService.count_phase_artifacts o p db
    + (if EngagementService.of_opportunity o (a_opportunity_id a)
          && text_eqb (a_phase a) p then 1 else 0).
Proof.
  intros E. unfold EngagementService.count_phase_artifacts.
  rewrite E, filter_app, length_app. simpl.
  destruct (EngagementService.of_opportunity o (a_opportunity_id a)
            && text_eqb (a_phase a) p); reflexivity.
Qed.

(** One progress row through one call: a count that was the number of
    artifacts of its pair still is. *)
Lemma add_keeps_count (r : EngagementService.add_request) (db db' : database)
  (x : phase_progress_row) (o' : text) :
  EngagementService.add r db = Success db' ->
  pp_opportunity_id x = Some o' ->
  pp_artifacts_count x
  = Some (Z.of_nat (EngagementService.count_phase_artifacts o' (pp_phase x) db)) ->
  pp_artifacts_count
    (incremented (EngagementService.add_opportunity r)
       (EngagementService.add_phase r) x)
  = Some (Z.of_nat (EngagementService.count_phase_artifacts o' (pp_phase x) db')).
Proof.
  intros H Eo Hc.
  destruct (add_effect r db db' H) as (_ & _ & _ & a & Ha & _ & Hao & Hap).
  set (o := EngagementService.add_opportunity r) in *.
  set (p := EngagementService.add_phase r) in *.
  rewrite (count_after_add o' _ a db db' Ha), Hao, Hap.
  unfold incremented. rewrite phase_progress_key_some, Eo.
  destruct (text_eqb o' o && text_eqb (pp_phase x) p) eqn:K.
  - apply andb_true_iff in K. destruct K as [K1 K2].
    apply text_eqb_eq in K1, K2. subst o'.
    simpl. rewrite Hc, K2.
    unfold EngagementService.of_opportunity. simpl.
    rewrite !text_eqb_refl. simpl. f_equal. lia.
  - rewrite Hc.
    unfold EngagementService.of_opportunity. simpl.
    rewrite (text_eqb_sym o o'), (text_eqb_sym p (pp_phase x)).
    replace ((if text_eqb o' o then true else false) && text_eqb (pp_phase x) p)
      with false by (rewrite <- K; destruct (text_eqb o' o); reflexivity).
    rewrite Nat.add_0_r. reflexivity.
Qed.

(** The two statements of a successful [addArtifact]. *)
Lemma add_steps (r : EngagementService.add_request) (db db' : database) :
  EngagementService.add r db = Success db' ->
  exists a,
    insert_artifacts service_role (EngagementService.add_now r)
      {| av_id := VALUE (EngagementService.add_id r);
         av_opportunity_id := VALUE (EngagementService.add_opportunity r);
         av_title := VALUE (EngagementService.add_title r);
         av_content := VALUE (EngagementService.add_content r);
         av_artifact_type := VALUE (EngagementService.add_type r);
         av_phase := VALUE (EngagementService.add_phase r);
         av_created_by := NULL;
         av_created_at := DEFAULT;
         av_tags := VALUE (EngagementService.add_tags r) |} db
    = Ok (with_artifacts db (artifacts db ++ [a]))
    /\ increment_artifacts_count service_role
         (Some (EngagementService.add_opportunity r))
         (Some (EngagementService.add_phase r))
         (with_artifacts db (artifacts db ++ [a])) = Ok db'.
Proof.
  unfold EngagementService.add, EngagementService.addArtifact.
  destruct (negb _ || negb _ || negb _); [discriminate|].
  destruct (EngagementService.owned _ _ db); [|discriminate].
  destruct (insert_artifacts service_role _ _ db) as [d1|e] eqn:E; [|discriminate].
  cbn [bind EngagementService.lift].
  destruct (increment_artifacts_count _ _ _ d1) as [d2|e] eqn:E2; [|discriminate].
  intros H. injection H as <-.
  pose proof E as E'. apply insert_artifacts_ok in E'.
  destruct E' as (a & _ & _ & _ & _ & _ & ->).
  exists a. split; [reflexivity|exact E2].
Qed.

(** A sequence of calls, row by row. *)
Lemma add_all_counts (rs : list EngagementService.add_request) :
  forall db,
    opportunities (EngagementService.add_all rs db) = opportunities db
    /\ active_opportunity (EngagementService.add_all rs db) = active_opportunity db
    /\ exists F,
         phase_progress (EngagementService.add_all rs db)
         = map F (phase_progress db)
         /\ (forall x, pp_id (F x) = pp_id x
                       /\ pp_opportunity_id (F x) = pp_opportunity_id x
                       /\ pp_phase (F x) = pp_phase x)
         /\ (forall x o',
               pp_opportunity_id x = Some o' ->
               pp_artifacts_count x
               = Some (Z.of_nat (EngagementService.count_phase_artifacts o'
                                   (pp_phase x) db)) ->
               pp_artifacts_count (F x)
               = Some (Z.of_nat (EngagementService.count_phase_artifacts o'
                                   (pp_phase x)
                                   (EngagementService.add_all rs db)))).
Proof.
  induction rs as [|q l IH]; intros db.
  - split; [reflexivity|]. split; [reflexivity|].
    exists (fun x => x). simpl. rewrite map_id.
    repeat split. intros x o' _ H. exact H.
  - simpl. destruct (EngagementService.add q db) as [d'|e] eqn:E; [|apply IH].
    destruct (IH d') as (Ho & Hact & F & Hmap & Hf & Hc).
    destruct (add_effect q db d' E) as (Ho' & Hact' & Hpp & _).
    split; [rewrite Ho; exact Ho'|]. split; [rewrite Hact; exact Hact'|].
    set (g := incremented (EngagementService.add_opportunity q)
                (EngagementService.add_phase q)) in *.
    assert (Hg : forall x, pp_id (g x) = pp_id x
                           /\ pp_opportunity_id (g x) = pp_opportunity_id x
                           /\ pp_phase (g x) = pp_phase x).
    { intros x. unfold g, incremented.
      destruct (phase_progress_key _ _ x); repeat split. }
    exists (fun x => F (g x)).
    split; [rewrite Hmap, Hpp, map_map; reflexivity|].
    split.
    + intros x. destruct (Hf (g x)) as (H1 & H2 & H3).
      destruct (Hg x) as (G1 & G2 & G3).
      rewrite H1, H2, H3. repeat split; assumption.
    + intros x o' Eo Hx.
      destruct (Hg x) as (_ & G2 & G3).
      pose proof (add_keeps_count q db d' x o' E Eo Hx) as Hi. fold g in Hi.
      rewrite <- G3 in Hi |- *.
      apply Hc; [rewrite G2; exact Eo|exact Hi].
Qed.

(** C1, as stated, fails on the code: the opportunity's count is not kept
    by an update expression.  The [opportunities] table has no count column;
    neither [increment_artifacts_count] nor [addArtifact] touches the
    opportunity's row, before and after the call it is the same row.  The
    count of the API object goes from 0 to 1 all the same, because it is
    counted from the artifacts, not stored. *)
Lemma opportunity_count_is_not_stored :
  (exists db',
     increment_artifacts_count service_role (Some opp_a) (Some pre_assessment)
       acme_db = Ok db'
     /\ opportunities db' = opportunities acme_db)
  /\ exists db',
       EngagementService.add pain_point_request acme_db = Success db'
       /\ map pp_artifacts_count (phase_progress acme_db)
          = [Some 0; Some 0; Some 0; Some 0]%Z
       /\ map pp_artifacts_count (phase_progress db')
          = [Some 1; Some 0; Some 0; Some 0]%Z
       /\ opportunities db' = opportunities acme_db
       /\ map (fun x => useOpportunity.opp_artifactsCount
                          (EngagementService.to_Opportunity acme_db x))
              (opportunities acme_db) = [0%Z]
       /\ map (fun x => useOpportunity.opp_artifactsCount
                          (EngagementService.to_Opportunity db' x))
              (opportunities db') = [1%Z].
Proof.
  split.
  - eexists. split; [vm_compute; reflexivity|reflexivity].
  - eexists. split; [vm_compute; reflexivity|]. repeat split.
Qed.

(** C1, amended: a successful [addArtifact] that files an artifact under
    phase p of opportunity o stores that one artifact and then calls
    [increment_artifacts_count] once.  The call is one UPDATE, which sets
    [artifacts_count] to [artifacts_count + 1] in the progress rows of
    (o, p) and changes no other row and no other table: the rows of
    [opportunities] and of [active_opportunity] are as before.  The
    opportunity's artifactsCount is not stored; it is the number of the
    opportunity's artifacts, and so it is one more after the call, for o
    and for no other opportunity.  After any sequence of calls, every
    progress row is still there under its key, each row whose count was the
    number of artifacts of its pair before holds the number of artifacts of
    its pair, whatever the other rows hold, and every opportunity's
    artifactsCount is the number of its artifacts. *)
Theorem phase_counts_follow_artifacts
  (r : EngagementService.add_request) (rs : list EngagementService.add_request)
  (db db1 : database) :
  let o := EngagementService.add_opportunity r in
  let p := EngagementService.add_phase r in
  (EngagementService.add r db = Success db1 ->
   exists a,
     a_opportunity_id a = Some o /\ a_phase a = p
     /\ artifacts db1 = artifacts db ++ [a]
     /\ increment_artifacts_count service_role (Some o) (Some p)
          (with_artifacts db (artifacts db ++ [a])) = Ok db1
     /\ phase_progress db1
        = map (fun x => if phase_progress_key (Some o) (Some p) x
                        then set_artifacts_count (plus_one (pp_artifacts_count x)) x
                        else x)
              (phase_progress db)
     /\ opportunities db1 = opportunities db
     /\ active_opportunity db1 = active_opportunity db
     /\ (forall x,
           useOpportunity.opp_artifactsCount (EngagementService.to_Opportunity db1 x)
           = (useOpportunity.opp_artifactsCount (EngagementService.to_Opportunity db x)
              + (if text_eqb (o_id x) o then 1 else 0))%Z))
  /\ (exists F,
        phase_progress (EngagementService.add_all rs db)
        = map F (phase_progress db)
        /\ (forall x, pp_id (F x) = pp_id x
                      /\ pp_opportunity_id (F x) = pp_opportunity_id x
                      /\ pp_phase (F x) = pp_phase x)
        /\ (forall x o',
              pp_opportunity_id x = Some o' ->
              pp_artifacts_count x
              = Some (Z.of_nat (EngagementService.count_phase_artifacts o'
                                  (pp_phase x) db)) ->
              pp_artifacts_count (F x)
              = Some (Z.of_nat (EngagementService.count_phase_artifacts o'
                                  (pp_phase x)
                                  (EngagementService.add_all rs db)))))
  /\ opportunities (EngagementService.add_all rs db) = opportunities db
  /\ active_opportunity (EngagementService.add_all rs db) = active_opportunity db
  /\ (forall x,
        useOpportunity.opp_artifactsCount
          (EngagementService.to_Opportunity (EngagementService.add_all rs db) x)
        = Z.of_nat
            (List.length
               (filter (fun a => is_true (sql_eq text_eqb (a_opportunity_id a)
                                            (Some (o_id x))))
                       (artifacts (EngagementService.add_all rs db))))).
Proof.
  cbv zeta. split.
  - intros H.
    destruct (add_effect r db db1 H) as (Ho & Hact & Hpp & a & Ha & _ & Hao & Hap).
    destruct (add_steps r db db1 H) as (a' & _ & Hinc).
    assert (a' = a).
    { apply increment_artifacts_count_inv in Hinc.
      apply (f_equal artifacts) in Hinc. simpl in Hinc. rewrite Ha in Hinc.
      apply app_inj_tail in Hinc. destruct Hinc as [_ Hinc]. congruence. }
    subst a'.
    exists a. repeat split; try assumption.
    intros x. unfold EngagementService.to_Opportunity.
    cbn [useOpportunity.opp_artifactsCount].
    unfold EngagementService.count_artifacts.
    rewrite Ha, filter_app, length_app. cbn [filter]. rewrite Hao.
    unfold EngagementService.of_opportunity. cbn [sql_eq is_true].
    rewrite (text_eqb_sym (EngagementService.add_opportunity r) (o_id x)).
    destruct (text_eqb (o_id x) (EngagementService.add_opportunity r)); simpl; lia.
  - destruct (add_all_counts rs db) as (Ho & Hact & F & Hmap & Hf & Hc).
    split; [exists F; repeat split; try assumption; apply Hf|].
    split; [exact Ho|]. split; [exact Hact|]. reflexivity.
Qed.

Lemma phase_counts_follow_artifacts_witness :
  phase_progress pain_point_db
  = map (incremented opp_a pre_assessment) (phase_progress acme_db)
  /\ map pp_artifacts_count
       (phase_progress
          (EngagementService.add_all [pain_point_request; pain_point_request]
             acme_db))
     = [Some 1; Some 0; Some 0; Some 0]%Z
  /\ map (fun x => EngagementService.count_phase_artifacts opp_a (pp_phase x)
                     (EngagementService.add_all
                        [pain_point_request; pain_point_request] acme_db))
         (phase_progress acme_db)
     = [1; 0; 0; 0].
Proof.
  assert (H : EngagementService.add pain_point_request acme_db
              = Success pain_point_db) by (vm_compute; reflexivity).
  destruct (phase_counts_follow_artifacts pain_point_request
              [pain_point_request; pain_point_request] acme_db pain_point_db)
    as (Hone & _).
  destruct (Hone H) as (a & _ & _ & _ & _ & Hpp & _).
  split; [exact Hpp|]. split; reflexivity.
Defined.

(** ** The single-user pointer table *)

(** Running the single-user script again adds a row: the seeding INSERT
    never conflicts, so nothing in that schema keeps the table at one row. *)
Lemma seed_twice_two_rows (now now' : timestamptz) :
  List.length
    (SingleUser.rows (SingleUser.seed now' (SingleUser.seed now SingleUser.created_table)))
  = 2.
Proof. reflexivity. Qed.

(** ** Row-level security (C8) *)

(** C8, as stated, fails on the code.  Keys are table-wide: with two
    databases that look the same to [bob], his INSERT of an opportunity is
    accepted in one and refused in the other, where [alice] holds the key.
    And references cross owners: [bob] may point his active-opportunity row
    at [alice]'s opportunity, and her DELETE then resets his row. *)
Lemma isolation_is_not_complete :
  (forall q, run_query (api_role (Some bob)) q acme_db
             = run_query (api_role (Some bob)) q two_users)
  /\ execute (api_role (Some bob)) 5%Z
       (INSERT_opportunities (acme_values opp_a bob)) acme_db
     = Error (unique_violation "opportunities_pkey")
  /\ (exists db', execute (api_role (Some bob)) 5%Z
                    (INSERT_opportunities (acme_values opp_a bob)) two_users
                  = Ok db')
  /\ execute (api_role (Some bob)) 3%Z
       (INSERT_active_opportunity bob_points_at_alice) acme_db
     = Ok bob_pointer_db
  /\ map ao_opportunity_id
         (select_active_opportunity (api_role (Some bob)) bob_pointer_db)
     = [Some opp_a]
  /\ (exists db',
        execute (api_role (Some alice)) 6%Z (DELETE_opportunities opp_a)
          bob_pointer_db = Ok db'
        /\ map ao_opportunity_id
               (select_active_opportunity (api_role (Some bob)) db')
           = [None]).
Proof.
  split; [intros []; reflexivity|].
  split; [reflexivity|].
  split; [eexists; vm_compute; reflexivity|].
  split; [vm_compute; reflexivity|].
  split; [reflexivity|].
  eexists. split; [vm_compute; reflexivity|reflexivity].
Qed.

Lemma filter_filter_keep {A : Type} (P Q : A -> bool) (l : list A) :
  (forall x, In x l -> P x = true -> Q x = true) ->
  filter P (filter Q l) = filter P l.
Proof.
  induction l as [|a l IH]; simpl; intros H; [reflexivity|].
  assert (IH' : filter P (filter Q l) = filter P l)
    by (apply IH; intros x Hx; apply H; right; exact Hx).
  destruct (Q a) eqn:EQ; simpl.
  - rewrite IH'. reflexivity.
  - destruct (P a) eqn:EP; [|exact IH'].
    rewrite (H a (or_introl eq_refl) EP) in EQ. discriminate.
Qed.

Lemma filter_map_keep {A : Type} (P : A -> bool) (g : A -> A) (l : list A) :
  (forall x, In x l -> P (g x) = P x) ->
  (forall x, In x l -> P x = true -> g x = x) ->
  filter P (map g l) = filter P l.
Proof.
  induction l as [|a l IH]; simpl; intros H1 H2; [reflexivity|].
  rewrite (H1 a (or_introl eq_refl)).
  assert (IH' : filter P (map g l) = filter P l).
  { apply IH; [intros x Hx; apply H1|intros x Hx; apply H2]; right; exact Hx. }
  rewrite IH'.
  destruct (P a) eqn:EP; [|reflexivity].
  rewrite (H2 a (or_introl eq_refl) EP). reflexivity.
Qed.

Lemma filter_snoc_drop {A : Type} (P : A -> bool) (l : list A) (r : A) :
  P r = false -> filter P (l ++ [r]) = filter P l.
Proof.
  intros H. rewrite filter_app. simpl. rewrite H. apply app_nil_r.
Qed.

Lemma uid_is_eq (u w : uuid) : uid_is (Some u) w = true <-> w = u.
Proof.
  unfold uid_is. simpl. destruct (N.eqb u w) eqn:E.
  - apply N.eqb_eq in E. split; [congruence|reflexivity].
  - apply N.eqb_neq in E. split; [discriminate|congruence].
Qed.

Lemma uid_is_other (u v w : uuid) :
  u <> v -> uid_is (Some v) w = true -> uid_is (Some u) w = false.
Proof.
  intros Hne H. apply uid_is_eq in H. subst w.
  destruct (uid_is (Some u) v) eqn:E; [|reflexivity].
  apply uid_is_eq in E. congruence.
Qed.

Lemma owns_opportunity_in (u : uuid) (db : database) (ref : option text) :
  owns_opportunity (Some u) db ref = true
  <-> exists o, In o (opportunities db) /\ ref = Some (o_id o) /\ o_user_id o = u.
Proof.
  unfold owns_opportunity. rewrite existsb_exists. split.
  - intros (o & Ho & H). exists o. split; [exact Ho|].
    destruct ref as [i|]; simpl in H.
    + destruct (text_eqb (o_id o) i) eqn:E1, (N.eqb (o_user_id o) u) eqn:E2;
        try discriminate.
      apply text_eqb_eq in E1. apply N.eqb_eq in E2. split; congruence.
    + destruct (N.eqb (o_user_id o) u); discriminate.
  - intros (o & Ho & -> & <-). exists o. split; [exact Ho|]. simpl.
    rewrite text_eqb_refl, N.eqb_refl. reflexivity.
Qed.

(** With unique keys an opportunity has one owner. *)
Lemma owns_exclusive (u v : uuid) (db : database) (ref : option text) :
  NoDup (map o_id (opportunities db)) -> u <> v ->
  owns_opportunity (Some v) db ref = true ->
  owns_opportunity (Some u) db ref = false.
Proof.
  intros Hnd Hne Hv.
  destruct (owns_opportunity (Some u) db ref) eqn:Hu; [|reflexivity].
  apply owns_opportunity_in in Hv, Hu.
  destruct Hv as (o1 & H1 & E1 & U1), Hu as (o2 & H2 & E2 & U2).
  assert (o1 = o2)
    by (apply (pkey_unique o_id (opportunities db)); congruence).
  congruence.
Qed.

Lemma existsb_filter {A : Type} (P g : A -> bool) (l : list A) :
  existsb g (filter P l) = existsb (fun x => P x && g x) l.
Proof.
  induction l as [|a l IH]; simpl; [reflexivity|].
  destruct (P a); simpl; rewrite IH; reflexivity.
Qed.

(** Ownership is decided by the rows the owner can read. *)
Lemma owns_opportunity_select (u : uuid) (db : database) (ref : option text) :
  owns_opportunity (Some u) db ref
  = existsb (fun o => is_true (sql_eq text_eqb (Some (o_id o)) ref))
            (select_opportunities (api_role (Some u)) db).
Proof.
  unfold owns_opportunity, select_opportunities. rewrite existsb_filter.
  induction (opportunities db) as [|o l IH]; [reflexivity|].
  cbn [existsb]. rewrite IH. f_equal.
  unfold policy_opportunities, uid_is. simpl. rewrite (N.eqb_sym u).
  destruct ref as [i|]; simpl;
    [destruct (text_eqb (o_id o) i)|]; destruct (N.eqb (o_user_id o) u);
    reflexivity.
Qed.

Lemma owns_same (u : uuid) (db db' : database) :
  select_opportunities (api_role (Some u)) db'
  = select_opportunities (api_role (Some u)) db ->
  forall ref, owns_opportunity (Some u) db' ref = owns_opportunity (Some u) db ref.
Proof.
  intros H ref. rewrite !owns_opportunity_select, H. reflexivity.
Qed.

Section Isolation.

Variables u v : uuid.
Hypothesis distinct : u <> v.

Let Ru : role := api_role (Some u).
Let Rv : role := api_role (Some v).

(** What [u] reads from the dependent tables follows from what [u] reads
    from [opportunities] and from the rows of [u]'s opportunities. *)
Lemma reads_from_rows (db db' : database) :
  select_opportunities Ru db' = select_opportunities Ru db ->
  filter (fun r => owns_opportunity (Some u) db (pp_opportunity_id r))
         (phase_progress db')
  = filter (fun r => owns_opportunity (Some u) db (pp_opportunity_id r))
           (phase_progress db) ->
  filter (fun r => owns_opportunity (Some u) db (a_opportunity_id r))
         (artifacts db')
  = filter (fun r => owns_opportunity (Some u) db (a_opportunity_id r))
           (artifacts db) ->
  select_phase_progress Ru db' = select_phase_progress Ru db
  /\ select_artifacts Ru db' = select_artifacts Ru db.
Proof.
  intros Ho Hp Ha. pose proof (owns_same u db db' Ho) as Hsame.
  unfold select_phase_progress, select_artifacts. split.
  - etransitivity; [|exact Hp]. apply filter_ext. intros r. apply Hsame.
  - etransitivity; [|exact Ha]. apply filter_ext. intros r. apply Hsame.
Qed.

Lemma not_both (db : database) (ref : option text) :
  NoDup (map o_id (opportunities db)) ->
  owns_opportunity (Some u) db ref = true ->
  owns_opportunity (Some v) db ref = false.
Proof.
  intros Hnd H. apply owns_exclusive with (v := u); auto.
Qed.

(** The keys a DELETE by [v] removes are keys of [v]'s opportunities. *)
Lemma deleted_are_owned (id : text) (db : database) (ref : option text) :
  references
    (map o_id (filter (fun r => policy_opportunities Rv r && text_eqb (o_id r) id)
                      (opportunities db)))
    ref = true ->
  owns_opportunity (Some v) db ref = true.
Proof.
  destruct ref as [i|]; simpl; [|discriminate].
  intros H. apply existsb_exists in H. destruct H as (x & Hx & E).
  apply text_eqb_eq in E. subst x.
  apply in_map_iff in Hx. destruct Hx as (r & Hr & Hin).
  apply filter_In in Hin. destruct Hin as [Hin Hhit].
  apply andb_true_iff in Hhit. destruct Hhit as [Hpol _].
  apply owns_opportunity_in. exists r. split; [exact Hin|].
  split; [congruence|]. apply uid_is_eq in Hpol. exact Hpol.
Qed.

Lemma isolation_step (now : timestamptz) (s : statement) (db db' : database) :
  NoDup (map o_id (opportunities db)) ->
  execute Rv now s db = Ok db' ->
  select_opportunities Ru db' = select_opportunities Ru db
  /\ select_phase_progress Ru db' = select_phase_progress Ru db
  /\ select_artifacts Ru db' = select_artifacts Ru db
  /\ ((forall r, In r (active_opportunity db) -> ao_user_id r = u ->
         owns_opportunity (Some v) db (ao_opportunity_id r) = false) ->
      select_active_opportunity Ru db' = select_active_opportunity Ru db).
Proof.
  intros Hnd Hexec.
  assert (Hother : forall w, uid_is (Some v) w = true -> uid_is (Some u) w = false)
    by (intros w; apply uid_is_other; exact distinct).
  assert (Hmine : forall w, uid_is (Some u) w = true -> uid_is (Some v) w = false)
    by (intros w; apply uid_is_other; congruence).
  destruct s; cbn [execute] in Hexec; try read_input Hexec.
  - (* INSERT INTO opportunities *)
    apply insert_opportunities_inv in Hexec.
    destruct Hexec as (r & Hpol & ->).
    assert (Ho : select_opportunities Ru
                   (with_opportunities db (opportunities db ++ [r]))
                 = select_opportunities Ru db).
    { unfold select_opportunities. simpl. apply filter_snoc_drop.
      apply Hother. exact Hpol. }
    split; [exact Ho|].
    destruct (reads_from_rows db _ Ho eq_refl eq_refl) as [Hp Ha].
    repeat split; first [assumption | reflexivity].
  - (* UPDATE opportunities *)
    injection Hexec as <-.
    assert (Ho : select_opportunities Ru
                   (update_opportunities_phase Rv id phase db)
                 = select_opportunities Ru db).
    { unfold select_opportunities, update_opportunities_phase. simpl.
      apply filter_map_keep.
      - intros x _. destruct (_ && _); reflexivity.
      - intros x _ Hx. rewrite (Hmine _ Hx). reflexivity. }
    split; [exact Ho|].
    destruct (reads_from_rows db _ Ho eq_refl eq_refl) as [Hp Ha].
    repeat split; first [assumption | reflexivity].
  - (* DELETE FROM opportunities *)
    injection Hexec as <-.
    assert (Ho : select_opportunities Ru (delete_opportunities Rv id db)
                 = select_opportunities Ru db).
    { unfold select_opportunities, delete_opportunities. simpl.
      apply filter_filter_keep. intros x _ Hx. rewrite (Hmine _ Hx).
      reflexivity. }
    assert (Hkeep : forall ref, owns_opportunity (Some u) db ref = true ->
              negb (references
                      (map o_id (filter (fun r => policy_opportunities Rv r
                                                  && text_eqb (o_id r) id)
                                        (opportunities db))) ref) = true).
    { intros ref Hu. apply negb_true_iff.
      destruct (references _ ref) eqn:E; [|reflexivity].
      apply deleted_are_owned in E.
      rewrite (not_both db ref Hnd Hu) in E. discriminate. }
    split; [exact Ho|].
    destruct (reads_from_rows db (delete_opportunities Rv id db) Ho) as [Hp Ha].
    { simpl. apply filter_filter_keep. intros x _. apply Hkeep. }
    { simpl. apply filter_filter_keep. intros x _. apply Hkeep. }
    repeat split; try assumption.
    intros Hptr. unfold select_active_opportunity. simpl.
    apply filter_map_keep.
    + intros x _. destruct (references _ _); reflexivity.
    + intros x Hin Hx. apply uid_is_eq in Hx.
      destruct (references _ (ao_opportunity_id x)) eqn:E; [|reflexivity].
      apply deleted_are_owned in E. rewrite (Hptr x Hin Hx) in E. discriminate.
  - (* INSERT INTO phase_progress *)
    apply insert_phase_progress_inv in Hexec.
    destruct Hexec as (r & seq & Hpol & ->).
    split; [reflexivity|].
    destruct (reads_from_rows db
                (with_phase_progress db (phase_progress db ++ [r]) seq) eq_refl)
      as [Hp Ha].
    { simpl. apply filter_snoc_drop.
      apply owns_exclusive with (v := v); assumption. }
    { reflexivity. }
    repeat split; first [assumption | reflexivity].
  - (* UPDATE phase_progress *)
    injection Hexec as <-.
    split; [reflexivity|].
    destruct (reads_from_rows db
                (update_phase_progress Rv opp_id phase_name was status
                   start_date db) eq_refl)
      as [Hp Ha].
    { simpl. apply filter_map_keep.
      - intros x _. destruct (_ && _ && _); reflexivity.
      - intros x _ Hx. rewrite (not_both db _ Hnd Hx). reflexivity. }
    { reflexivity. }
    repeat split; first [assumption | reflexivity].
  - (* increment_artifacts_count *)
    apply increment_artifacts_count_inv in Hexec. subst db'.
    split; [reflexivity|].
    match goal with
    | |- context [select_phase_progress Ru ?d] =>
        destruct (reads_from_rows db d eq_refl) as [Hp Ha]
    end.
    { simpl. apply filter_map_keep.
      - intros x _. destruct (_ && _); reflexivity.
      - intros x _ Hx. rewrite (not_both db _ Hnd Hx). reflexivity. }
    { reflexivity. }
    repeat split; first [assumption | reflexivity].
  - (* INSERT INTO artifacts *)
    apply insert_artifacts_inv in Hexec.
    destruct Hexec as (r & Hpol & ->).
    split; [reflexivity|].
    destruct (reads_from_rows db (with_artifacts db (artifacts db ++ [r])) eq_refl)
      as [Hp Ha].
    { reflexivity. }
    { simpl. apply filter_snoc_drop.
      apply owns_exclusive with (v := v); assumption. }
    repeat split; first [assumption | reflexivity].
  - (* DELETE FROM artifacts *)
    injection Hexec as <-.
    split; [reflexivity|].
    destruct (reads_from_rows db (delete_artifacts Rv id db) eq_refl) as [Hp Ha].
    { reflexivity. }
    { simpl. apply filter_filter_keep. intros x _ Hx.
      rewrite (not_both db _ Hnd Hx). reflexivity. }
    repeat split; first [assumption | reflexivity].
  - (* INSERT INTO active_opportunity *)
    apply insert_active_opportunity_inv in Hexec.
    destruct Hexec as (r & seq & Hpol & ->).
    repeat split. intros _. unfold select_active_opportunity. simpl.
    apply filter_snoc_drop. apply Hother. exact Hpol.
  - (* UPDATE active_opportunity *)
    apply update_active_opportunity_inv in Hexec. subst db'.
    repeat split. intros _. unfold select_active_opportunity. simpl.
    apply filter_map_keep.
    + intros x _. destruct (_ && _); reflexivity.
    + intros x _ Hx. rewrite (Hmine _ Hx). reflexivity.
  - (* DELETE FROM active_opportunity *)
    injection Hexec as <-.
    repeat split. intros _. unfold select_active_opportunity. simpl.
    apply filter_filter_keep. intros x _ Hx. rewrite (Hmine _ Hx). reflexivity.
Qed.

End Isolation.

(** What a SELECT returns depends on the rows of the four tables only. *)
Lemma run_query_rows (who : role) (q : query) (db db' : database) :
  opportunities db' = opportunities db ->
  phase_progress db' = phase_progress db ->
  artifacts db' = artifacts db ->
  active_opportunity db' = active_opportunity db ->
  run_query who q db' = run_query who q db.
Proof.
  intros Ho Hp Ha Hx.
  destruct q; unfold run_query, select_opportunities, select_phase_progress,
    select_artifacts, select_active_opportunity, policy_phase_progress,
    policy_artifacts, owns_opportunity;
    rewrite ?Ho, ?Hp, ?Ha, ?Hx; reflexivity.
Qed.

(** C8, amended: under the policies a SELECT returns only rows attributed
    to the caller, and for two distinct owners no statement of one (INSERT,
    UPDATE, DELETE or a call of [increment_artifacts_count], accepted or
    refused) changes what the other reads from [opportunities],
    [phase_progress] and [artifacts], nor what the other reads from
    [active_opportunity] as long as the other's row does not reference an
    opportunity of the caller.  This needs no more of the database than the
    primary key of [opportunities].  Whether a statement is accepted is not
    scoped to the caller: primary keys and references are checked against
    the rows of every owner. *)
Theorem row_level_security_isolates
  (u v : uuid) (now : timestamptz) (s : statement) (db : database) (q : query) :
  u <> v ->
  NoDup (map o_id (opportunities db)) ->
  (q = SELECT_active_opportunity ->
   forall r, In r (active_opportunity db) -> ao_user_id r = u ->
             owns_opportunity (Some v) db (ao_opportunity_id r) = false) ->
  run_query (api_role (Some u)) q (fst (perform (api_role (Some v)) now s db))
  = run_query (api_role (Some u)) q db
  /\ (forall r, In r (select_opportunities (api_role (Some u)) db) ->
                o_user_id r = u)
  /\ (forall r, In r (select_phase_progress (api_role (Some u)) db) ->
                exists o, In o (opportunities db)
                          /\ pp_opportunity_id r = Some (o_id o)
                          /\ o_user_id o = u)
  /\ (forall r, In r (select_artifacts (api_role (Some u)) db) ->
                exists o, In o (opportunities db)
                          /\ a_opportunity_id r = Some (o_id o)
                          /\ o_user_id o = u)
  /\ (forall r, In r (select_active_opportunity (api_role (Some u)) db) ->
                ao_user_id r = u).
Proof.
  intros Hne Hnd Hptr.
  split; [|split; [|split; [|split]]].
  - unfold perform.
    destruct (execute (api_role (Some v)) now s db) as [db'|e] eqn:Hexec;
      cbn [fst].
    + destruct (isolation_step u v Hne now s db db' Hnd Hexec)
        as (Ho & Hp & Ha & Hx).
      destruct q; simpl; f_equal; try assumption.
      apply Hx. apply Hptr. reflexivity.
    + destruct (refused_rows s db) as (_ & Ho & Hp & Ha & Hx).
      apply run_query_rows; assumption.
  - intros r Hr. apply filter_In in Hr. destruct Hr as [_ Hr].
    apply uid_is_eq in Hr. exact Hr.
  - intros r Hr. apply filter_In in Hr. destruct Hr as [_ Hr].
    apply owns_opportunity_in in Hr. exact Hr.
  - intros r Hr. apply filter_In in Hr. destruct Hr as [_ Hr].
    apply owns_opportunity_in in Hr. exact Hr.
  - intros r Hr. apply filter_In in Hr. destruct Hr as [_ Hr].
    apply uid_is_eq in Hr. exact Hr.
Qed.

Lemma row_level_security_isolates_witness :
  bob <> alice
  /\ map ao_opportunity_id (select_active_opportunity (api_role (Some bob)) both_db)
     = [Some opp_b]
  /\ (exists db',
        perform (api_role (Some alice)) 6%Z (DELETE_opportunities opp_a) both_db
        = (db', None)
        /\ row_count (run_query (api_role (Some alice)) SELECT_opportunities both_db)
           = 1
        /\ row_count (run_query (api_role (Some alice)) SELECT_opportunities db')
           = 0)
  /\ run_query (api_role (Some bob)) SELECT_active_opportunity
       (fst (perform (api_role (Some alice)) 6%Z (DELETE_opportunities opp_a)
               both_db))
     = run_query (api_role (Some bob)) SELECT_active_opportunity both_db.
Proof.
  assert (Hne : bob <> alice) by discriminate.
  split; [exact Hne|]. split; [reflexivity|].
  split; [eexists; split; [reflexivity|split; reflexivity]|].
  refine (proj1 (row_level_security_isolates bob alice 6%Z
                   (DELETE_opportunities opp_a) both_db
                   SELECT_active_opportunity Hne _ _)).
  - closed_nodup.
  - intros _ r H E. vm_compute in H.
    destruct H as [<-|[<-|[]]]; [discriminate E|reflexivity].
Defined.

(** ** The constraints as an invariant of the service *)

Lemma NoDup_map_filter {A B : Type} (f : A -> B) (P : A -> bool) (l : list A) :
  NoDup (map f l) -> NoDup (map f (filter P l)).
Proof.
  induction l as [|a l IH]; simpl; intros H; [constructor|].
  inversion H as [|? ? Ha Hl]; subst.
  destruct (P a); simpl; [|auto].
  constructor; [|auto].
  intros Hin. apply Ha. apply in_map_iff in Hin.
  destruct Hin as (x & E & Hx). apply filter_In in Hx.
  rewrite <- E. apply in_map. tauto.
Qed.

Lemma map_key_kept {A B : Type} (key : A -> B) (g : A -> A) (l : list A) :
  (forall x, key (g x) = key x) -> map key (map g l) = map key l.
Proof.
  intros H. rewrite map_map. apply map_ext. exact H.
Qed.

Lemma fkey_kept (ref : option text) (db db' : database) :
  (forall i, has_opportunity i db = true -> has_opportunity i db' = true) ->
  opportunity_fkey ref db = true -> opportunity_fkey ref db' = true.
Proof. destruct ref as [i|]; simpl; auto. Qed.

Lemma has_opportunity_ids (i : text) (db db' : database) :
  map o_id (opportunities db') = map o_id (opportunities db) ->
  has_opportunity i db' = has_opportunity i db.
Proof.
  intros E. destruct (has_opportunity i db) eqn:H.
  - apply has_opportunity_in. rewrite E. apply has_opportunity_in. exact H.
  - destruct (has_opportunity i db') eqn:H'; [|reflexivity].
    apply has_opportunity_in in H'. rewrite E in H'.
    apply has_opportunity_in in H'. congruence.
Qed.

Lemma createOpportunity_keeps_constraints
  (owner : uuid) (new_id : text) (now : timestamptz)
  (name clientName description : text) (stakeholders : list text)
  (db db' : database) (o : useOpportunity.Opportunity) :
  constraints_hold db ->
  EngagementService.createOpportunity owner new_id now name clientName
    description stakeholders db = Success (o, db') ->
  constraints_hold db'.
Proof.
  intros C H.
  destruct (createOpportunity_accepted _ _ _ _ _ _ _ _ _ _ H)
    as (B & Hs & Hfresh & Huser).
  apply orb_false_iff in B. destruct B as [B Hd].
  apply orb_false_iff in B. destruct B as [Hn Hc].
  rewrite (createOpportunity_stores owner new_id now name clientName description
             stakeholders db C Hs Hfresh Huser Hn Hc Hd) in H.
  injection H as _ <-.
  assert (Hmono : forall i, has_opportunity i db = true ->
            has_opportunity i
              (created owner new_id now name clientName description stakeholders db)
            = true).
  { intros i Hi. unfold has_opportunity, created. simpl.
    rewrite existsb_app. unfold has_opportunity in Hi. rewrite Hi. reflexivity. }
  constructor; unfold created;
    cbn [opportunities phase_progress artifacts active_opportunity auth_users
         phase_progress_id_seq active_opportunity_id_seq
         with_phase_progress with_opportunities].
  - rewrite map_app. apply NoDup_snoc; [exact (opportunities_pkey C)|].
    simpl. intros Hin. apply has_opportunity_in in Hin. congruence.
  - exact (artifacts_pkey C).
  - exact (active_opportunity_user_id_key C).
  - intros r Hr. apply in_app_or in Hr. destruct Hr as [Hr|Hr].
    + apply fkey_kept with (db := db); [exact Hmono|].
      exact (phase_progress_opportunity_id_fkey C r Hr).
    + destruct (initial_rows_ids _ _ _ _ _ _ Hr) as [E _].
      rewrite E. unfold opportunity_fkey, has_opportunity. simpl.
      rewrite existsb_app. simpl. rewrite text_eqb_refl. apply orb_true_r.
  - intros r Hr. apply fkey_kept with (db := db); [exact Hmono|].
    exact (artifacts_opportunity_id_fkey C r Hr).
  - intros r Hr. apply in_app_or in Hr. destruct Hr as [Hr|[<-|[]]].
    + exact (opportunities_user_id_fkey C r Hr).
    + exact Huser.
  - intros r Hr. apply in_app_or in Hr. destruct Hr as [Hr|Hr].
    + pose proof (phase_progress_pkey_below_seq C r Hr). lia.
    + destruct (initial_rows_ids _ _ _ _ _ _ Hr) as [_ E]. lia.
  - exact (active_opportunity_pkey_below_seq C).
Qed.

Lemma add_effect_keys (r : EngagementService.add_request) (db db' : database) :
  EngagementService.add r db = Success db' ->
  has_artifact (EngagementService.add_id r) db = false
  /\ has_opportunity (EngagementService.add_opportunity r) db = true
  /\ auth_users db' = auth_users db
  /\ phase_progress_id_seq db' = phase_progress_id_seq db
  /\ active_opportunity_id_seq db' = active_opportunity_id_seq db.
Proof.
  unfold EngagementService.add, EngagementService.addArtifact.
  destruct (negb _ || negb _ || negb _); [discriminate|].
  destruct (EngagementService.owned _ _ db); [|discriminate].
  unfold insert_artifacts.
  destruct (artifacts_input _) as [[]|e]; [|discriminate]. simpl.
  destruct (has_artifact (EngagementService.add_id r) db); [discriminate|].
  destruct (has_opportunity (EngagementService.add_opportunity r) db);
    [|discriminate].
  simpl. unfold increment_artifacts_count. simpl.
  destruct (existsb _ (phase_progress db)); [discriminate|].
  simpl. intros H. injection H as <-. simpl. repeat split.
Qed.

Lemma addArtifact_keeps_constraints (r : EngagementService.add_request)
  (db db' : database) :
  constraints_hold db -> EngagementService.add r db = Success db' ->
  constraints_hold db'.
Proof.
  intros C H.
  destruct (add_effect r db db' H) as (Ho & Hact & Hpp & a & Ha & Hid & Hao & _).
  destruct (add_effect_keys r db db' H) as (Hfresh & Hopp & Hu & Hs1 & Hs2).
  assert (Hsame : forall i, has_opportunity i db' = has_opportunity i db)
    by (intros i; apply has_opportunity_ids; rewrite Ho; reflexivity).
  constructor.
  - rewrite Ho. exact (opportunities_pkey C).
  - rewrite Ha, map_app. apply NoDup_snoc; [exact (artifacts_pkey C)|].
    simpl. rewrite Hid. intros Hin. apply in_map_iff in Hin.
    destruct Hin as (x & E & Hx). unfold has_artifact in Hfresh.
    rewrite existsb_false in Hfresh. specialize (Hfresh x Hx).
    apply text_eqb_neq in Hfresh. contradiction.
  - rewrite Hact. exact (active_opportunity_user_id_key C).
  - intros x Hx. rewrite Hpp in Hx. apply in_map_iff in Hx.
    destruct Hx as (y & <- & Hy).
    apply fkey_kept with (db := db); [intros i; rewrite Hsame; auto|].
    pose proof (phase_progress_opportunity_id_fkey C y Hy) as F.
    unfold incremented. destruct (phase_progress_key _ _ y); exact F.
  - intros x Hx. rewrite Ha in Hx. apply in_app_or in Hx.
    destruct Hx as [Hx|[<-|[]]].
    + apply fkey_kept with (db := db); [intros i; rewrite Hsame; auto|].
      exact (artifacts_opportunity_id_fkey C x Hx).
    + rewrite Hao. simpl. rewrite Hsame. exact Hopp.
  - intros x Hx. rewrite Ho in Hx. rewrite Hu.
    exact (opportunities_user_id_fkey C x Hx).
  - intros x Hx. rewrite Hpp in Hx. apply in_map_iff in Hx.
    destruct Hx as (y & <- & Hy). rewrite Hs1.
    pose proof (phase_progress_pkey_below_seq C y Hy) as F.
    unfold incremented. destruct (phase_progress_key _ _ y); exact F.
  - intros x Hx. rewrite Hact in Hx. rewrite Hs2.
    exact (active_opportunity_pkey_below_seq C x Hx).
Qed.

Lemma changePhase_keeps_constraints (owner : uuid) (now : timestamptz)
  (id target : text) (db db' : database) :
  constraints_hold db ->
  EngagementService.changePhase owner now id target db = Success db' ->
  constraints_hold db'.
Proof.
  intros C H. unfold EngagementService.changePhase in H.
  destruct (negb _); [discriminate|].
  destruct (EngagementService.owned owner id db) as [o|]; [|discriminate].
  injection H as <-.
  assert (Hids : forall l, map o_id
            (map (fun r => if true && text_eqb (o_id r) id
                           then set_current_phase target r else r) l)
            = map o_id l).
  { intros l. apply map_key_kept. intros x.
    destruct (true && text_eqb (o_id x) id); reflexivity. }
  assert (Hsame : forall i d, opportunities d = opportunities db ->
            has_opportunity i (update_opportunities_phase service_role id target d)
            = has_opportunity i db).
  { intros i d E. apply has_opportunity_ids. simpl. rewrite Hids, E. reflexivity. }
  assert (Hrow : forall x,
            In x (phase_progress
                    (EngagementService.enter id target now
                       (EngagementService.leave id (o_current_phase o) db))) ->
            exists y, In y (phase_progress db)
                      /\ pp_id x = pp_id y
                      /\ pp_opportunity_id x = pp_opportunity_id y).
  { intros x Hx. simpl in Hx. rewrite map_map in Hx. apply in_map_iff in Hx.
    destruct Hx as (y & <- & Hy). exists y. split; [exact Hy|].
    destruct (phase_progress_key _ _ y && _);
      match goal with |- context [if ?c then _ else _] => destruct c end;
      split; reflexivity. }
  constructor.
  - simpl. rewrite Hids. exact (opportunities_pkey C).
  - exact (artifacts_pkey C).
  - exact (active_opportunity_user_id_key C).
  - intros x Hx. destruct (Hrow x Hx) as (y & Hy & _ & E). rewrite E.
    apply fkey_kept with (db := db); [intros i; rewrite Hsame; auto|].
    exact (phase_progress_opportunity_id_fkey C y Hy).
  - intros x Hx.
    apply fkey_kept with (db := db); [intros i; rewrite Hsame; auto|].
    exact (artifacts_opportunity_id_fkey C x Hx).
  - intros x Hx. simpl in Hx. apply in_map_iff in Hx.
    destruct Hx as (y & <- & Hy).
    pose proof (opportunities_user_id_fkey C y Hy) as F.
    match goal with |- context [if ?c then _ else _] => destruct c end; exact F.
  - intros x Hx. destruct (Hrow x Hx) as (y & Hy & E & _). rewrite E.
    exact (phase_progress_pkey_below_seq C y Hy).
  - exact (active_opportunity_pkey_below_seq C).
Qed.

Lemma activate_keeps_constraints (owner : uuid) (now : timestamptz) (id : text)
  (db db' : database) :
  constraints_hold db ->
  EngagementService.activate owner now id db = Success db' ->
  constraints_hold db'.
Proof.
  intros C H. unfold EngagementService.activate in H.
  destruct (EngagementService.owned owner id db) as [o|]; [|discriminate].
  destruct (has_pointer owner db) eqn:Hp.
  - destruct (update_active_opportunity service_role now owner (Some id) db)
      as [d'|e] eqn:E; [|discriminate].
    injection H as <-. apply update_active_opportunity_inv in E. subst d'.
    constructor; simpl.
    + exact (opportunities_pkey C).
    + exact (artifacts_pkey C).
    + rewrite map_key_kept; [exact (active_opportunity_user_id_key C)|].
      intros x.
      match goal with |- context [if ?c then _ else _] => destruct c end;
        reflexivity.
    + exact (phase_progress_opportunity_id_fkey C).
    + exact (artifacts_opportunity_id_fkey C).
    + exact (opportunities_user_id_fkey C).
    + exact (phase_progress_pkey_below_seq C).
    + intros x Hx. apply in_map_iff in Hx. destruct Hx as (y & <- & Hy).
      pose proof (active_opportunity_pkey_below_seq C y Hy) as F.
      match goal with |- context [if ?c then _ else _] => destruct c end; exact F.
  - destruct (insert_active_opportunity service_role now _ db) as [d'|e] eqn:E;
      [|discriminate].
    injection H as <-.
    apply insert_active_opportunity_ok in E.
    destruct E as (r & _ & Hr & _ & _ & Hnew & _ & _ & ->).
    simpl in Hr. injection Hr as <-. simpl in Hnew.
    constructor; simpl.
    + exact (opportunities_pkey C).
    + exact (artifacts_pkey C).
    + rewrite map_app. apply NoDup_snoc.
      * exact (active_opportunity_user_id_key C).
      * simpl. intros Hx. apply has_pointer_in in Hx. congruence.
    + exact (phase_progress_opportunity_id_fkey C).
    + exact (artifacts_opportunity_id_fkey C).
    + exact (opportunities_user_id_fkey C).
    + exact (phase_progress_pkey_below_seq C).
    + intros x Hx. apply in_app_or in Hx. destruct Hx as [Hx|[<-|[]]].
      * pose proof (active_opportunity_pkey_below_seq C x Hx). lia.
      * simpl. lia.
Qed.

Lemma deleteOpportunity_keeps_constraints (owner : uuid) (id : text)
  (db db' : database) :
  constraints_hold db ->
  EngagementService.deleteOpportunity owner id db = Success db' ->
  constraints_hold db'.
Proof.
  intros C H. unfold EngagementService.deleteOpportunity in H.
  destruct (EngagementService.owned owner id db) as [o|] eqn:Ho; [|discriminate].
  injection H as <-.
  destruct (owned_has owner id db o Ho) as (Hhas & _ & _ & _).
  pose proof (references_deleted id db) as Hgone.
  assert (Hkept : forall ref,
            opportunity_fkey ref db = true -> ref <> Some id ->
            opportunity_fkey ref (delete_opportunities service_role id db) = true).
  { intros [i|] F Hne; [|reflexivity]. simpl in F |- *.
    unfold has_opportunity in *. simpl.
    apply existsb_exists in F. destruct F as (x & Hx & E).
    apply existsb_exists. exists x. split; [|exact E].
    apply filter_In. split; [exact Hx|]. simpl. apply negb_true_iff.
    apply text_eqb_neq. apply text_eqb_eq in E. congruence. }
  constructor; simpl.
  - apply NoDup_map_filter. exact (opportunities_pkey C).
  - apply NoDup_map_filter. exact (artifacts_pkey C).
  - rewrite map_key_kept; [exact (active_opportunity_user_id_key C)|].
    intros x. destruct (references _ _); reflexivity.
  - intros x Hx. apply filter_In in Hx. destruct Hx as [Hx Hk].
    apply Hkept; [exact (phase_progress_opportunity_id_fkey C x Hx)|].
    intros E. apply negb_true_iff in Hk.
    pose proof (proj2 (Hgone (pp_opportunity_id x) Hhas) E) as G.
    simpl in G. congruence.
  - intros x Hx. apply filter_In in Hx. destruct Hx as [Hx Hk].
    apply Hkept; [exact (artifacts_opportunity_id_fkey C x Hx)|].
    intros E. apply negb_true_iff in Hk.
    pose proof (proj2 (Hgone (a_opportunity_id x) Hhas) E) as G.
    simpl in G. congruence.
  - intros x Hx. apply filter_In in Hx. destruct Hx as [Hx _].
    exact (opportunities_user_id_fkey C x Hx).
  - intros x Hx. apply filter_In in Hx. destruct Hx as [Hx _].
    exact (phase_progress_pkey_below_seq C x Hx).
  - intros x Hx. apply in_map_iff in Hx. destruct Hx as (y & <- & Hy).
    pose proof (active_opportunity_pkey_below_seq C y Hy) as F.
    destruct (references _ _); exact F.
Qed.

(** The constraints hold in the empty database, and every operation of the
    engagement service keeps them. *)
Lemma empty_database_constraints : constraints_hold empty_database.
Proof. constructor; simpl; try constructor; intros r []. Qed.

(** ** One progress row per phase, as an invariant of the service *)

Lemma filter_map_length {A : Type} (P : A -> bool) (g : A -> A) (l : list A) :
  (forall x, P (g x) = P x) ->
  List.length (filter P (map g l)) = List.length (filter P l).
Proof.
  intros H. induction l as [|a l IH]; simpl; [reflexivity|].
  rewrite H. destruct (P a); simpl; rewrite IH; reflexivity.
Qed.

Lemma phase_progress_key_kept (o p : option text) (x y : phase_progress_row) :
  pp_opportunity_id x = pp_opportunity_id y -> pp_phase x = pp_phase y ->
  phase_progress_key o p x = phase_progress_key o p y.
Proof. unfold phase_progress_key. intros -> ->. reflexivity. Qed.

Lemma addArtifact_keeps_progress (r : EngagementService.add_request)
  (db db' : database) :
  progress_complete db -> EngagementService.add r db = Success db' ->
  progress_complete db'.
Proof.
  intros Hall H o p Ho Hp.
  destruct (add_effect r db db' H) as (Hopp & _ & Hpp & _).
  rewrite Hpp, filter_map_length.
  - apply Hall; [|exact Hp].
    rewrite <- Ho. symmetry. apply has_opportunity_ids. rewrite Hopp. reflexivity.
  - intros x. apply phase_progress_key_kept;
      unfold incremented; destruct (phase_progress_key _ _ x); reflexivity.
Qed.

Lemma changePhase_keeps_progress (owner : uuid) (now : timestamptz)
  (id target : text) (db db' : database) :
  progress_complete db ->
  EngagementService.changePhase owner now id target db = Success db' ->
  progress_complete db'.
Proof.
  intros Hall H o p Ho Hp. unfold EngagementService.changePhase in H.
  destruct (negb _); [discriminate|].
  destruct (EngagementService.owned owner id db) as [c|]; [|discriminate].
  injection H as <-.
  assert (Hwas : has_opportunity o db = true).
  { rewrite <- Ho. symmetry. apply has_opportunity_ids. simpl.
    apply map_key_kept. intros x.
    match goal with |- context [if ?c then _ else _] => destruct c end;
      reflexivity. }
  simpl. rewrite map_map, filter_map_length; [exact (Hall o p Hwas Hp)|].
  intros x. apply phase_progress_key_kept;
    destruct (phase_progress_key _ _ x && _);
    match goal with |- context [if ?c then _ else _] => destruct c end;
    reflexivity.
Qed.

Lemma deleteOpportunity_keeps_progress (owner : uuid) (id : text)
  (db db' : database) :
  progress_complete db ->
  EngagementService.deleteOpportunity owner id db = Success db' ->
  progress_complete db'.
Proof.
  intros Hall H o p Ho Hp. unfold EngagementService.deleteOpportunity in H.
  destruct (EngagementService.owned owner id db) as [c|] eqn:Hc; [|discriminate].
  injection H as <-.
  destruct (owned_has owner id db c Hc) as (Hhas & _ & _ & _).
  unfold has_opportunity in Ho. simpl in Ho.
  apply existsb_exists in Ho. destruct Ho as (x & Hx & E).
  apply filter_In in Hx. destruct Hx as [Hx Hkeep].
  apply text_eqb_eq in E. apply negb_true_iff in Hkeep.
  apply text_eqb_neq in Hkeep.
  assert (Hwas : has_opportunity o db = true)
    by (apply has_opportunity_in; rewrite <- E; apply in_map; exact Hx).
  rewrite <- (Hall o p Hwas Hp). simpl. f_equal.
  apply filter_filter_keep. intros y _ Hy.
  rewrite phase_progress_key_some in Hy.
  destruct (pp_opportunity_id y) as [oy|] eqn:Ey; [|discriminate].
  apply andb_true_iff in Hy. destruct Hy as [Hy _]. apply text_eqb_eq in Hy.
  apply negb_true_iff.
  destruct (references _ (Some oy)) eqn:R; [|reflexivity].
  pose proof (proj1 (references_deleted id db (Some oy) Hhas)) as G.
  simpl in G, R. specialize (G R). congruence.
Qed.

(** ** The scenarios of the specification, evaluated *)

Example scenario_B :
  map (fun r => (pp_phase r, pp_artifacts_count r)) (phase_progress pain_point_db)
  = [(js "pre_assessment", Some 1%Z); (js "discovery", Some 0%Z);
     (js "solution_design", Some 0%Z); (js "implementation", Some 0%Z)]
  /\ EngagementService.count_artifacts opp_a pain_point_db = 1.
Proof. split; reflexivity. Qed.

Example scenario_C :
  exists db',
    EngagementService.changePhase alice 7%Z opp_a (js "discovery") pain_point_db
    = Success db'
    /\ map o_current_phase (opportunities db') = [js "discovery"]
    /\ map (fun r => (pp_phase r, pp_status r, pp_artifacts_count r))
           (phase_progress db')
       = [(js "pre_assessment", js "completed", Some 1%Z);
          (js "discovery", js "in_progress", Some 0%Z);
          (js "solution_design", js "not_started", Some 0%Z);
          (js "implementation", js "not_started", Some 0%Z)]
    /\ map a_phase (artifacts db') = [js "pre_assessment"].
Proof. eexists. split; [vm_compute; reflexivity|]. repeat split. Qed.

Example scenario_D :
  EngagementService.changePhase alice 7%Z opp_a (js "nonexistent_phase")
    pain_point_db
  = Failure InvalidPhaseError.
Proof. reflexivity. Qed.

(* ================================================================== *)
(** * Further properties of the schema *)
(* ================================================================== *)

Lemma map_unchanged {A : Type} (g : A -> A) (l : list A) :
  (forall x, In x l -> g x = x) -> map g l = l.
Proof.
  induction l as [|a l IH]; simpl; intros H; [reflexivity|].
  rewrite (H a (or_introl eq_refl)), IH; [reflexivity|].
  intros x Hx. apply H. right. exact Hx.
Qed.

Lemma filter_unchanged {A : Type} (P : A -> bool) (l : list A) :
  (forall x, In x l -> P x = true) -> filter P l = l.
Proof.
  induction l as [|a l IH]; simpl; intros H; [reflexivity|].
  rewrite (H a (or_introl eq_refl)), IH; [reflexivity|].
  intros x Hx. apply H. right. exact Hx.
Qed.

Lemma with_opportunities_same (db : database) :
  with_opportunities db (opportunities db) = db.
Proof. destruct db; reflexivity. Qed.

Lemma with_phase_progress_same (db : database) :
  with_phase_progress db (phase_progress db) (phase_progress_id_seq db) = db.
Proof. destruct db; reflexivity. Qed.

Lemma with_artifacts_same (db : database) :
  with_artifacts db (artifacts db) = db.
Proof. destruct db; reflexivity. Qed.

Lemma with_active_opportunity_same (db : database) :
  with_active_opportunity db (active_opportunity db) (active_opportunity_id_seq db)
  = db.
Proof. destruct db; reflexivity. Qed.

(** ** Without a session *)

(** [auth.uid()] is NULL: no comparison with it is true. *)
Lemma owns_opportunity_anon (db : database) (ref : option text) :
  owns_opportunity None db ref = false.
Proof.
  unfold owns_opportunity. apply existsb_false. intros o _.
  destruct ref as [i|]; simpl; [destruct (text_eqb (o_id o) i)|]; reflexivity.
Qed.

Lemma policy_opportunities_anon (r : opportunity) :
  policy_opportunities (api_role None) r = false.
Proof. reflexivity. Qed.

Lemma filter_nothing {A : Type} (P : A -> bool) (l : list A) :
  (forall x, In x l -> P x = false) -> filter P l = [].
Proof. intros H. apply filter_none. apply existsb_false. exact H. Qed.

(** X1: a request without a session reads nothing: under the policies of
    the four tables every SELECT of the API role with [auth.uid()] NULL
    returns no row, whatever the tables hold. *)
Theorem anon_reads_nothing (q : query) (db : database) :
  row_count (run_query (api_role None) q db) = 0.
Proof.
  destruct q; simpl.
  - unfold select_opportunities. rewrite filter_nothing; [reflexivity|].
    intros; reflexivity.
  - unfold select_phase_progress. rewrite filter_nothing; [reflexivity|].
    intros; apply owns_opportunity_anon.
  - unfold select_artifacts. rewrite filter_nothing; [reflexivity|].
    intros; apply owns_opportunity_anon.
  - unfold select_active_opportunity. rewrite filter_nothing; [reflexivity|].
    intros; reflexivity.
Qed.

(** What a request without a session gets accepted leaves the database
    as it was, and is no INSERT. *)
Lemma anon_accepted_unchanged (now : timestamptz) (s : statement)
  (db db' : database) :
  execute (api_role None) now s db = Ok db' ->
  db' = db /\ is_insert s = false.
Proof.
  destruct s; cbn [execute]; intros H; try read_input H.
  - apply insert_opportunities_inv in H. destruct H as (r & Hp & _).
    discriminate Hp.
  - injection H as <-. split; [|reflexivity].
    unfold update_opportunities_phase. rewrite map_unchanged.
    + apply with_opportunities_same.
    + intros; reflexivity.
  - injection H as <-. split; [|reflexivity].
    unfold delete_opportunities. cbn [policy_opportunities uid_is sql_eq is_true andb].
    rewrite (filter_nothing (fun _ : opportunity => false)) by reflexivity.
    cbn [map references].
    rewrite (filter_unchanged (fun _ : opportunity => negb false)) by reflexivity.
    rewrite (filter_unchanged (fun r => negb (references [] (pp_opportunity_id r)))).
    2: { intros x _. destruct (pp_opportunity_id x); reflexivity. }
    rewrite (filter_unchanged (fun r => negb (references [] (a_opportunity_id r)))).
    2: { intros x _. destruct (a_opportunity_id x); reflexivity. }
    rewrite map_unchanged.
    2: { intros x _. destruct (ao_opportunity_id x); reflexivity. }
    destruct db; reflexivity.
  - apply insert_phase_progress_inv in H. destruct H as (r & seq & Hp & _).
    cbn [policy_phase_progress] in Hp. rewrite owns_opportunity_anon in Hp.
    discriminate Hp.
  - injection H as <-. split; [|reflexivity].
    unfold update_phase_progress. rewrite map_unchanged.
    + apply with_phase_progress_same.
    + intros x _. cbn [policy_phase_progress].
      rewrite owns_opportunity_anon. reflexivity.
  - apply increment_artifacts_count_inv in H. subst db'.
    split; [|reflexivity]. rewrite map_unchanged.
    + apply with_phase_progress_same.
    + intros x _. cbn [policy_phase_progress].
      rewrite owns_opportunity_anon. reflexivity.
  - apply insert_artifacts_inv in H. destruct H as (r & Hp & _).
    cbn [policy_artifacts] in Hp. rewrite owns_opportunity_anon in Hp.
    discriminate Hp.
  - injection H as <-. split; [|reflexivity].
    unfold delete_artifacts. rewrite filter_unchanged.
    + apply with_artifacts_same.
    + intros x _. cbn [policy_artifacts]. rewrite owns_opportunity_anon. reflexivity.
  - apply insert_active_opportunity_inv in H. destruct H as (r & seq & Hp & _).
    discriminate Hp.
  - apply update_active_opportunity_inv in H. subst db'.
    split; [|reflexivity]. rewrite map_unchanged.
    + apply with_active_opportunity_same.
    + intros; reflexivity.
  - injection H as <-. split; [|reflexivity].
    unfold delete_active_opportunity. rewrite filter_unchanged.
    + apply with_active_opportunity_same.
    + intros; reflexivity.
Qed.

(** X2: a request without a session changes no row.  No INSERT of the API
    role with [auth.uid()] NULL is accepted, and whatever it sends, accepted
    or refused, the four tables and [auth.users] hold afterwards what they
    held before.  The one trace it can leave is in a sequence: a refused
    INSERT into [phase_progress] or [active_opportunity] whose values were
    read and which leaves [id] to its default has drawn a value, which is
    not given back. *)
Theorem anon_changes_nothing (now : timestamptz) (s : statement) (db : database) :
  let after := fst (perform (api_role None) now s db) in
  let error := snd (perform (api_role None) now s db) in
  (is_insert s = true -> error <> None)
  /\ auth_users after = auth_users db
  /\ opportunities after = opportunities db
  /\ phase_progress after = phase_progress db
  /\ artifacts after = artifacts db
  /\ active_opportunity after = active_opportunity db
  /\ phase_progress_id_seq after
     = match s with
       | INSERT_phase_progress v =>
           match phase_progress_input v, ppv_id v with
           | Ok _, DEFAULT => (phase_progress_id_seq db + 1)%Z
           | _, _ => phase_progress_id_seq db
           end
       | _ => phase_progress_id_seq db
       end
  /\ active_opportunity_id_seq after
     = match s with
       | INSERT_active_opportunity v =>
           match active_opportunity_input v, aov_id v with
           | Ok _, DEFAULT => (active_opportunity_id_seq db + 1)%Z
           | _, _ => active_opportunity_id_seq db
           end
       | _ => active_opportunity_id_seq db
       end.
Proof.
  cbv zeta. unfold perform.
  destruct (execute (api_role None) now s db) as [db'|e] eqn:E; cbn [fst snd].
  - destruct (anon_accepted_unchanged now s db db' E) as [-> Hs].
    split; [congruence|]. repeat (split; [reflexivity|]).
    destruct s; try discriminate Hs; split; reflexivity.
  - split; [discriminate|].
    destruct (refused_rows s db) as (H1 & H2 & H3 & H4 & H5).
    repeat (split; [assumption|]).
    unfold refused. destruct s; cbn [input];
      try (split; reflexivity);
      try (match goal with |- context [match ?x with Ok _ => _ | Error _ => _ end] =>
             destruct x end; split; reflexivity).
    + destruct (phase_progress_input v); [|split; reflexivity].
      destruct (ppv_id v); split; reflexivity.
    + destruct (active_opportunity_input v); [|split; reflexivity].
      destruct (aov_id v); split; reflexivity.
Qed.

Lemma anon_changes_nothing_witness :
  perform (api_role None) 0%Z (DELETE_opportunities opp_a) acme_db = (acme_db, None)
  /\ phase_progress_id_seq acme_db = 5%Z
  /\ phase_progress_id_seq
       (fst (perform (api_role None) 0%Z
               (INSERT_phase_progress
                  (EngagementService.initial_progress opp_a 0%Z false
                     (js "discovery")))
               acme_db)) = 6%Z
  /\ snd (perform (api_role None) 0%Z
            (INSERT_phase_progress
               (EngagementService.initial_progress opp_a 0%Z false
                  (js "discovery")))
            acme_db) <> None.
Proof.
  split; [reflexivity|]. split; [reflexivity|].
  pose proof (anon_changes_nothing 0%Z
                (INSERT_phase_progress
                   (EngagementService.initial_progress opp_a 0%Z false
                      (js "discovery")))
                acme_db) as H.
  cbv zeta in H. destruct H as (He & _ & _ & _ & _ & _ & Hs & _).
  split; [exact Hs|exact (He eq_refl)].
Defined.

(** ** The function increment_artifacts_count *)

Lemma phase_progress_key_null (o p : option text) (r : phase_progress_row) :
  o = None \/ p = None -> phase_progress_key o p r = false.
Proof.
  unfold phase_progress_key. intros [->| ->].
  - destruct (pp_opportunity_id r), p as [p|]; simpl;
      try destruct (text_eqb (pp_phase r) p); reflexivity.
  - destruct (pp_opportunity_id r) as [i|], o as [o|]; simpl;
      try destruct (text_eqb i o); reflexivity.
Qed.

(** X3: [increment_artifacts_count] for a pair that no progress row
    carries, or with a NULL argument, is accepted and changes nothing: the
    UPDATE matches no row and the function reports no error. *)
Theorem increment_unmatched_is_silent (who : role) (o p : option text)
  (db : database) :
  o = None \/ p = None
  \/ (forall r, In r (phase_progress db) -> phase_progress_key o p r = false) ->
  increment_artifacts_count who o p db = Ok db.
Proof.
  intros H.
  assert (K : forall r, In r (phase_progress db) -> phase_progress_key o p r = false).
  { destruct H as [H|[H|H]]; [| |exact H];
      intros r _; apply phase_progress_key_null; auto. }
  unfold increment_artifacts_count.
  replace (existsb _ (phase_progress db)) with false.
  - cbn [negb check bind]. f_equal. rewrite map_unchanged.
    + apply with_phase_progress_same.
    + intros r Hr. rewrite (K r Hr), andb_false_r. reflexivity.
  - symmetry. apply existsb_false. intros r Hr.
    rewrite (K r Hr), andb_false_r. reflexivity.
Qed.

Lemma increment_unmatched_is_silent_witness :
  increment_artifacts_count (api_role (Some alice)) (Some opp_b)
    (Some pre_assessment) acme_db = Ok acme_db.
Proof.
  apply increment_unmatched_is_silent. right. right.
  intros r Hr. vm_compute in Hr.
  repeat (destruct Hr as [<-|Hr]; [reflexivity|]). destruct Hr.
Defined.

(** X4: [increment_artifacts_count] fails exactly when a row it would
    update holds the largest INTEGER (or more): the error is
    numeric_value_out_of_range, and it is the only error the call has. *)
Theorem increment_raises_at_int4_max (who : role) (o p : option text)
  (db : database) (e : sqlstate) :
  increment_artifacts_count who o p db = Error e
  <-> e = numeric_value_out_of_range
      /\ exists r z, In r (phase_progress db)
                     /\ policy_phase_progress who db r = true
                     /\ phase_progress_key o p r = true
                     /\ pp_artifacts_count r = Some z
                     /\ (int4_max <= z)%Z.
Proof.
  unfold increment_artifacts_count.
  match goal with |- context [check (negb ?c) _] => destruct c eqn:E end;
    cbn [negb check bind].
  - apply existsb_exists in E. destruct E as (r & Hr & H).
    apply andb_true_iff in H. destruct H as [H Hov].
    apply andb_true_iff in H. destruct H as [Hpol Hkey].
    split.
    + intros Q. injection Q as <-. split; [reflexivity|].
      destruct (pp_artifacts_count r) as [z|] eqn:Ez; [|discriminate].
      exists r, z. simpl in Hov. apply Z.ltb_lt in Hov.
      repeat split; try assumption. lia.
    + intros [-> _]. reflexivity.
  - split; [discriminate|].
    intros (_ & r & z & Hr & Hpol & Hkey & Ez & Hz). exfalso.
    assert (F := proj1 (existsb_false _ _) E r Hr). cbv beta in F.
    rewrite Hpol, Hkey, Ez in F. simpl in F.
    apply Z.ltb_ge in F. lia.
Qed.

(** ** Rows without an opportunity *)

(** [opportunity_id] is nullable in [artifacts] and [phase_progress]; the
    policies compare it with [opportunities.id], which NULL never equals. *)
Lemma owns_opportunity_null (uid : option uuid) (db : database) :
  owns_opportunity uid db None = false.
Proof.
  unfold owns_opportunity. apply existsb_false. intros o _.
  destruct uid as [u|]; simpl; [destruct (N.eqb (o_user_id o) u)|]; reflexivity.
Qed.

(** X5: a row of [artifacts] or [phase_progress] whose [opportunity_id] is
    NULL is out of reach of every API role: no SELECT returns it, no DELETE
    removes it, no call of [increment_artifacts_count] changes it, and no
    INSERT of such a row is accepted. *)
Theorem rows_without_opportunity_are_out_of_reach (uid : option uuid)
  (now : timestamptz) (db : database) :
  (forall r, In r (select_artifacts (api_role uid) db) ->
             a_opportunity_id r <> None)
  /\ (forall r, In r (select_phase_progress (api_role uid) db) ->
                pp_opportunity_id r <> None)
  /\ (forall id r, In r (artifacts db) -> a_opportunity_id r = None ->
                   In r (artifacts (delete_artifacts (api_role uid) id db)))
  /\ (forall o p db' r,
        increment_artifacts_count (api_role uid) o p db = Ok db' ->
        In r (phase_progress db) -> pp_opportunity_id r = None ->
        In r (phase_progress db'))
  /\ (forall v db', insert_artifacts (api_role uid) now v db = Ok db' ->
                    resolve None (av_opportunity_id v) <> None)
  /\ (forall v db', insert_phase_progress (api_role uid) v db = Ok db' ->
                    resolve None (ppv_opportunity_id v) <> None).
Proof.
  repeat split.
  - intros r Hr E. apply filter_In in Hr. destruct Hr as [_ Hr].
    simpl in Hr. rewrite E, owns_opportunity_null in Hr. discriminate.
  - intros r Hr E. apply filter_In in Hr. destruct Hr as [_ Hr].
    simpl in Hr. rewrite E, owns_opportunity_null in Hr. discriminate.
  - intros id r Hr E. unfold delete_artifacts. cbn [artifacts with_artifacts].
    apply filter_In. split; [exact Hr|]. simpl.
    rewrite E, owns_opportunity_null. reflexivity.
  - intros o p db' r H Hr E. apply increment_artifacts_count_inv in H. subst db'.
    cbn [phase_progress with_phase_progress]. apply in_map_iff. exists r.
    split; [|exact Hr]. simpl. rewrite E, owns_opportunity_null. reflexivity.
  - intros v db' H E. apply insert_artifacts_ok in H.
    destruct H as (r & _ & Hr & Hp & _).
    rewrite <- (artifacts_row_opportunity now v r Hr) in E.
    simpl in Hp. rewrite E, owns_opportunity_null in Hp. discriminate.
  - intros v db' H E. apply insert_phase_progress_ok in H.
    destruct H as (r & _ & Hr & Hp & _).
    rewrite <- (phase_progress_row_opportunity _ v r Hr) in E.
    simpl in Hp. rewrite E, owns_opportunity_null in Hp. discriminate.
Qed.

(** ** The declared constraints are kept *)

Lemma not_in_keys {A K : Type} (eqb : K -> K -> bool) (key : A -> K) (k : K)
  (l : list A) :
  (forall a, eqb a a = true) ->
  existsb (fun x => eqb (key x) k) l = false -> ~ In k (map key l).
Proof.
  intros Hrefl H Hin. apply in_map_iff in Hin. destruct Hin as (x & <- & Hx).
  assert (F := proj1 (existsb_false _ _) H x Hx). cbv beta in F.
  rewrite Hrefl in F. discriminate.
Qed.

Lemma NoDup_map_snoc {A K : Type} (eqb : K -> K -> bool) (key : A -> K)
  (l : list A) (r : A) :
  (forall a, eqb a a = true) ->
  NoDup (map key l) ->
  existsb (fun x => eqb (key x) (key r)) l = false ->
  NoDup (map key (l ++ [r])).
Proof.
  intros Hrefl Hnd H. rewrite map_app. simpl. apply NoDup_snoc; [exact Hnd|].
  apply (not_in_keys eqb); assumption.
Qed.

Lemma map_cond_key {A K : Type} (key : A -> K) (c : A -> bool) (g : A -> A)
  (l : list A) :
  (forall x, key (g x) = key x) ->
  map key (map (fun r => if c r then g r else r) l) = map key l.
Proof.
  intros H. apply map_key_kept. intros x. destruct (c x); [apply H|reflexivity].
Qed.

Lemma In_map_cond {A : Type} (c : A -> bool) (g : A -> A) (l : list A) (y : A) :
  In y (map (fun r => if c r then g r else r) l) ->
  exists r, In r l /\ ((c r = false /\ y = r) \/ (c r = true /\ y = g r)).
Proof.
  intros H. apply in_map_iff in H. destruct H as (r & E & Hr).
  exists r. split; [exact Hr|].
  destruct (c r); [right|left]; (split; [reflexivity|symmetry; exact E]).
Qed.

Lemma phase_progress_key_sym (a r : phase_progress_row) :
  phase_progress_key (pp_opportunity_id a) (Some (pp_phase a)) r
  = phase_progress_key (pp_opportunity_id r) (Some (pp_phase r)) a.
Proof.
  unfold phase_progress_key.
  destruct (pp_opportunity_id a) as [i|], (pp_opportunity_id r) as [j|]; simpl;
    rewrite ?(text_eqb_sym i j), (text_eqb_sym (pp_phase a) (pp_phase r));
    reflexivity.
Qed.

Lemma distinct_progress_keys_snoc (l : list phase_progress_row)
  (r : phase_progress_row) :
  distinct_progress_keys l = true ->
  existsb (phase_progress_key (pp_opportunity_id r) (Some (pp_phase r))) l = false ->
  distinct_progress_keys (l ++ [r]) = true.
Proof.
  induction l as [|a l IH]; simpl; intros Hd Hr; [reflexivity|].
  apply andb_true_iff in Hd. destruct Hd as [Ha Hl].
  apply orb_false_iff in Hr. destruct Hr as [Hra Hrl].
  rewrite existsb_app. simpl. rewrite phase_progress_key_sym, Hra, !orb_false_r.
  rewrite Ha. simpl. apply IH; assumption.
Qed.

Lemma distinct_progress_keys_filter (P : phase_progress_row -> bool)
  (l : list phase_progress_row) :
  distinct_progress_keys l = true -> distinct_progress_keys (filter P l) = true.
Proof.
  induction l as [|a l IH]; simpl; intros Hd; [reflexivity|].
  apply andb_true_iff in Hd. destruct Hd as [Ha Hl].
  destruct (P a); simpl; [|auto].
  rewrite IH by exact Hl. rewrite andb_true_r.
  apply negb_true_iff in Ha. apply negb_true_iff.
  apply existsb_false. intros x Hx. apply filter_In in Hx.
  apply (proj1 (existsb_false _ _) Ha). tauto.
Qed.

Lemma distinct_progress_keys_map (c : phase_progress_row -> bool)
  (g : phase_progress_row -> phase_progress_row) (l : list phase_progress_row) :
  (forall x, pp_opportunity_id (g x) = pp_opportunity_id x) ->
  (forall x, pp_phase (g x) = pp_phase x) ->
  distinct_progress_keys (map (fun r => if c r then g r else r) l)
  = distinct_progress_keys l.
Proof.
  intros Ho Hp.
  assert (K : forall o p x,
             phase_progress_key o p (if c x then g x else x)
             = phase_progress_key o p x).
  { intros o p x. unfold phase_progress_key.
    destruct (c x); [rewrite Ho, Hp|]; reflexivity. }
  induction l as [|a l IH]; simpl; [reflexivity|].
  rewrite IH. f_equal. f_equal.
  assert (E : pp_opportunity_id (if c a then g a else a) = pp_opportunity_id a)
    by (destruct (c a); [apply Ho|reflexivity]).
  assert (E' : pp_phase (if c a then g a else a) = pp_phase a)
    by (destruct (c a); [apply Hp|reflexivity]).
  rewrite E, E'. clear IH.
  induction l as [|b l IH]; simpl; [reflexivity|].
  rewrite K, IH. reflexivity.
Qed.

Lemma declared_with_phase_progress (db : database)
  (l : list phase_progress_row) (seq : Z) :
  declared_constraints db ->
  NoDup (map pp_id l) -> distinct_progress_keys l = true ->
  (forall r, In r l -> opportunity_fkey (pp_opportunity_id r) db = true) ->
  declared_constraints (with_phase_progress db l seq).
Proof.
  intros [] ? ? ?. constructor; assumption.
Qed.

Lemma declared_with_artifacts (db : database) (l : list artifact) :
  declared_constraints db ->
  NoDup (map a_id l) ->
  (forall r, In r l -> opportunity_fkey (a_opportunity_id r) db = true) ->
  declared_constraints (with_artifacts db l).
Proof.
  intros [] ? ?. constructor; assumption.
Qed.

Lemma declared_with_active_opportunity (db : database)
  (l : list active_opportunity_row) (seq : Z) :
  declared_constraints db ->
  NoDup (map ao_id l) -> NoDup (map ao_user_id l) ->
  (forall r, In r l -> existsb (N.eqb (ao_user_id r)) (auth_users db) = true) ->
  (forall r, In r l -> opportunity_fkey (ao_opportunity_id r) db = true) ->
  declared_constraints (with_active_opportunity db l seq).
Proof.
  intros [] ? ? ? ?. constructor; assumption.
Qed.

Lemma declared_with_opportunities (db : database) (l : list opportunity) :
  declared_constraints db ->
  NoDup (map o_id l) ->
  (forall r, In r l -> existsb (N.eqb (o_user_id r)) (auth_users db) = true) ->
  (forall i, has_opportunity i db = true ->
             has_opportunity i (with_opportunities db l) = true) ->
  declared_constraints (with_opportunities db l).
Proof.
  intros [] ? ? K. constructor; try assumption;
    intros r Hr; apply (fkey_kept _ db); auto.
Qed.

Lemma In_snoc {A : Type} (P : A -> Prop) (l : list A) (r : A) :
  (forall x, In x l -> P x) -> P r -> forall x, In x (l ++ [r]) -> P x.
Proof.
  intros Hl Hr x Hx. apply in_app_or in Hx.
  destruct Hx as [Hx|[<-|[]]]; auto.
Qed.

(** What stays after [DELETE FROM opportunities] still refers to a stored
    opportunity. *)
Lemma survivor_fkey (hit : opportunity -> bool) (db db' : database)
  (ref : option text) :
  opportunities db' = filter (fun r => negb (hit r)) (opportunities db) ->
  opportunity_fkey ref db = true ->
  references (map o_id (filter hit (opportunities db))) ref = false ->
  opportunity_fkey ref db' = true.
Proof.
  intros E. destruct ref as [i|]; simpl; [|reflexivity].
  unfold has_opportunity. rewrite E. intros H G.
  apply existsb_exists in H. destruct H as (o & Ho & Hi).
  apply existsb_exists. exists o. split; [|exact Hi].
  apply filter_In. split; [exact Ho|].
  destruct (hit o) eqn:Eh; [|reflexivity]. exfalso.
  assert (F := proj1 (existsb_false _ _) G (o_id o)).
  rewrite text_eqb_sym, Hi in F. discriminate F.
  apply in_map. apply filter_In. split; assumption.
Qed.

Lemma delete_opportunities_keeps_declared (who : role) (id : text)
  (db : database) :
  declared_constraints db ->
  declared_constraints (delete_opportunities who id db).
Proof.
  intros []. unfold delete_opportunities.
  set (hit := fun r => policy_opportunities who r && text_eqb (o_id r) id).
  set (gone := map o_id (filter hit (opportunities db))).
  match goal with |- declared_constraints ?d => set (db' := d) end.
  assert (E : opportunities db'
              = filter (fun r => negb (hit r)) (opportunities db)) by reflexivity.
  constructor; cbn [db' opportunities phase_progress artifacts active_opportunity
                    auth_users].
  - apply NoDup_map_filter. assumption.
  - intros r Hr. apply filter_In in Hr. destruct Hr as [Hr _]. auto.
  - apply NoDup_map_filter. assumption.
  - apply distinct_progress_keys_filter. assumption.
  - intros r Hr. apply filter_In in Hr. destruct Hr as [Hr G].
    apply negb_true_iff in G. apply (survivor_fkey hit db db'); auto.
  - apply NoDup_map_filter. assumption.
  - intros r Hr. apply filter_In in Hr. destruct Hr as [Hr G].
    apply negb_true_iff in G. apply (survivor_fkey hit db db'); auto.
  - rewrite map_cond_key; [assumption|reflexivity].
  - rewrite map_cond_key; [assumption|reflexivity].
  - intros y Hy. apply In_map_cond in Hy.
    destruct Hy as (r & Hr & [[_ ->]|[_ ->]]); simpl; auto.
  - intros y Hy. apply In_map_cond in Hy.
    destruct Hy as (r & Hr & [[G ->]|[_ ->]]); [|reflexivity].
    apply (survivor_fkey hit db db'); auto.
Qed.

(** X6: every statement the database accepts, from any role, keeps every
    PRIMARY KEY, UNIQUE and REFERENCES clause of the four tables true:
    keys stay unique, the pair (opportunity_id, phase) stays unique, and
    no reference is left dangling, also after a DELETE with its CASCADE
    and SET NULL actions. *)
Theorem execute_keeps_declared_constraints (who : role) (now : timestamptz)
  (s : statement) (db db' : database) :
  declared_constraints db ->
  execute who now s db = Ok db' ->
  declared_constraints db'.
Proof.
  intros C. pose proof C as [].
  destruct s; cbn [execute]; intros H; try read_input H.
  - (* INSERT INTO opportunities *)
    apply insert_opportunities_ok in H.
    destruct H as (r & _ & _ & _ & E0 & E1 & ->).
    apply declared_with_opportunities; [exact C| | |].
    + apply (NoDup_map_snoc text_eqb); [apply text_eqb_refl|assumption|exact E0].
    + apply In_snoc; assumption.
    + intros i Hi. unfold has_opportunity in *.
      cbn [opportunities with_opportunities]. rewrite existsb_app, Hi. reflexivity.
  - (* UPDATE opportunities *)
    injection H as <-. unfold update_opportunities_phase.
    apply declared_with_opportunities; [exact C| | |].
    + rewrite map_cond_key; [assumption|reflexivity].
    + intros y Hy. apply In_map_cond in Hy.
      destruct Hy as (r & Hr & [[_ ->]|[_ ->]]); simpl; auto.
    + intros i Hi. rewrite <- Hi. apply has_opportunity_ids.
      cbn [opportunities with_opportunities].
      apply map_cond_key. reflexivity.
  - (* DELETE FROM opportunities *)
    injection H as <-. apply delete_opportunities_keeps_declared. exact C.
  - (* INSERT INTO phase_progress *)
    apply insert_phase_progress_ok in H.
    destruct H as (r & _ & _ & _ & E0 & E1 & E2 & ->).
    apply declared_with_phase_progress; [exact C| | |].
    + apply (NoDup_map_snoc Z.eqb); [apply Z.eqb_refl|assumption|exact E0].
    + apply distinct_progress_keys_snoc; assumption.
    + apply In_snoc; assumption.
  - (* UPDATE phase_progress *)
    injection H as <-. unfold update_phase_progress.
    apply declared_with_phase_progress; [exact C| | |].
    + rewrite map_cond_key; [assumption|reflexivity].
    + rewrite distinct_progress_keys_map; [assumption|reflexivity|reflexivity].
    + intros y Hy. apply In_map_cond in Hy.
      destruct Hy as (r & Hr & [[_ ->]|[_ ->]]); simpl; auto.
  - (* increment_artifacts_count *)
    apply increment_artifacts_count_inv in H. subst db'.
    apply declared_with_phase_progress; [exact C| | |].
    + rewrite map_cond_key; [assumption|reflexivity].
    + rewrite distinct_progress_keys_map; [assumption|reflexivity|reflexivity].
    + intros y Hy. apply In_map_cond in Hy.
      destruct Hy as (r & Hr & [[_ ->]|[_ ->]]); simpl; auto.
  - (* INSERT INTO artifacts *)
    apply insert_artifacts_ok in H.
    destruct H as (r & _ & _ & _ & E0 & E1 & ->).
    apply declared_with_artifacts; [exact C| |].
    + apply (NoDup_map_snoc text_eqb); [apply text_eqb_refl|assumption|exact E0].
    + apply In_snoc; assumption.
  - (* DELETE FROM artifacts *)
    injection H as <-. unfold delete_artifacts.
    apply declared_with_artifacts; [exact C| |].
    + apply NoDup_map_filter. assumption.
    + intros r Hr. apply filter_In in Hr. destruct Hr as [Hr _]. auto.
  - (* INSERT INTO active_opportunity *)
    apply insert_active_opportunity_ok in H.
    destruct H as (r & _ & _ & _ & E0 & E1 & E2 & E3 & ->).
    apply declared_with_active_opportunity; [exact C| | | |].
    + apply (NoDup_map_snoc Z.eqb); [apply Z.eqb_refl|assumption|exact E0].
    + apply (NoDup_map_snoc N.eqb); [apply N.eqb_refl|assumption|exact E1].
    + apply In_snoc; assumption.
    + apply In_snoc; assumption.
  - (* UPDATE active_opportunity *)
    revert H. unfold update_active_opportunity. passed_check.
    intros H. injection H as <-.
    apply declared_with_active_opportunity; [exact C| | | |].
    + rewrite map_cond_key; [assumption|reflexivity].
    + rewrite map_cond_key; [assumption|reflexivity].
    + intros y Hy. apply In_map_cond in Hy.
      destruct Hy as (r & Hr & [[_ ->]|[_ ->]]); simpl; auto.
    + intros y Hy. apply In_map_cond in Hy.
      destruct Hy as (r & Hr & [[_ ->]|[Hit ->]]); [auto|]. simpl.
      apply orb_true_iff in E. destruct E as [E|E]; [|exact E].
      apply negb_true_iff in E.
      assert (F := proj1 (existsb_false _ _) E r Hr). cbv beta in F.
      congruence.
  - (* DELETE FROM active_opportunity *)
    injection H as <-. unfold delete_active_opportunity.
    apply declared_with_active_opportunity; [exact C| | | |].
    + apply NoDup_map_filter. assumption.
    + apply NoDup_map_filter. assumption.
    + intros r Hr. apply filter_In in Hr. destruct Hr as [Hr _]. auto.
    + intros r Hr. apply filter_In in Hr. destruct Hr as [Hr _]. auto.
Qed.

Lemma active_db_declared : declared_constraints active_db.
Proof.
  constructor; first [closed_rows | vm_compute; reflexivity | closed_nodup].
Qed.

Lemma execute_keeps_declared_constraints_witness :
  declared_constraints (delete_opportunities (api_role (Some alice)) opp_a active_db).
Proof.
  exact (execute_keeps_declared_constraints (api_role (Some alice)) 5%Z
           (DELETE_opportunities opp_a) active_db _ active_db_declared eq_refl).
Defined.

(** ** The keys of the SERIAL columns *)

Lemma serial_row_key (seq : Z) (v : phase_progress_values) (r : phase_progress_row) :
  ppv_id v = DEFAULT -> phase_progress_row_of seq v = Ok r -> pp_id r = seq.
Proof.
  intros E. unfold phase_progress_row_of. rewrite E. cbn [serial fst not_null bind].
  built. intros H. injection H as <-. reflexivity.
Qed.

Lemma serial_pointer_key (seq : Z) (now : timestamptz)
  (v : active_opportunity_values) (r : active_opportunity_row) :
  aov_id v = DEFAULT -> active_opportunity_row_of seq now v = Ok r -> ao_id r = seq.
Proof.
  intros E. unfold active_opportunity_row_of. rewrite E.
  cbn [serial fst not_null bind].
  built. intros H. injection H as <-. reflexivity.
Qed.

(** The part of [constraints_hold] that the schema does not declare is kept
    by every statement, accepted or refused, that leaves the keys of the
    SERIAL columns to their sequences; an INSERT that names such a key
    itself can break it. *)
Lemma perform_keeps_keys_below_sequences (who : role) (now : timestamptz)
  (s : statement) (db : database) :
  keys_from_sequences s = true ->
  (forall r, In r (phase_progress db) -> (pp_id r < phase_progress_id_seq db)%Z) ->
  (forall r, In r (active_opportunity db) ->
             (ao_id r < active_opportunity_id_seq db)%Z) ->
  let db' := fst (perform who now s db) in
  (forall r, In r (phase_progress db') -> (pp_id r < phase_progress_id_seq db')%Z)
  /\ (forall r, In r (active_opportunity db') ->
                (ao_id r < active_opportunity_id_seq db')%Z).
Proof.
  intros K Hp Ha. cbv zeta. unfold perform.
  destruct (execute who now s db) as [db'|e] eqn:H; cbn [fst].
  - destruct s; cbn [execute] in H; try read_input H.
    + apply insert_opportunities_ok in H. destruct H as (r & _ & _ & _ & _ & _ & ->).
      split; assumption.
    + injection H as <-. split; assumption.
    + injection H as <-. split; cbn [delete_opportunities phase_progress
        active_opportunity phase_progress_id_seq active_opportunity_id_seq].
      * intros r Hr. apply filter_In in Hr. apply Hp, Hr.
      * intros y Hy. apply In_map_cond in Hy.
        destruct Hy as (r & Hr & [[_ ->]|[_ ->]]); simpl; auto.
    + apply insert_phase_progress_ok in H.
      destruct H as (r & _ & Hr & _ & _ & _ & _ & ->).
      cbn [keys_from_sequences] in K.
      destruct (ppv_id v) eqn:E; try discriminate K.
      pose proof (serial_row_key _ v r E Hr) as Hid.
      split; [|exact Ha].
      cbn [with_phase_progress phase_progress phase_progress_id_seq serial snd].
      intros x Hx. apply in_app_or in Hx. destruct Hx as [Hx|[<-|[]]].
      * specialize (Hp x Hx). lia.
      * rewrite Hid. lia.
    + injection H as <-. split; [|exact Ha].
      cbn [update_phase_progress with_phase_progress phase_progress
           phase_progress_id_seq].
      intros y Hy. apply In_map_cond in Hy.
      destruct Hy as (r & Hr & [[_ ->]|[_ ->]]); simpl; auto.
    + apply increment_artifacts_count_inv in H. subst db'. split; [|exact Ha].
      cbn [with_phase_progress phase_progress phase_progress_id_seq].
      intros y Hy. apply In_map_cond in Hy.
      destruct Hy as (r & Hr & [[_ ->]|[_ ->]]); simpl; auto.
    + apply insert_artifacts_ok in H. destruct H as (r & _ & _ & _ & _ & _ & ->).
      split; assumption.
    + injection H as <-. split; assumption.
    + apply insert_active_opportunity_ok in H.
      destruct H as (r & _ & Hr & _ & _ & _ & _ & _ & ->).
      cbn [keys_from_sequences] in K.
      destruct (aov_id v) eqn:E; try discriminate K.
      pose proof (serial_pointer_key _ now v r E Hr) as Hid.
      split; [exact Hp|].
      cbn [with_active_opportunity active_opportunity active_opportunity_id_seq
           serial snd].
      intros x Hx. apply in_app_or in Hx. destruct Hx as [Hx|[<-|[]]].
      * specialize (Ha x Hx). lia.
      * rewrite Hid. lia.
    + apply update_active_opportunity_inv in H. subst db'. split; [exact Hp|].
      cbn [with_active_opportunity active_opportunity active_opportunity_id_seq].
      intros y Hy. apply In_map_cond in Hy.
      destruct Hy as (r & Hr & [[_ ->]|[_ ->]]); simpl; auto.
    + injection H as <-. split; [exact Hp|].
      cbn [delete_active_opportunity with_active_opportunity active_opportunity
           active_opportunity_id_seq].
      intros r Hr. apply filter_In in Hr. apply Ha, Hr.
  - unfold refused. destruct (input s); [|split; assumption].
    destruct s; try (split; assumption).
    + split; [|exact Ha].
      cbn [with_phase_progress phase_progress phase_progress_id_seq].
      intros r Hr. specialize (Hp r Hr).
      destruct (ppv_id v); cbn [serial snd]; lia.
    + split; [exact Hp|].
      cbn [with_active_opportunity active_opportunity active_opportunity_id_seq].
      intros r Hr. specialize (Ha r Hr).
      destruct (aov_id v); cbn [serial snd]; lia.
Qed.

(** An INSERT that names the key of a SERIAL column is accepted, and leaves
    the sequence behind a stored key. *)
Example key_named_by_the_statement :
  exists db',
    execute service_role 0%Z
      (INSERT_phase_progress
         {| ppv_id := VALUE 5%Z;
            ppv_opportunity_id := NULL;
            ppv_phase := VALUE (js "discovery");
            ppv_status := DEFAULT;
            ppv_start_date := DEFAULT;
            ppv_end_date := DEFAULT;
            ppv_key_activities := DEFAULT;
            ppv_artifacts_count := DEFAULT;
            ppv_completion_percentage := DEFAULT |})
      acme_db = Ok db'
    /\ phase_progress_id_seq db' = 5%Z
    /\ map pp_id (phase_progress db') = [1; 2; 3; 4; 5]%Z.
Proof. eexists. split; [vm_compute; reflexivity|]. split; reflexivity. Qed.

(** ** What is read, and what is refused first *)

Example storable_texts :
  storable (js "Acme Corp") = true
  /\ storable [] = true
  /\ storable [65; 0]%N = false
  /\ storable [55357; 56832]%N = true
  /\ storable [55357]%N = false
  /\ storable [56832; 55357]%N = false
  /\ storable [65536]%N = false.
Proof. repeat split. Qed.

Lemma storable_units (n : nat) :
  forall s, List.length s <= n -> storable s = true ->
            forall c, In c s -> c <> 0%N /\ (c < 65536)%N.
Proof.
  induction n as [|n IH]; intros s Hn Hs c Hc.
  - destruct s; [destruct Hc|simpl in Hn; lia].
  - destruct s as [|a s]; [destruct Hc|]. simpl in Hn. cbn [storable] in Hs.
    destruct (high_surrogate a) eqn:Eh.
    + destruct s as [|d s]; [discriminate|].
      apply andb_true_iff in Hs. destruct Hs as [Hd Hs]. simpl in Hn.
      unfold high_surrogate in Eh. unfold low_surrogate in Hd.
      apply andb_true_iff in Eh, Hd. destruct Eh as [E1 E2], Hd as [D1 D2].
      apply N.leb_le in E1, E2, D1, D2.
      destruct Hc as [<-|[<-|Hc]]; [lia|lia|].
      apply (IH s); [lia|exact Hs|exact Hc].
    + rewrite !andb_true_iff in Hs. destruct Hs as [[[H0 _] Hmax] Hs].
      apply negb_true_iff, N.eqb_neq in H0. apply N.leb_le in Hmax.
      destruct Hc as [<-|Hc]; [split; [exact H0|lia]|].
      apply (IH s); [lia|exact Hs|exact Hc].
Qed.

(** A text a TEXT column holds has no unit 0 and nothing beyond a code
    unit. *)
Lemma storable_code_units (s : text) (c : N) :
  storable s = true -> In c s -> c <> 0%N /\ (c < 65536)%N.
Proof. intros Hs. exact (storable_units (List.length s) s (le_n _) Hs c). Qed.

(** The values are read before the policy is looked at, and the policy
    before the NOT NULL constraints. *)
Example insert_checks_in_order :
  insert_opportunities (api_role (Some bob)) 0%Z
    (opportunity_insert [0]%N alice NULL (VALUE (js "Beta Inc")) NULL) two_users
  = Error character_not_in_repertoire
  /\ insert_opportunities (api_role (Some bob)) 0%Z
       (opportunity_insert opp_b alice NULL (VALUE (js "Beta Inc")) NULL) two_users
     = Error (insufficient_privilege "opportunities")
  /\ insert_opportunities (api_role (Some bob)) 0%Z
       (opportunity_insert opp_b bob NULL (VALUE (js "Beta Inc")) NULL) two_users
     = Error (not_null_violation "name").
Proof. repeat split. Qed.

(** A value outside INTEGER is refused when it is read, before the sequence
    is drawn from; a row the policy refuses has drawn from it. *)
Example refused_inserts :
  perform service_role 0%Z
    (INSERT_phase_progress
       {| ppv_id := DEFAULT;
          ppv_opportunity_id := VALUE opp_a;
          ppv_phase := VALUE (js "review");
          ppv_status := DEFAULT;
          ppv_start_date := DEFAULT;
          ppv_end_date := DEFAULT;
          ppv_key_activities := DEFAULT;
          ppv_artifacts_count := VALUE 2147483648%Z;
          ppv_completion_percentage := DEFAULT |})
    acme_db
  = (acme_db, Some numeric_value_out_of_range)
  /\ perform (api_role (Some bob)) 0%Z
       (INSERT_phase_progress
          (EngagementService.initial_progress opp_a 0%Z false (js "review")))
       acme_db
     = (with_phase_progress acme_db (phase_progress acme_db) 6%Z,
        Some (insufficient_privilege "phase_progress")).
Proof. split; reflexivity. Qed.

(** ** The single-user script, run again *)

Lemma seed_adds_a_row (now : timestamptz) (t : SingleUser.active_opportunity_table) :
  (forall r, In r (SingleUser.rows t) -> (SingleUser.id r < SingleUser.id_seq t)%Z) ->
  SingleUser.seed now t
  = {| SingleUser.rows :=
         SingleUser.rows t
         ++ [{| SingleUser.id := SingleUser.id_seq t;
                SingleUser.opportunity_id := None;
                SingleUser.updated_at := Some now |}];
       SingleUser.id_seq := (SingleUser.id_seq t + 1)%Z |}.
Proof.
  intros H. unfold SingleUser.seed.
  replace (existsb _ (SingleUser.rows t)) with false; [reflexivity|].
  symmetry. apply existsb_false. intros r Hr. apply Z.eqb_neq.
  specialize (H r Hr). lia.
Qed.

Lemma seeds_add_rows (nows : list timestamptz)
  (t : SingleUser.active_opportunity_table) :
  (forall r, In r (SingleUser.rows t) -> (SingleUser.id r < SingleUser.id_seq t)%Z) ->
  let t' := fold_left (fun t now => SingleUser.seed now t) nows t in
  List.length (SingleUser.rows t') = List.length (SingleUser.rows t) + List.length nows
  /\ forall r, In r (SingleUser.rows t') ->
               In r (SingleUser.rows t) \/ SingleUser.opportunity_id r = None.
Proof.
  revert t. induction nows as [|now nows IH]; intros t H; simpl.
  - split; [lia|auto].
  - rewrite (seed_adds_a_row now t H).
    match goal with |- context [fold_left _ nows ?t1] => specialize (IH t1) end.
    simpl in IH. destruct IH as [IH1 IH2].
    + intros r Hr. apply in_app_or in Hr. destruct Hr as [Hr|[<-|[]]]; simpl.
      * specialize (H r Hr). lia.
      * lia.
    + split.
      * rewrite IH1, length_app. simpl. lia.
      * intros r Hr. destruct (IH2 r Hr) as [Hin|Hn]; [|auto].
        apply in_app_or in Hin. destruct Hin as [Hin|[<-|[]]]; auto.
Qed.

(** X7: the seeding INSERT of the single-user script never meets a
    conflict: every run of the script adds one more row with a NULL pointer
    to [active_opportunity], so after n runs the table meant to hold one
    row holds n. *)
Theorem every_run_seeds_a_row (nows : list timestamptz) :
  List.length (SingleUser.rows (SingleUser.runs nows)) = List.length nows
  /\ forall r, In r (SingleUser.rows (SingleUser.runs nows)) ->
               SingleUser.opportunity_id r = None.
Proof.
  destruct (seeds_add_rows nows SingleUser.created_table) as [H1 H2].
  - intros r [].
  - split; [exact H1|]. intros r Hr. destruct (H2 r Hr) as [[]|H]. exact H.
Qed.

(** ** The multi-user script, run *)

Lemma has_In (x : string) (l : list string) :
  Script.has x l = true <-> In x l.
Proof.
  unfold Script.has. rewrite existsb_exists. split.
  - intros (y & Hy & E). apply String.eqb_eq in E. subst. exact Hy.
  - intros H. exists x. split; [exact H|apply String.eqb_refl].
Qed.

(** Looking a table up depends on the tables only, and a table that is
    added at the end hides none. *)
Lemma columns_of_tables (t : string) (c c' : Script.catalog) :
  Script.tables c' = Script.tables c ->
  Script.columns_of t c' = Script.columns_of t c.
Proof. unfold Script.columns_of. intros ->. reflexivity. Qed.

Lemma lacking_tables (l : Script.names) (c c' : Script.catalog) :
  Script.tables c' = Script.tables c ->
  Script.lacking l c' = Script.lacking l c.
Proof.
  intros E. induction l as [|[t cols] l IH]; simpl; [reflexivity|].
  rewrite (columns_of_tables t c c' E), IH. reflexivity.
Qed.

Lemma settled_tables (s : Script.ddl) (c c' : Script.catalog) :
  Script.tables c' = Script.tables c ->
  Script.settled s c' = Script.settled s c.
Proof.
  intros E. destruct s; unfold Script.settled;
    rewrite ?(lacking_tables _ c c' E), ?(columns_of_tables _ c c' E); reflexivity.
Qed.

Lemma columns_of_snoc (t : string) (c c' : Script.catalog) (x : string * list string) :
  Script.tables c' = Script.tables c ++ [x] ->
  Script.columns_of t c'
  = match Script.columns_of t c with
    | Some y => Some y
    | None => if String.eqb (fst x) t then Some (snd x) else None
    end.
Proof.
  unfold Script.columns_of. intros ->.
  induction (Script.tables c) as [|y l IH]; simpl.
  - destruct (String.eqb (fst x) t); reflexivity.
  - destruct (String.eqb (fst y) t); [reflexivity|exact IH].
Qed.

(** What one statement does to the tables and to the policies. *)
Lemma run1_effect (s : Script.ddl) (c c' : Script.catalog) :
  Script.run1 s c = inl c' ->
  (Script.tables c' = Script.tables c
   \/ exists t cols refs,
        s = Script.CREATE_TABLE_IF_NOT_EXISTS t cols refs
        /\ Script.columns_of t c = None
        /\ Script.tables c' = Script.tables c ++ [(t, cols)])
  /\ (Script.policies c' = Script.policies c
      \/ exists p t reads,
           s = Script.CREATE_POLICY p t reads
           /\ Script.policies c' = Script.policies c ++ [(p, t)])
  /\ Script.settled s c' = true.
Proof.
  destruct s as [e|t cols refs|t cols|i t cols|t|p t reads|f|t];
    cbn [Script.run1].
  - intros H. injection H as <-. repeat split; left; reflexivity.
  - destruct (Script.columns_of t c) as [x|] eqn:E.
    + intros H. injection H as <-.
      split; [left; reflexivity|]. split; [left; reflexivity|].
      unfold Script.settled. rewrite E. reflexivity.
    + destruct (Script.lacking refs c); [discriminate|].
      intros H. injection H as <-.
      split; [right; exists t, cols, refs; repeat split; assumption|].
      split; [left; reflexivity|].
      unfold Script.settled.
      match goal with
      | |- context [Script.columns_of t ?c1] =>
          rewrite (columns_of_snoc t c c1 (t, cols) eq_refl)
      end.
      rewrite E. simpl.
      rewrite String.eqb_refl. reflexivity.
  - destruct (Script.lacking [(t, cols)] c) eqn:E; [discriminate|].
    intros H. injection H as <-.
    split; [left; reflexivity|]. split; [left; reflexivity|].
    unfold Script.settled. rewrite E. reflexivity.
  - destruct (Script.lacking [(t, cols)] c) eqn:E; [discriminate|].
    intros H. injection H as <-.
    split; [left; reflexivity|]. split; [left; reflexivity|].
    unfold Script.settled.
    match goal with
    | |- context [Script.lacking ?l ?c1] =>
        rewrite (lacking_tables l c c1 eq_refl)
    end.
    rewrite E. reflexivity.
  - destruct (Script.lacking [(t, [])] c) eqn:E; [discriminate|].
    intros H. injection H as <-.
    split; [left; reflexivity|]. split; [left; reflexivity|].
    unfold Script.settled.
    match goal with
    | |- context [Script.lacking ?l ?c1] =>
        rewrite (lacking_tables l c c1 eq_refl)
    end.
    rewrite E. reflexivity.
  - destruct (Script.lacking ((t, []) :: reads) c) eqn:E; [discriminate|].
    destruct (Script.has_policy p t (Script.policies c)); [discriminate|].
    intros H. injection H as <-.
    split; [left; reflexivity|].
    split; [right; exists p, t, reads; split; reflexivity|].
    unfold Script.settled.
    match goal with
    | |- context [Script.lacking ?l ?c1] =>
        rewrite (lacking_tables l c c1 eq_refl)
    end.
    rewrite E. reflexivity.
  - intros H. injection H as <-. repeat split; left; reflexivity.
  - destruct (Script.lacking [(t, [])] c) eqn:E; [discriminate|].
    intros H. injection H as <-.
    split; [left; reflexivity|]. split; [left; reflexivity|].
    unfold Script.settled.
    match goal with
    | |- context [Script.lacking ?l ?c1] =>
        rewrite (lacking_tables l c c1 eq_refl)
    end.
    rewrite E. reflexivity.
Qed.

(** Nothing in a script drops or changes a table, or drops a policy. *)
Lemma run1_keeps (s : Script.ddl) (c c' : Script.catalog) :
  Script.run1 s c = inl c' ->
  (forall t x, Script.columns_of t c = Some x -> Script.columns_of t c' = Some x)
  /\ (forall p t, Script.has_policy p t (Script.policies c) = true ->
                  Script.has_policy p t (Script.policies c') = true).
Proof.
  intros H. destruct (run1_effect s c c' H) as (T & P & _). split.
  - intros t x E. destruct T as [T|(t' & cols & refs & _ & _ & T)].
    + rewrite (columns_of_tables t c c' T). exact E.
    + rewrite (columns_of_snoc t c c' _ T), E. reflexivity.
  - intros p t E. destruct P as [->|(p' & t' & reads & _ & ->)]; [exact E|].
    unfold Script.has_policy in *. rewrite existsb_app, E. reflexivity.
Qed.

Lemma run_keeps (l : list Script.ddl) (c c' : Script.catalog) :
  Script.run l c = inl c' ->
  (forall t x, Script.columns_of t c = Some x -> Script.columns_of t c' = Some x)
  /\ (forall p t, Script.has_policy p t (Script.policies c) = true ->
                  Script.has_policy p t (Script.policies c') = true).
Proof.
  revert c. induction l as [|s l IH]; simpl; intros c H.
  - injection H as <-. auto.
  - destruct (Script.run1 s c) as [c1|e] eqn:E; [|discriminate].
    destruct (run1_keeps s c c1 E) as [T1 P1].
    destruct (IH c1 H) as [T2 P2]. split; auto.
Qed.

Lemma lacking_kept (l : Script.names) (c c' : Script.catalog) :
  (forall t x, Script.columns_of t c = Some x -> Script.columns_of t c' = Some x) ->
  Script.lacking l c = None -> Script.lacking l c' = None.
Proof.
  intros K. induction l as [|[t cols] l IH]; simpl; [reflexivity|].
  destruct (Script.columns_of t c) as [x|] eqn:E; [|discriminate].
  rewrite (K t x E).
  destruct (find _ cols); [discriminate|exact IH].
Qed.

Lemma settled_kept (s : Script.ddl) (c c' : Script.catalog) :
  (forall t x, Script.columns_of t c = Some x -> Script.columns_of t c' = Some x) ->
  Script.settled s c = true -> Script.settled s c' = true.
Proof.
  intros K. destruct s; unfold Script.settled; try reflexivity;
    try (match goal with
         | |- context [Script.lacking ?l c] =>
             destruct (Script.lacking l c) eqn:E; [discriminate|];
             rewrite (lacking_kept l c c' K E); reflexivity
         end).
  destruct (Script.columns_of name c) as [x|] eqn:E; [|discriminate].
  rewrite (K name x E). reflexivity.
Qed.

Lemma run_app (l1 l2 : list Script.ddl) (c : Script.catalog) :
  Script.run (l1 ++ l2) c
  = match Script.run l1 c with
    | inl c' => Script.run l2 c'
    | inr e => inr e
    end.
Proof.
  revert c. induction l1 as [|s l1 IH]; simpl; intros c; [reflexivity|].
  destruct (Script.run1 s c); [apply IH|reflexivity].
Qed.

(** A table of the catalog a run leaves was there before or is one the
    script creates. *)
Lemma run_origin (l : list Script.ddl) :
  forall c c' t x,
    Script.run l c = inl c' -> Script.columns_of t c' = Some x ->
    Script.columns_of t c <> None \/ In t (Script.creates l).
Proof.
  induction l as [|s l IH]; simpl; intros c c' t x H E.
  - injection H as <-. left. congruence.
  - destruct (Script.run1 s c) as [c1|e] eqn:R; [|discriminate].
    destruct (IH c1 c' t x H E) as [H1|H1]; [|right; apply in_or_app; auto].
    destruct (run1_effect s c c1 R) as ([T|(t' & cols & refs & -> & _ & T)] & _).
    + left. rewrite <- (columns_of_tables t c c1 T). exact H1.
    + rewrite (columns_of_snoc t c c1 _ T) in H1.
      destruct (Script.columns_of t c); [left; discriminate|].
      simpl in H1. destruct (String.eqb t' t) eqn:Et; [|congruence].
      apply String.eqb_eq in Et. subst. right. simpl. auto.
Qed.

(** After a script ran through, every statement of it finds the tables and
    columns it names, and every policy of it exists. *)
Lemma run_settles (l : list Script.ddl) :
  forall c c', Script.run l c = inl c' ->
    (forall s, In s l -> Script.settled s c' = true)
    /\ (forall p t reads, In (Script.CREATE_POLICY p t reads) l ->
                          Script.has_policy p t (Script.policies c') = true).
Proof.
  induction l as [|s l IH]; simpl; intros c c' H.
  - split; [intros s []|intros p t r []].
  - destruct (Script.run1 s c) as [c1|e] eqn:E; [|discriminate].
    destruct (IH c1 c' H) as [S P]. destruct (run_keeps l c1 c' H) as [KT KP].
    destruct (run1_effect s c c1 E) as (_ & Q & S1).
    split.
    + intros s' [<-|Hs]; [|auto]. exact (settled_kept s c1 c' KT S1).
    + intros p t reads [->|Hin]; [|eauto].
      apply KP. destruct Q as [Q|(p' & t' & r' & Es & ->)].
      * cbn [Script.run1] in E.
        destruct (Script.lacking _ c); [discriminate|].
        destruct (Script.has_policy p t (Script.policies c)) eqn:Hp;
          [discriminate|].
        injection E as <-. simpl in Q.
        apply (f_equal (@List.length _)) in Q. rewrite length_app in Q.
        simpl in Q. lia.
      * injection Es as <- <- _. unfold Script.has_policy.
        rewrite existsb_app. simpl. rewrite !String.eqb_refl. apply orb_true_r.
Qed.

(** Statements other than CREATE POLICY that find what they name run
    through, and leave the tables and the policies as they are. *)
Lemma run_settled (l : list Script.ddl) :
  forall c,
    (forall s, In s l -> Script.is_policy s = false /\ Script.settled s c = true) ->
    exists c', Script.run l c = inl c'
               /\ Script.tables c' = Script.tables c
               /\ Script.policies c' = Script.policies c.
Proof.
  induction l as [|s l IH]; intros c H.
  - exists c. repeat split.
  - destruct (H s (or_introl eq_refl)) as [Hp Hs].
    assert (R : exists c1, Script.run1 s c = inl c1
                           /\ Script.tables c1 = Script.tables c
                           /\ Script.policies c1 = Script.policies c).
    { destruct s as [e|t cols refs|t cols|i t cols|t|p t reads|f|t];
        cbn [Script.run1]; unfold Script.settled in Hs;
        try discriminate Hp;
        try (match goal with
             | |- context [Script.lacking ?n c] =>
                 destruct (Script.lacking n c); [discriminate Hs|]
             end);
        try (eexists; repeat split; fail).
      destruct (Script.columns_of t c); [|discriminate Hs].
      eexists; repeat split. }
    destruct R as (c1 & R & T & P).
    destruct (IH c1) as (c' & R' & T' & P').
    { intros s' Hs'. destruct (H s' (or_intror Hs')) as [H1 H2].
      split; [exact H1|]. rewrite (settled_tables s' c c1 T). exact H2. }
    exists c'. cbn [Script.run]. rewrite R.
    repeat split; [exact R'|congruence|congruence].
Qed.

(** X8: run as written, the multi-user script gets through on no project
    that lacks the [chatkit_threads] table: the index on that table is
    created before the table is.  On a new project the run stops there,
    with undefined_table, before any policy exists.  On a project set up
    with the single-user script it stops earlier, at the first index on
    [user_id]: CREATE TABLE IF NOT EXISTS leaves the old [opportunities]
    table as it is, without that column. *)
Theorem multi_user_script_stops_at_chat_index (c : Script.catalog) :
  (Script.columns_of "chatkit_threads" c = None ->
   exists e, Script.run Script.multi_user c = inr e)
  /\ Script.run Script.multi_user Script.new_project
     = inr (Script.undefined_table "chatkit_threads")
  /\ exists c1,
       Script.run Script.single_user Script.new_project = inl c1
       /\ Script.run1
            (Script.CREATE_TABLE_IF_NOT_EXISTS "opportunities"
               ["id"; "user_id"; "name"; "client_name"; "description";
                "current_phase"; "status"; "created_at"; "context_summary";
                "stakeholders"; "key_insights"]
               [("auth.users", ["id"])])%string c1 = inl c1
       /\ Script.run1
            (Script.CREATE_INDEX_IF_NOT_EXISTS "idx_opportunities_user"
               "opportunities" ["user_id"])%string c1
          = inr (Script.undefined_column "user_id")
       /\ Script.run Script.multi_user c1
          = inr (Script.undefined_column "user_id").
Proof.
  split; [|split; [vm_compute; reflexivity|]].
  - intros Hchat.
    destruct (Script.run Script.multi_user c) as [c'|e] eqn:R; [|eauto].
    exfalso.
    rewrite <- (firstn_skipn 16 Script.multi_user), run_app in R.
    destruct (Script.run (firstn 16 Script.multi_user) c) as [c16|e] eqn:R16;
      [|discriminate].
    change (skipn 16 Script.multi_user)
      with (Script.CREATE_INDEX_IF_NOT_EXISTS "idx_chatkit_threads_user"
              "chatkit_threads" ["user_id"%string]
            :: skipn 17 Script.multi_user) in R.
    cbn [Script.run Script.run1 Script.lacking] in R.
    destruct (Script.columns_of "chatkit_threads" c16) as [x|] eqn:E;
      [|discriminate].
    destruct (run_origin _ c c16 _ x R16 E) as [H|H]; [congruence|].
    vm_compute in H.
    repeat (destruct H as [H|H]; [discriminate H|]). destruct H.
  - eexists. split; [vm_compute; reflexivity|].
    split; [reflexivity|]. split; vm_compute; reflexivity.
Qed.

Lemma multi_user_script_stops_at_chat_index_witness :
  Script.columns_of "chatkit_threads" Script.new_project = None
  /\ exists e, Script.run Script.multi_user Script.new_project = inr e.
Proof.
  split; [reflexivity|].
  exact (proj1 (multi_user_script_stops_at_chat_index Script.new_project)
           eq_refl).
Defined.

(** X9: the multi-user script cannot be run twice: on the catalog a
    successful run leaves, the run stops at the first CREATE POLICY with
    duplicate_object, since policies have no IF NOT EXISTS form. *)
Theorem multi_user_script_runs_once (c c' : Script.catalog) :
  Script.run Script.multi_user c = inl c' ->
  Script.run Script.multi_user c'
  = inr (Script.duplicate_object "Users can view own opportunities").
Proof.
  intros H. destruct (run_settles Script.multi_user c c' H) as [S P].
  rewrite <- (firstn_skipn 24 Script.multi_user), run_app.
  destruct (run_settled (firstn 24 Script.multi_user) c') as (c2 & R & T & Q).
  - intros s Hs. split.
    + assert (F : forallb (fun s => negb (Script.is_policy s))
                          (firstn 24 Script.multi_user) = true) by reflexivity.
      apply negb_true_iff. exact (proj1 (forallb_forall _ _) F s Hs).
    + apply S. rewrite <- (firstn_skipn 24 Script.multi_user).
      apply in_or_app. left. exact Hs.
  - rewrite R.
    change (skipn 24 Script.multi_user)
      with (Script.CREATE_POLICY "Users can view own opportunities"
              "opportunities" (Script.own "opportunities")
            :: skipn 25 Script.multi_user).
    cbn [Script.run Script.run1].
    assert (L : Script.settled
                  (Script.CREATE_POLICY "Users can view own opportunities"
                     "opportunities" (Script.own "opportunities")) c' = true).
    { apply S. vm_compute. tauto. }
    unfold Script.settled in L. rewrite (lacking_tables _ c' c2 T).
    destruct (Script.lacking _ c'); [discriminate L|].
    rewrite Q, (P "Users can view own opportunities"%string
                  "opportunities"%string (Script.own "opportunities"));
      [reflexivity|].
    vm_compute. tauto.
Qed.

Lemma multi_user_script_runs_once_witness :
  exists c',
    Script.run Script.multi_user Script.existing_project = inl c'
    /\ Script.run Script.multi_user c'
       = inr (Script.duplicate_object "Users can view own opportunities").
Proof.
  eexists. split; [vm_compute; reflexivity|].
  apply (multi_user_script_runs_once Script.existing_project).
  vm_compute. reflexivity.
Defined.

(* ================================================================== *)
(** * Further properties of the front end *)
(* ================================================================== *)

(** ** The title taken from a file name *)

Lemma extension_has_no_dot (base ext : text) :
  forallb AddArtifactModal.extension_unit (base ++ AddArtifactModal.dot :: ext)
  = false.
Proof.
  rewrite forallb_app. cbn [forallb].
  replace (AddArtifactModal.extension_unit AddArtifactModal.dot) with false
    by reflexivity.
  apply andb_false_r.
Qed.

(** X10: the title [handleFileChange] proposes is the file name without
    its last extension: for every base name, dots and slashes included, and
    every non-empty extension free of dots and slashes, the name
    base.extension is cut back to the base. *)
Theorem stripExtension_drops_the_last_extension (base ext : text) :
  ext <> [] ->
  forallb AddArtifactModal.extension_unit ext = true ->
  AddArtifactModal.stripExtension (base ++ AddArtifactModal.dot :: ext) = base.
Proof.
  intros Hne Hext. induction base as [|c base IH]; simpl.
  - rewrite Hext. destruct ext; [congruence|reflexivity].
  - rewrite extension_has_no_dot, andb_false_r, IH. reflexivity.
Qed.

Lemma stripExtension_drops_the_last_extension_witness :
  AddArtifactModal.stripExtension (js "notes.v2/final.report.pdf")
  = js "notes.v2/final.report".
Proof.
  apply (stripExtension_drops_the_last_extension
           (js "notes.v2/final.report") (js "pdf")).
  - discriminate.
  - reflexivity.
Defined.

(** X11: a file name that does not end in such an extension is proposed
    as the title unchanged: a name without a dot, a name ending in a dot,
    and a name whose last dot is followed by a slash. *)
Theorem stripExtension_keeps_other_names (name : text) :
  (forall base ext, name = base ++ AddArtifactModal.dot :: ext ->
                    ext = [] \/ forallb AddArtifactModal.extension_unit ext = false) ->
  AddArtifactModal.stripExtension name = name.
Proof.
  induction name as [|c name IH]; intros H; simpl; [reflexivity|].
  rewrite IH.
  - destruct (N.eqb c AddArtifactModal.dot) eqn:Ec; [|reflexivity].
    apply N.eqb_eq in Ec. subst c.
    destruct (H [] name eq_refl) as [->|E]; [reflexivity|].
    rewrite E, andb_false_r. reflexivity.
  - intros base ext E. apply (H (c :: base) ext). rewrite E. reflexivity.
Qed.

Lemma stripExtension_keeps_other_names_witness :
  AddArtifactModal.stripExtension (js "Makefile") = js "Makefile".
Proof.
  apply stripExtension_keeps_other_names. intros base ext E. exfalso.
  assert (H : In AddArtifactModal.dot (js "Makefile"))
    by (rewrite E; apply in_elt).
  vm_compute in H. repeat (destruct H as [H|H]; [discriminate H|]). exact H.
Defined.

(** X12: picking a file while the title is empty and then submitting in
    file mode sends the artifact under the file name without its
    extension, with the content [File: name], when that title is not
    empty; when it is empty, as for a name like [.env], nothing is sent. *)
Theorem picked_file_titles_the_artifact (st : AddArtifactModal.State)
  (f : AddArtifactModal.File) :
  AddArtifactModal.mode st = AddArtifactModal.file_mode ->
  truthy (AddArtifactModal.selectedType st) = true ->
  AddArtifactModal.st_title st = [] ->
  AddArtifactModal.handleSubmit (AddArtifactModal.handleFileChange (Some f) st)
  = if truthy (AddArtifactModal.stripExtension (AddArtifactModal.file_name f))
    then Some {| AddArtifactModal.type := AddArtifactModal.selectedType st;
                 AddArtifactModal.title :=
                   AddArtifactModal.stripExtension (AddArtifactModal.file_name f);
                 AddArtifactModal.content :=
                   js "File: " ++ AddArtifactModal.file_name f;
                 AddArtifactModal.file := Some f;
                 AddArtifactModal.tags :=
                   AddArtifactModal.parseTags (AddArtifactModal.st_tags st) |}
    else None.
Proof.
  intros Hm Ht Hempty.
  unfold AddArtifactModal.handleSubmit, AddArtifactModal.handleFileChange.
  cbn [AddArtifactModal.mode AddArtifactModal.selectedType
       AddArtifactModal.st_title AddArtifactModal.st_content
       AddArtifactModal.st_file AddArtifactModal.st_tags].
  rewrite Hm, Ht, Hempty.
  cbn [AddArtifactModal.is_type AddArtifactModal.present truthy negb andb orb].
  destruct (truthy (AddArtifactModal.stripExtension (AddArtifactModal.file_name f)));
    reflexivity.
Qed.

Lemma picked_file_titles_the_artifact_witness :
  AddArtifactModal.handleSubmit
    (AddArtifactModal.handleFileChange
       (Some {| AddArtifactModal.file_name := js "report.pdf" |})
       {| AddArtifactModal.mode := AddArtifactModal.file_mode;
          AddArtifactModal.selectedType := js "deliverable";
          AddArtifactModal.st_title := [];
          AddArtifactModal.st_content := [];
          AddArtifactModal.st_file := None;
          AddArtifactModal.st_tags := js "final, signed" |})
  = Some {| AddArtifactModal.type := js "deliverable";
            AddArtifactModal.title := js "report";
            AddArtifactModal.content := js "File: report.pdf";
            AddArtifactModal.file :=
              Some {| AddArtifactModal.file_name := js "report.pdf" |};
            AddArtifactModal.tags := [js "final"; js "signed"] |}.
Proof.
  exact (picked_file_titles_the_artifact
           {| AddArtifactModal.mode := AddArtifactModal.file_mode;
              AddArtifactModal.selectedType := js "deliverable";
              AddArtifactModal.st_title := [];
              AddArtifactModal.st_content := [];
              AddArtifactModal.st_file := None;
              AddArtifactModal.st_tags := js "final, signed" |}
           {| AddArtifactModal.file_name := js "report.pdf" |}
           eq_refl eq_refl eq_refl).
Defined.

(** ** The tags that are sent *)

(** X13: every tag the artifact modal sends is a label: not empty,
    without a comma, and without white space at either end, whatever was
    typed into the tags field. *)
Theorem parseTags_yields_labels (s : text) :
  Forall (fun t => plain_label t = true) (AddArtifactModal.parseTags s).
Proof.
  apply Forall_forall. intros t Ht. unfold AddArtifactModal.parseTags in Ht.
  apply filter_In in Ht. destruct Ht as [Ht Htruthy].
  apply in_map_iff in Ht. destruct Ht as (w & <- & Hw).
  pose proof (proj1 (Forall_forall _ _) (split_pieces_free comma s) w Hw) as Hfree.
  unfold plain_label.
  rewrite Htruthy, (forallb_trim _ _ Hfree), trim_head, trim_last. reflexivity.
Qed.

(** ** The opportunity form *)

(** X14: [handleSubmit] of the opportunity form either hands the form over
    exactly as typed (nothing is trimmed) and clears it, or hands nothing
    over, keeps what was typed and sets an error for exactly the required
    fields that are blank; [stakeholders] is never one of them. *)
Theorem handleSubmit_sends_or_keeps (st : CreateOpportunityModal.State) :
  let fd := CreateOpportunityModal.formData st in
  let st' := fst (CreateOpportunityModal.handleSubmit st) in
  match snd (CreateOpportunityModal.handleSubmit st) with
  | Some sent =>
      sent = fd
      /\ CreateOpportunityModal.formData st' = CreateOpportunityModal.emptyForm
      /\ CreateOpportunityModal.errors st' = []
  | None =>
      CreateOpportunityModal.formData st' = fd
      /\ CreateOpportunityModal.errors st' <> []
      /\ forall k,
           In k (map fst (CreateOpportunityModal.errors st'))
           <-> (k = "name"%string
                /\ truthy (trim (CreateOpportunityModal.name fd)) = false)
               \/ (k = "clientName"%string
                   /\ truthy (trim (CreateOpportunityModal.clientName fd)) = false)
               \/ (k = "description"%string
                   /\ truthy (trim (CreateOpportunityModal.description fd)) = false)
  end.
Proof.
  unfold CreateOpportunityModal.handleSubmit, CreateOpportunityModal.validate,
    CreateOpportunityModal.newErrors.
  destruct (truthy (trim (CreateOpportunityModal.name _))),
    (truthy (trim (CreateOpportunityModal.clientName _))),
    (truthy (trim (CreateOpportunityModal.description _))); simpl;
    repeat split; try discriminate; intros; intuition (try discriminate; auto).
Qed.

(** ** The phase list of the drawer *)

(** X15: the button Move to This Phase is shown under a phase exactly when
    pressing it asks for that phase: the guard of [handleMoveToPhase]
    never silences a button that is on the screen.  When the drawer is
    mounted no phase shows the button; after a click on a phase other than
    the current one, that phase and no other shows it. *)
Theorem move_button_is_live (st : OpportunityDrawer.State) :
  (forall phase,
     OpportunityDrawer.showsMoveButton st phase = true
     <-> OpportunityDrawer.handleMoveToPhase st = Some (OpportunityDrawer.id phase))
  /\ (forall phase,
        OpportunityDrawer.showsMoveButton
          (OpportunityDrawer.mounted (OpportunityDrawer.currentPhase st)) phase
        = false)
  /\ (forall phase,
        In phase OpportunityDrawer.PHASES ->
        OpportunityDrawer.id phase <> OpportunityDrawer.currentPhase st ->
        filter (OpportunityDrawer.showsMoveButton
                  (OpportunityDrawer.handlePhaseClick (OpportunityDrawer.id phase) st))
               OpportunityDrawer.PHASES
        = [phase]).
Proof.
  repeat split.
  - unfold OpportunityDrawer.showsMoveButton, OpportunityDrawer.isSelected,
      OpportunityDrawer.isActive, OpportunityDrawer.handleMoveToPhase.
    intros H. apply andb_true_iff in H. destruct H as [Hs Ha].
    apply text_eqb_eq in Hs. rewrite <- Hs, Ha. reflexivity.
  - unfold OpportunityDrawer.showsMoveButton, OpportunityDrawer.isSelected,
      OpportunityDrawer.isActive, OpportunityDrawer.handleMoveToPhase.
    destruct (text_eqb (OpportunityDrawer.selectedPhase st)
                       (OpportunityDrawer.currentPhase st)) eqn:E;
      simpl; [discriminate|].
    intros H. injection H as H. rewrite <- H, text_eqb_refl, E. reflexivity.
  - intros phase. unfold OpportunityDrawer.showsMoveButton,
      OpportunityDrawer.isSelected, OpportunityDrawer.isActive. simpl.
    destruct (text_eqb (OpportunityDrawer.id phase)
                       (OpportunityDrawer.currentPhase st)); reflexivity.
  - intros phase Hin Hne. apply text_eqb_neq in Hne.
    unfold OpportunityDrawer.showsMoveButton, OpportunityDrawer.isSelected,
      OpportunityDrawer.isActive.
    cbn [OpportunityDrawer.handlePhaseClick OpportunityDrawer.selectedPhase
         OpportunityDrawer.currentPhase].
    simpl in Hin.
    destruct Hin as [<-|[<-|[<-|[<-|[]]]]];
      cbn [OpportunityDrawer.id] in *;
      cbn [filter OpportunityDrawer.PHASES OpportunityDrawer.id];
      rewrite Hne; reflexivity.
Qed.

(** ** The handlers of Home *)

(** X16: [handleCreateOpportunity] clears [isCreating] in every outcome but
    one: when the server answers the creation with an error status, no
    branch of the handler runs, so [isCreating] stays set, no toast is
    shown, nothing is activated and no list is refreshed.  In every other
    outcome both overlay flags end cleared; the modal is closed in all. *)
Theorem create_leaves_the_overlay_on_error_status
  (data : CreateOpportunityModal.OpportunityFormData)
  (answer : Home.fetched Home.created) (activation : Home.fetched unit)
  (st : Home.State) :
  let st' := fst (Home.handleCreateOpportunity data answer activation st) in
  let calls := snd (Home.handleCreateOpportunity data answer activation st) in
  Home.isCreateModalOpen st' = false
  /\ (Home.isCreating st' = true <-> exists j, answer = Home.response false j)
  /\ (Home.isCreating st' = false -> Home.isTransitioning st' = false)
  /\ (Home.isCreating st' = true ->
      Home.toast st' = Home.toast st
      /\ Home.isTransitioning st' = Home.isTransitioning st
      /\ Home.showOpportunitySelector st' = Home.showOpportunitySelector st
      /\ calls = [Home.fetch (Home.POST_opportunities data)]).
Proof.
  unfold Home.handleCreateOpportunity.
  destruct answer as [|[|] [[|id]|]]; try destruct activation as [|[|] ?];
    cbn; repeat split; intros; try discriminate; try reflexivity;
    try (eexists; reflexivity);
    match goal with
    | H : exists _, _ = _ |- _ => destruct H; discriminate
    end.
Qed.

(** X17: from an idle component (neither overlay flag set) every event
    leads back to an idle component, whatever the server answers, except a
    creation answered with an error status, which leaves [isCreating]
    set. *)
Theorem handlers_leave_the_component_idle (e : Home.event) (st : Home.State) :
  Home.isTransitioning st = false -> Home.isCreating st = false ->
  Home.isTransitioning (Home.handle e st) = false
  /\ (Home.isCreating (Home.handle e st) = true
      <-> exists d j b, e = Home.create d (Home.response false j) b).
Proof.
  intros Ht Hc.
  destruct e as [i a|d a b| |i a|o p a|o x p a]; cbn [Home.handle].
  - destruct a as [|[|] ?]; cbn; (split; [reflexivity|]);
      (split; [discriminate|intros (? & ? & ? & ?); discriminate]).
  - destruct a as [|[|] [[|id]|]]; try destruct b as [|[|] ?]; cbn;
      (split; [assumption || reflexivity|]);
      (split; [try discriminate; intros _; do 3 eexists; reflexivity
              |try reflexivity; intros (? & ? & ? & ?); discriminate]).
  - cbn. split; [reflexivity|].
    split; [discriminate|intros (? & ? & ? & ?); discriminate].
  - destruct a as [|[|] ?]; cbn; (split; [assumption|]); rewrite Hc;
      (split; [discriminate|intros (? & ? & ? & ?); discriminate]).
  - destruct o, a as [|[|] ?]; cbn; (split; [assumption|]); rewrite Hc;
      (split; [discriminate|intros (? & ? & ? & ?); discriminate]).
  - destruct o, a as [|[|] [?|]]; cbn; (split; [assumption|]); rewrite Hc;
      (split; [discriminate|intros (? & ? & ? & ?); discriminate]).
Qed.

Lemma handlers_leave_the_component_idle_witness :
  Home.isTransitioning
    (Home.handle (Home.create CreateOpportunityModal.emptyForm
                    (Home.response false None) Home.rejected)
                 Home.mounted) = false
  /\ (Home.isCreating
        (Home.handle (Home.create CreateOpportunityModal.emptyForm
                        (Home.response false None) Home.rejected)
                     Home.mounted) = true
      <-> exists d j b,
            Home.create CreateOpportunityModal.emptyForm
              (Home.response false None) Home.rejected
            = Home.create d (Home.response false j) b).
Proof.
  exact (handlers_leave_the_component_idle
           (Home.create CreateOpportunityModal.emptyForm
              (Home.response false None) Home.rejected)
           Home.mounted eq_refl eq_refl).
Defined.

(** X18: deleting an opportunity, changing the phase and adding an
    artifact always end with a toast, a success toast exactly when the
    server answered with a success status (and, for an artifact, a body
    that parses); selecting an opportunity never shows one, so a failed
    activation goes unreported. *)
Theorem outcomes_are_reported_except_for_select (st : Home.State) :
  (forall i a, exists t,
     Home.toast (fst (Home.handleDeleteOpportunity i a st)) = Some t
     /\ (Home.type t = Home.success <-> exists j, a = Home.response true j))
  /\ (forall o p a, exists t,
        Home.toast (fst (Home.handlePhaseChange (Some o) p a st)) = Some t
        /\ (Home.type t = Home.success <-> exists j, a = Home.response true j))
  /\ (forall o x p a, exists t,
        Home.toast (fst (Home.handleArtifactAdd (Some o) x p a st)) = Some t
        /\ (Home.type t = Home.success
            <-> exists j, a = Home.response true (Some j)))
  /\ (forall i a,
        Home.toast (fst (Home.handleSelectOpportunity i a st)) = Home.toast st).
Proof.
  repeat split.
  - intros i a. destruct a as [|[|] j]; cbn; eexists;
      (split; [reflexivity|]); cbn;
      (split; [try discriminate; intros _; eexists; reflexivity
              |try reflexivity; intros [? ?]; discriminate]).
  - intros o p a. destruct a as [|[|] j]; cbn; eexists;
      (split; [reflexivity|]); cbn;
      (split; [try discriminate; intros _; eexists; reflexivity
              |try reflexivity; intros [? ?]; discriminate]).
  - intros o x p a. destruct a as [|[|] [j|]]; cbn; eexists;
      (split; [reflexivity|]); cbn;
      (split; [try discriminate; intros _; eexists; reflexivity
              |try reflexivity; intros [? ?]; discriminate]).
  - intros i a. destruct a as [|[|] j]; reflexivity.
Qed.

(** ** The hooks and the splash screen *)

(** X19: whatever the two first fetches answer, both hooks stop loading
    and the splash screen ends; the chat is entered exactly when the first
    fetch delivered an active opportunity, and the selector is shown
    otherwise, also after a failure.  A refresh that fails keeps the data
    the hook had and sets its error; one that succeeds clears the error, and
    a list answer without [opportunities] counts as the empty list. *)
Theorem splash_screen_always_ends
  (a1 : useOpportunity.fetched useOpportunity.OpportunityData)
  (a2 : useOpportunity.fetched (option (list useOpportunity.Opportunity))) :
  let h1 := useOpportunity.refresh a1 useOpportunity.mounted in
  let h2 := useOpportunities.refresh a2 useOpportunities.mounted in
  let st := initialLoad (useOpportunity.loading h1) (useOpportunity.loading h2)
              (useOpportunity.opportunity (useOpportunity.data h1)) Home.mounted in
  Home.isInitialLoad st = false
  /\ (Home.showOpportunitySelector st = false
      <-> exists d o, a1 = useOpportunity.response true (inr d)
                      /\ useOpportunity.opportunity d = Some o)
  /\ (forall h, useOpportunity.loading (useOpportunity.refresh a1 h) = false
                /\ (useOpportunity.error (useOpportunity.refresh a1 h) = None
                    <-> exists d, a1 = useOpportunity.response true (inr d))
                /\ (useOpportunity.error (useOpportunity.refresh a1 h) <> None ->
                    useOpportunity.data (useOpportunity.refresh a1 h)
                    = useOpportunity.data h))
  /\ (forall h, useOpportunity.loading (useOpportunities.refresh a2 h) = false
                /\ (useOpportunity.error (useOpportunities.refresh a2 h) <> None ->
                    useOpportunity.data (useOpportunities.refresh a2 h)
                    = useOpportunity.data h)
                /\ (a2 = useOpportunity.response true (inr None) ->
                    useOpportunity.data (useOpportunities.refresh a2 h) = [])).
Proof.
  destruct a1 as [e1|[|] [e1|[[o|] pa aa]]], a2 as [e2|[|] [e2|[l|]]]; cbn;
    repeat split; intros; try discriminate; try reflexivity; try congruence;
    try (do 2 eexists; split; reflexivity); try (eexists; reflexivity);
    repeat match goal with
           | H : exists _, _ |- _ => destruct H
           | H : _ /\ _ |- _ => destruct H
           end;
    try discriminate;
    match goal with
    | H : useOpportunity.response _ _ = useOpportunity.response _ _ |- _ =>
        injection H as <-; discriminate
    end.
Qed.

(** ** The groups of the conversation list *)

Ltac decide_dates :=
  repeat match goal with
         | H : context [Z.eqb ?a ?b] |- _ => destruct (Z.eqb_spec a b)
         | |- context [Z.eqb ?a ?b] => destruct (Z.eqb_spec a b)
         | H : context [Z.ltb ?a ?b] |- _ => destruct (Z.ltb_spec a b)
         | |- context [Z.ltb ?a ?b] => destruct (Z.ltb_spec a b)
         | H : context [Z.leb ?a ?b] |- _ => destruct (Z.leb_spec a b)
         | |- context [Z.leb ?a ?b] => destruct (Z.leb_spec a b)
         end;
  simpl in *; try discriminate; try reflexivity; try lia.

Section Grouping.

Variable localDay : Z -> Z.
Variable daysBack : Z -> Z -> Z.

Hypothesis localDay_monotone :
  forall a b, (a <= b)%Z -> (localDay a <= localDay b)%Z.
Hypothesis daysBack_day :
  forall days t, (localDay (daysBack days t) = localDay t - days)%Z.

(** X20: a conversation with a valid date is listed in exactly one of the
    groups Today, Yesterday, Last 7 Days and Older; one dated on a later
    day than today is listed under Last 7 Days; one whose date is invalid
    is listed in none. *)
Theorem every_dated_conversation_has_one_group (now : Z)
  (c : ConversationSidebar.Conversation) :
  match ConversationSidebar.timestamp c with
  | Some t =>
      (exists g, forall g',
         ConversationSidebar.in_group localDay daysBack now g' c = true <-> g' = g)
      /\ ((localDay now < localDay t)%Z ->
          ConversationSidebar.in_group localDay daysBack now
            ConversationSidebar.lastWeek c = true)
  | None =>
      forall g, ConversationSidebar.in_group localDay daysBack now g c = false
  end.
Proof.
  destruct (ConversationSidebar.timestamp c) as [t|] eqn:Ht.
  - pose proof (localDay_monotone t (daysBack 7 now)) as M.
    rewrite daysBack_day in M.
    pose proof (daysBack_day 1 now) as Y.
    split.
    + destruct (Z.leb_spec t (daysBack 7 now)) as [Hle|Hgt].
      * exists ConversationSidebar.older. specialize (M Hle).
        intros g'; destruct g'; unfold ConversationSidebar.in_group,
          ConversationSidebar.isSameDay, ConversationSidebar.after,
          ConversationSidebar.not_after; rewrite Ht, ?Y;
          split; intros H; decide_dates.
      * clear M.
        destruct (Z.eq_dec (localDay t) (localDay now)) as [E|N];
          [exists ConversationSidebar.today
          |destruct (Z.eq_dec (localDay t) (localDay now - 1)) as [E|N'];
           [exists ConversationSidebar.yesterday
           |exists ConversationSidebar.lastWeek]];
          intros g'; destruct g'; unfold ConversationSidebar.in_group,
            ConversationSidebar.isSameDay, ConversationSidebar.after,
            ConversationSidebar.not_after; rewrite Ht, ?Y;
            split; intros H; decide_dates.
    + intros Hlater. unfold ConversationSidebar.in_group,
        ConversationSidebar.isSameDay, ConversationSidebar.after. rewrite Ht, Y.
      decide_dates.
  - intros g. destruct g; unfold ConversationSidebar.in_group;
      rewrite Ht; reflexivity.
Qed.

End Grouping.

Lemma utcDay_monotone (a b : Z) :
  (a <= b)%Z -> (ConversationSidebar.utcDay a <= ConversationSidebar.utcDay b)%Z.
Proof. intros H. apply Z.div_le_mono; [lia|exact H]. Qed.

Lemma utcDaysBack_day (days t : Z) :
  ConversationSidebar.utcDay (ConversationSidebar.utcDaysBack days t)
  = (ConversationSidebar.utcDay t - days)%Z.
Proof.
  unfold ConversationSidebar.utcDay, ConversationSidebar.utcDaysBack.
  replace (t - days * 86400000)%Z with (t + (- days) * 86400000)%Z by lia.
  rewrite Z.div_add by lia. lia.
Qed.

Lemma every_dated_conversation_has_one_group_witness :
  let c := {| ConversationSidebar.id := js "c1";
              ConversationSidebar.title := js "Kickoff";
              ConversationSidebar.timestamp := Some 1699740800000%Z;
              ConversationSidebar.opportunityId := opp_a;
              ConversationSidebar.opportunityName := js "Acme Transformation";
              ConversationSidebar.messageCount := 4%Z |} in
  (exists g, forall g',
     ConversationSidebar.in_group ConversationSidebar.utcDay
       ConversationSidebar.utcDaysBack 1700000000000%Z g' c = true <-> g' = g)
  /\ ((ConversationSidebar.utcDay 1700000000000 < ConversationSidebar.utcDay 1699740800000)%Z ->
      ConversationSidebar.in_group ConversationSidebar.utcDay
        ConversationSidebar.utcDaysBack 1700000000000%Z
        ConversationSidebar.lastWeek c = true).
Proof.
  exact (every_dated_conversation_has_one_group ConversationSidebar.utcDay
           ConversationSidebar.utcDaysBack utcDay_monotone utcDaysBack_day
           1700000000000%Z
           {| ConversationSidebar.id := js "c1";
              ConversationSidebar.title := js "Kickoff";
              ConversationSidebar.timestamp := Some 1699740800000%Z;
              ConversationSidebar.opportunityId := opp_a;
              ConversationSidebar.opportunityName := js "Acme Transformation";
              ConversationSidebar.messageCount := 4%Z |}).
Defined.

(** ** The search box of the opportunity list *)

Lemma includes_empty (s : text) : includes s [] = true.
Proof. destruct s; reflexivity. Qed.

Lemma includes_self (s : text) : includes s s = true.
Proof.
  assert (H : startsWith s s = true).
  { induction s as [|c s IH]; simpl; [reflexivity|].
    rewrite N.eqb_refl, IH. reflexivity. }
  destruct s; simpl in *; [reflexivity|]. rewrite H. reflexivity.
Qed.

Lemma filter_split_length {A : Type} (P : A -> bool) (l : list A) :
  List.length (filter P l) + List.length (filter (fun x => negb (P x)) l)
  = List.length l.
Proof.
  induction l as [|a l IH]; simpl; [reflexivity|].
  destruct (P a); simpl; lia.
Qed.

(** X21: the list shows every opportunity that matches the search in
    exactly one of its two sections, Active for the status [active] and
    Past for any other status; an opportunity is always found by its own
    name or client name, whatever the case mapping does, and with an empty
    search box (which the case mapping leaves empty) every opportunity is
    shown. *)
Theorem search_splits_the_matches (toLowerCase : text -> text)
  (searchQuery : text) (opportunities : list useOpportunity.Opportunity) :
  let shown := OpportunityList.filteredOpportunities toLowerCase searchQuery
                 opportunities in
  let current := OpportunityList.activeOpportunities toLowerCase searchQuery
                   opportunities in
  let past := OpportunityList.pastOpportunities toLowerCase searchQuery
                opportunities in
  List.length current + List.length past = List.length shown
  /\ (forall opp, In opp shown <-> In opp current \/ In opp past)
  /\ (forall opp, In opp current -> In opp past -> False)
  /\ (forall opp, In opp opportunities ->
        In opp (OpportunityList.filteredOpportunities toLowerCase
                  (useOpportunity.name opp) opportunities)
        /\ In opp (OpportunityList.filteredOpportunities toLowerCase
                     (useOpportunity.clientName opp) opportunities))
  /\ (toLowerCase [] = [] ->
      OpportunityList.filteredOpportunities toLowerCase [] opportunities
      = opportunities).
Proof.
  cbv zeta. unfold OpportunityList.activeOpportunities,
    OpportunityList.pastOpportunities.
  set (shown := OpportunityList.filteredOpportunities toLowerCase searchQuery
                  opportunities).
  repeat split.
  - apply filter_split_length.
  - intros H.
    destruct (text_eqb (useOpportunity.opp_status opp) (js "active")) eqn:E;
      [left|right]; apply filter_In; rewrite E; auto.
  - intros [H|H]; apply filter_In in H; tauto.
  - intros opp H1 H2. apply filter_In in H1, H2.
    destruct H1 as [_ H1], H2 as [_ H2]. rewrite H1 in H2. discriminate.
  - apply filter_In. split; [assumption|].
    unfold OpportunityList.matches. rewrite includes_self. reflexivity.
  - apply filter_In. split; [assumption|].
    unfold OpportunityList.matches. rewrite includes_self. apply orb_true_r.
  - intros E. unfold OpportunityList.filteredOpportunities.
    apply filter_unchanged. intros opp _.
    unfold OpportunityList.matches. rewrite E, includes_empty. reflexivity.
Qed.

(** ** Calls of increment_artifacts_count, one after the other *)

Lemma set_artifacts_count_same (r : phase_progress_row) :
  set_artifacts_count (pp_artifacts_count r) r = r.
Proof. destruct r; reflexivity. Qed.

Lemma plus_zero (n : option Z) : plus 0 n = n.
Proof. destruct n as [z|]; simpl; [rewrite Z.add_0_r|]; reflexivity. Qed.

(** X22: [k] calls of [increment_artifacts_count] for one pair, one after
    the other, all succeed and add [k] to the count of every row the
    caller may update for that pair, as long as no such count would pass
    the largest INTEGER; a NULL count stays NULL and no other row and no
    other column changes. *)
Theorem increments_add_up (k : nat) (who : role) (o p : option text)
  (db : database) :
  (forall r z, In r (phase_progress db) ->
     policy_phase_progress who db r && phase_progress_key o p r = true ->
     pp_artifacts_count r = Some z -> (z + Z.of_nat k <= int4_max)%Z) ->
  increments k who o p db
  = Ok (with_phase_progress db
          (map (fun r => if policy_phase_progress who db r
                            && phase_progress_key o p r
                         then set_artifacts_count
                                (plus (Z.of_nat k) (pp_artifacts_count r)) r
                         else r)
               (phase_progress db))
          (phase_progress_id_seq db)).
Proof.
  revert db. induction k as [|k IH]; intros db H.
  - simpl. f_equal. rewrite map_unchanged; [symmetry; apply with_phase_progress_same|].
    intros r _. rewrite plus_zero, set_artifacts_count_same.
    destruct (_ && _); reflexivity.
  - cbn [increments].
    assert (Hnow : increment_artifacts_count who o p db
                   = Ok (with_phase_progress db
                           (map (fun r => if policy_phase_progress who db r
                                             && phase_progress_key o p r
                                          then set_artifacts_count
                                                 (plus_one (pp_artifacts_count r)) r
                                          else r)
                                (phase_progress db))
                           (phase_progress_id_seq db))).
    { unfold increment_artifacts_count.
      replace (existsb _ (phase_progress db)) with false; [reflexivity|].
      symmetry. apply existsb_false. intros r Hr.
      destruct (policy_phase_progress who db r && phase_progress_key o p r) eqn:Eh;
        [|reflexivity].
      destruct (pp_artifacts_count r) as [z|] eqn:Ez; [|reflexivity].
      simpl. apply Z.ltb_ge. specialize (H r z Hr Eh Ez). lia. }
    rewrite Hnow. cbn [bind]. rewrite IH.
    + f_equal. unfold with_phase_progress. cbn [phase_progress phase_progress_id_seq
        auth_users opportunities artifacts active_opportunity
        active_opportunity_id_seq]. f_equal. rewrite map_map. apply map_ext.
      intros r.
      change (policy_phase_progress who
                {| auth_users := auth_users db; opportunities := opportunities db;
                   phase_progress := _; phase_progress_id_seq := _;
                   artifacts := artifacts db;
                   active_opportunity := active_opportunity db;
                   active_opportunity_id_seq := active_opportunity_id_seq db |})
        with (policy_phase_progress who db).
      destruct (policy_phase_progress who db r && phase_progress_key o p r) eqn:Eh.
      * assert (Eh' : policy_phase_progress who db
                        (set_artifacts_count (plus_one (pp_artifacts_count r)) r)
                      && phase_progress_key o p
                           (set_artifacts_count (plus_one (pp_artifacts_count r)) r)
                      = true) by exact Eh.
        rewrite Eh'. unfold set_artifacts_count.
        cbn [pp_id pp_opportunity_id pp_phase pp_status pp_start_date pp_end_date
             pp_key_activities pp_artifacts_count pp_completion_percentage].
        f_equal. destruct (pp_artifacts_count r) as [z|]; simpl;
          [f_equal; lia|reflexivity].
      * rewrite Eh. reflexivity.
    + intros r1 z1 Hr1 Eh1 Ez1. cbn [phase_progress with_phase_progress] in Hr1.
      apply In_map_cond in Hr1.
      destruct Hr1 as (r & Hr & [[Eh ->]|[Eh ->]]).
      * change (policy_phase_progress who (with_phase_progress db _ _))
          with (policy_phase_progress who db) in Eh1. congruence.
      * destruct (pp_artifacts_count r) as [z|] eqn:Ez; simpl in Ez1;
          [|discriminate Ez1].
        injection Ez1 as <-. specialize (H r z Hr Eh Ez). lia.
Qed.

Lemma increments_add_up_witness :
  increments 3 (api_role (Some alice)) (Some opp_a) (Some pre_assessment) acme_db
  = Ok (with_phase_progress acme_db
          (map (fun r => if policy_phase_progress (api_role (Some alice)) acme_db r
                            && phase_progress_key (Some opp_a) (Some pre_assessment) r
                         then set_artifacts_count
                                (plus (Z.of_nat 3) (pp_artifacts_count r)) r
                         else r)
               (phase_progress acme_db))
          (phase_progress_id_seq acme_db)).
Proof.
  apply increments_add_up. intros r z Hr _ Ez. vm_compute in Hr.
  repeat (destruct Hr as [<-|Hr];
          [vm_compute in Ez; injection Ez as <-; unfold int4_max; lia|]).
  destruct Hr.
Defined.

(** ** An artifact, stored and read back *)

Lemma find_nothing {A : Type} (f : A -> bool) (l : list A) :
  (forall x, In x l -> f x = false) -> find f l = None.
Proof.
  induction l as [|a l IH]; simpl; intros H; [reflexivity|].
  rewrite (H a (or_introl eq_refl)). apply IH. intros x Hx. apply H. right. exact Hx.
Qed.

Lemma find_snoc_other {A : Type} (f : A -> bool) (l : list A) (r : A) :
  f r = false -> find f (l ++ [r]) = find f l.
Proof.
  intros H. induction l as [|a l IH]; simpl; [rewrite H; reflexivity|].
  destruct (f a); [reflexivity|exact IH].
Qed.

(** X23: an accepted INSERT into [artifacts] is read back: the caller finds
    under the new id exactly the row that was built (defaults filled in),
    every other id reads as before, and after the caller's DELETE of that id
    nothing is found under it. *)
Theorem inserted_artifact_is_read_back (who : role) (now : timestamptz)
  (v : artifacts_values) (db db' : database) :
  insert_artifacts who now v db = Ok db' ->
  exists r,
    artifacts_row now v = Ok r
    /\ select_artifact_by_id who (a_id r) db' = Some r
    /\ (forall id, id <> a_id r ->
          select_artifact_by_id who id db' = select_artifact_by_id who id db)
    /\ select_artifact_by_id who (a_id r) (delete_artifacts who (a_id r) db') = None.
Proof.
  intros H. apply insert_artifacts_ok in H.
  destruct H as (r & _ & Hr & E & E0 & _ & ->).
  exists r. split; [exact Hr|].
  unfold select_artifact_by_id, select_artifacts.
  cbn [artifacts with_artifacts delete_artifacts].
  change (policy_artifacts who (with_artifacts db (artifacts db ++ [r])))
    with (policy_artifacts who db).
  rewrite filter_app. cbn [filter]. rewrite E.
  repeat split.
  - rewrite find_app_none; [simpl; rewrite text_eqb_refl; reflexivity|].
    rewrite existsb_filter. apply existsb_false. intros x Hx.
    unfold has_artifact in E0.
    rewrite (proj1 (existsb_false _ _) E0 x Hx). apply andb_false_r.
  - intros id Hne. apply find_snoc_other. apply text_eqb_neq. congruence.
  - apply find_nothing. intros x Hx. apply filter_In in Hx.
    destruct Hx as [Hx Hp]. apply filter_In in Hx. destruct Hx as [_ Hd].
    change (policy_artifacts who (with_artifacts db (artifacts db ++ [r])))
      with (policy_artifacts who db) in Hd.
    assert (Hp' : policy_artifacts who db x = true) by exact Hp.
    rewrite Hp' in Hd. simpl in Hd. apply negb_true_iff in Hd. exact Hd.
Qed.

Lemma inserted_artifact_is_read_back_witness :
  let v := artifact_insert (js "art-1") opp_a (js "Manual approval bottleneck")
             (js "...") (js "pain_point") pre_assessment NULL in
  let db' := or_same acme_db
               (insert_artifacts (api_role (Some alice)) 1%Z v acme_db) in
  exists r,
    artifacts_row 1%Z v = Ok r
    /\ select_artifact_by_id (api_role (Some alice)) (a_id r) db' = Some r
    /\ (forall id, id <> a_id r ->
          select_artifact_by_id (api_role (Some alice)) id db'
          = select_artifact_by_id (api_role (Some alice)) id acme_db)
    /\ select_artifact_by_id (api_role (Some alice)) (a_id r)
         (delete_artifacts (api_role (Some alice)) (a_id r) db') = None.
Proof.
  exact (inserted_artifact_is_read_back (api_role (Some alice)) 1%Z
           (artifact_insert (js "art-1") opp_a (js "Manual approval bottleneck")
              (js "...") (js "pain_point") pre_assessment NULL)
           acme_db _ eq_refl).
Defined.

(** ** When an INSERT of a user is accepted *)

Lemma owns_opportunity_fkey (u : uuid) (db : database) (ref : option text) :
  owns_opportunity (Some u) db ref = true -> opportunity_fkey ref db = true.
Proof.
  intros H. apply owns_opportunity_in in H. destruct H as (o & Ho & -> & _).
  simpl. apply has_opportunity_in. apply in_map. exact Ho.
Qed.

(** X24: an INSERT into [artifacts] sent by a signed-in user is accepted
    exactly when its values can be read (every text in them is one a TEXT
    column holds), the five NOT NULL columns are given, the id is not taken
    and the user owns the opportunity the row refers to; the REFERENCES
    clause never rejects what the policy lets through. *)
Theorem user_insert_artifacts_accepted (u : uuid) (now : timestamptz)
  (v : artifacts_values) (db : database) :
  (exists db', insert_artifacts (api_role (Some u)) now v db = Ok db')
  <-> artifacts_input v = Ok tt
      /\ given (av_id v) && given (av_title v) && given (av_content v)
         && given (av_artifact_type v) && given (av_phase v) = true
      /\ (forall i, av_id v = VALUE i -> has_artifact i db = false)
      /\ owns_opportunity (Some u) db (resolve None (av_opportunity_id v)) = true.
Proof.
  unfold insert_artifacts.
  destruct (artifacts_input v) as [[]|e]; cbn [bind];
    [|split; [intros [db' H]; discriminate H|intros [H _]; discriminate H]].
  cbn [with_check_artifacts].
  destruct (owns_opportunity (Some u) db (resolve None (av_opportunity_id v)))
    eqn:Eown; cbn [check bind];
    [|split; [intros [db' H]; discriminate H
             |intros (_ & _ & _ & H); discriminate H]].
  unfold artifacts_row.
  destruct (av_id v) as [| |i], (av_title v) as [| |t], (av_content v) as [| |c],
    (av_artifact_type v) as [| |k], (av_phase v) as [| |p];
    cbn [resolve not_null bind given andb];
    try (split; [intros [db' H]; discriminate H
                |intros (_ & H & _); discriminate H]).
  cbn [a_opportunity_id a_id].
  destruct (has_artifact i db) eqn:Ehas; cbn [negb check bind].
  - split; [intros [db' H]; discriminate H|].
    intros (_ & _ & H & _). specialize (H i eq_refl). congruence.
  - rewrite (owns_opportunity_fkey _ _ _ Eown). cbn [check bind].
    split; [intros _|intros _; eexists; reflexivity].
    repeat split. intros j Hj. injection Hj as <-. exact Ehas.
Qed.

(** X25: an INSERT into [opportunities] sent by a signed-in user is
    accepted exactly when its values can be read, it names the user as
    [user_id], gives the id, the name and the client name, does not set the
    phase or the status to NULL, and the id is not taken by any owner's
    row. *)
Theorem user_insert_opportunities_accepted (u : uuid) (now : timestamptz)
  (v : opportunities_values) (db : database) :
  (exists db', insert_opportunities (api_role (Some u)) now v db = Ok db')
  <-> opportunities_input v = Ok tt
      /\ given (ov_id v) && given (ov_name v) && given (ov_client_name v)
         && not_NULL (ov_current_phase v) && not_NULL (ov_status v) = true
      /\ ov_user_id v = VALUE u
      /\ (forall i, ov_id v = VALUE i -> has_opportunity i db = false)
      /\ existsb (N.eqb u) (auth_users db) = true.
Proof.
  unfold insert_opportunities.
  destruct (opportunities_input v) as [[]|e]; cbn [bind];
    [|split; [intros [db' H]; discriminate H|intros [H _]; discriminate H]].
  cbn [with_check_opportunities]. unfold opportunities_row.
  destruct (ov_user_id v) as [| |w]; cbn [resolve sql_eq is_true check bind];
    try (split; [intros [db' H]; discriminate H
                |intros (_ & _ & H & _); discriminate H]).
  destruct (N.eqb u w) eqn:Eu; cbn [check bind];
    [apply N.eqb_eq in Eu; subst w
    |split; [intros [db' H]; discriminate H|];
     intros (_ & _ & H & _); injection H as ->;
     rewrite N.eqb_refl in Eu; discriminate Eu].
  destruct (ov_id v) as [| |i], (ov_name v) as [| |n],
    (ov_client_name v) as [| |c], (ov_current_phase v) as [| |p],
    (ov_status v) as [| |s];
    cbn [resolve not_null bind given not_NULL andb];
    try (split; [intros [db' H]; discriminate H
                |intros (_ & H & _); discriminate H]).
  all: cbn [o_user_id o_id].
  all: destruct (has_opportunity i db) eqn:Ehas; cbn [negb check bind];
    [split; [intros [db' H]; discriminate H|];
     intros (_ & _ & _ & H & _); specialize (H i eq_refl); congruence|].
  all: destruct (existsb (N.eqb u) (auth_users db)) eqn:Eauth; cbn [check bind];
    [|split; [intros [db' H]; discriminate H
             |intros (_ & _ & _ & _ & H); congruence]].
  all: split; [intros _|intros _; eexists; reflexivity].
  all: repeat split; intros j Hj; injection Hj as <-; exact Ehas.
Qed.

(** ** The headers of an authorised request *)

Lemma get_app (k : string) (a b : api.object) :
  api.get k (a ++ b)
  = match api.get k a with
    | Some v => Some v
    | None => api.get k b
    end.
Proof.
  unfold api.get. induction a as [|[k' v'] a IH]; simpl; [reflexivity|].
  destruct (String.eqb k' k); [reflexivity|exact IH].
Qed.

Lemma get_absent (k : string) (o : api.object) :
  ~ In k (map fst o) -> api.get k o = None.
Proof.
  unfold api.get. intros H. rewrite find_nothing; [reflexivity|].
  intros [k' v'] Hin. simpl. apply String.eqb_neq. intros ->.
  apply H. apply (in_map fst) in Hin. exact Hin.
Qed.

Lemma get_rev (k : string) (o : api.object) :
  NoDup (map fst o) -> api.get k (rev o) = api.get k o.
Proof.
  induction o as [|[k' v'] o IH]; intros Hnd; [reflexivity|].
  inversion Hnd as [|? ? Hk Ho]; subst. simpl rev. rewrite get_app, (IH Ho).
  unfold api.get at 2 3. simpl. destruct (String.eqb k' k) eqn:E.
  - apply String.eqb_eq in E. subst k'. rewrite (get_absent k o Hk). reflexivity.
  - fold (api.get k o). destruct (api.get k o); reflexivity.
Qed.

Lemma get_define (k key : string) (value : text) (o : api.object) :
  api.get k (api.define key value o)
  = if String.eqb key k then Some value else api.get k o.
Proof.
  unfold api.get. induction o as [|[k' v'] o IH]; simpl.
  - destruct (String.eqb key k); reflexivity.
  - destruct (String.eqb k' key) eqn:E; simpl.
    + apply String.eqb_eq in E. subst k'.
      destruct (String.eqb key k); reflexivity.
    + destruct (String.eqb k' k) eqn:E'.
      * destruct (String.eqb key k) eqn:E''; [|reflexivity].
        apply String.eqb_eq in E', E''. subst.
        rewrite String.eqb_refl in E. discriminate E.
      * exact IH.
Qed.

Lemma get_defined (k : string) (l : list (string * text)) :
  forall o,
    api.get k (fold_left (fun o kv => api.define (fst kv) (snd kv) o) l o)
    = match api.get k (rev l) with
      | Some v => Some v
      | None => api.get k o
      end.
Proof.
  induction l as [|[k' v'] l IH]; intros o; [reflexivity|].
  simpl fold_left. rewrite IH. simpl rev. rewrite get_app, get_define.
  destruct (api.get k (rev l)); [reflexivity|].
  replace (api.get k [(k', v')])
    with (if String.eqb k' k then Some v' else None)
    by (unfold api.get; simpl; destruct (String.eqb k' k); reflexivity).
  destruct (String.eqb k' k); reflexivity.
Qed.

(** X26: [authFetch] calls [fetch] only with a session token in hand:
    without a session, or with a missing or empty token, it throws
    [No active session] before any request.  Otherwise the request goes to
    the same URL with the other options untouched, and each header is the
    caller's where the caller gives one, [Authorization] and [Content-Type]
    included, and the session's otherwise. *)
Theorem authFetch_headers {A : Type} (session : option api.Session) (url : text)
  (given : option api.object) (rest : A) :
  let callers := match given with Some h => h | None => [] end in
  let options := {| api.headers := given; api.others := rest |} in
  NoDup (map fst callers) ->
  match session with
  | Some {| api.access_token := Some (c :: token) |} =>
      exists h,
        api.authFetch session url options
        = inl (url, {| api.headers := Some h; api.others := rest |})
        /\ forall k,
             api.get k h
             = match api.get k callers with
               | Some v => Some v
               | None =>
                   api.get k [("Authorization"%string, js "Bearer " ++ c :: token);
                              ("Content-Type"%string, js "application/json")]
               end
  | _ => api.authFetch session url options = inr (js "No active session")
  end.
Proof.
  intros callers options Hnd.
  destruct session as [[[[|c token]|]]|]; try reflexivity.
  eexists. split; [reflexivity|]. intros k.
  unfold api.spread. rewrite get_defined, rev_app_distr, get_app.
  change (match api.headers options with Some h => h | None => [] end)
    with callers.
  rewrite (get_rev k callers Hnd).
  destruct (api.get k callers); [reflexivity|].
  rewrite get_rev.
  - destruct (api.get k _); reflexivity.
  - repeat constructor; simpl; intuition discriminate.
Qed.

Lemma authFetch_headers_witness :
  exists h,
    api.authFetch (Some {| api.access_token := Some (js "t0ken") |})
      (js "/opportunities")
      {| api.headers := Some [("Authorization"%string, js "Bearer other")];
         api.others := tt |}
    = inl (js "/opportunities", {| api.headers := Some h; api.others := tt |})
    /\ forall k,
         api.get k h
         = match api.get k [("Authorization"%string, js "Bearer other")] with
           | Some v => Some v
           | None =>
               api.get k [("Authorization"%string, js "Bearer " ++ js "t0ken");
                          ("Content-Type"%string, js "application/json")]
           end.
Proof.
  apply (authFetch_headers (Some {| api.access_token := Some (js "t0ken") |})
           (js "/opportunities")
           (Some [("Authorization"%string, js "Bearer other")]) tt).
  repeat constructor. simpl. tauto.
Defined.

(** Such rows can be there: the service role stores an artifact without an
    opportunity, and the owner of every opportunity still reads none. *)
Example artifact_without_opportunity :
  exists db',
    insert_artifacts service_role 1%Z
      {| av_id := VALUE (js "art-0"); av_opportunity_id := NULL;
         av_title := VALUE (js "Template"); av_content := VALUE (js "...");
         av_artifact_type := VALUE (js "other"); av_phase := VALUE pre_assessment;
         av_created_by := DEFAULT; av_created_at := DEFAULT; av_tags := DEFAULT |}
      acme_db = Ok db'
    /\ List.length (artifacts db') = 1
    /\ select_artifacts (api_role (Some alice)) db' = [].
Proof. eexists. split; [reflexivity|]. split; reflexivity. Qed.
